(** * Drug–disease profile matching: pairing, layers and the GSVA scorer

    A shallow embedding of three Python modules

      - [data_sources/tcga/__init__.py]   (class [ExpressionManager]),
      - [signature_scoring/scoring_functions/gsva.py],
      - [multi_view/layers.py]            (classes [Layers], [CodingMutationLayer]),

    and the properties of them that the specification states.

    Conventions.  A pandas [DataFrame] is a list of row labels together with
    its labelled columns; a float64 cell is an IEEE binary64 value
    ([spec_float] with precision 53); a Python exception is a value of
    [exn] and a call that can raise returns a [res].  Objects that the code
    mutates in place live in a store and are named by their location. *)

From Stdlib Require Import ZArith List Bool Lia Permutation Ascii.
From Stdlib Require Import Floats.SpecFloat.
From stdpp Require Import gmap strings list fin_maps.

Set Default Proof Using "Type".
Open Scope string_scope.
Open Scope list_scope.

(* ===================================================================== *)
(** * Python and pandas basics                                            *)
(* ===================================================================== *)

Module Py.

(** The exceptions that the modelled code can raise or catch. *)
Inductive exn : Set :=
| TypeError
| KeyError
| AssertionError
| AttributeError
| StatisticsError
| RRuntimeError.

Inductive res (A : Type) : Type :=
| Ok (a : A)
| Raise (e : exn).
Arguments Ok {A} a.
Arguments Raise {A} e.

Definition is_ok {A} (r : res A) : bool :=
  match r with Ok _ => true | Raise _ => false end.

Definition res_bind {A B} (r : res A) (k : A → res B) : res B :=
  match r with Ok a => k a | Raise e => Raise e end.

(** Sequencing of calls that may raise, left to right, stopping at the
    first exception (a list comprehension or a [for] loop that collects). *)
Fixpoint res_mapM {A B} (f : A → res B) (l : list A) : res (list B) :=
  match l with
  | [] => Ok []
  | x :: l' =>
      match f x with
      | Raise e => Raise e
      | Ok y => match res_mapM f l' with
                | Raise e => Raise e
                | Ok ys => Ok (y :: ys)
                end
      end
  end.

(** float64 *)
Abbreviation float := spec_float.
Definition nan : float := S754_nan.
Definition fzero : float := S754_zero false.
Definition fdiv : float → float → float := SFdiv 53 1024.
Definition fmul : float → float → float := SFmul 53 1024.
(** [x > y] on floats; false as soon as one side is NaN. *)
Definition fgt (x y : float) : bool := SFltb y x.
Definition isnan (x : float) : bool :=
  match x with S754_nan => true | _ => false end.

(** A state-and-exception monad for code that reads and writes module
    globals and objects of the store. *)
Definition M (S A : Type) : Type := S → res A * S.

Definition ret {S A} (a : A) : M S A := fun s => (Ok a, s).
Definition raise {S A} (e : exn) : M S A := fun s => (Raise e, s).
Definition bind {S A B} (m : M S A) (k : A → M S B) : M S B :=
  fun s => match m s with
           | (Ok a, s') => k a s'
           | (Raise e, s') => (Raise e, s')
           end.
Definition get {S} : M S S := fun s => (Ok s, s).
Definition put {S} (s : S) : M S unit := fun _ => (Ok tt, s).
Definition lift {S A} (r : res A) : M S A := fun s => (r, s).

End Py.
Export Py.

Declare Scope py_scope.
Delimit Scope py_scope with py.
Notation "'do' x <~ m ;; k" := (Py.bind m (fun x => k))
  (at level 10, x name, m at level 99, k at level 200) : py_scope.
Notation "'try' x <~ r ;; k" := (Py.res_bind r (fun x => k))
  (at level 10, x name, r at level 99, k at level 200) : py_scope.

(** ** DataFrames *)

Module Pandas.

Abbreviation Label := string.
Abbreviation Column := (string * list float)%type.

(** [index] are the row labels; each column carries its label and one cell
    per row. *)
Record DataFrame : Set := mkDataFrame {
  index : list Label;
  cols : list Column
}.

(** [df.columns] *)
Definition columns (df : DataFrame) : list string := map fst (cols df).

(** [df.empty]: one of the two axes has length zero. *)
Definition empty (df : DataFrame) : bool :=
  match index df, cols df with
  | [], _ => true
  | _, [] => true
  | _, _ => false
  end.

(** Keep the positions of [l] at which [mask] is true. *)
Fixpoint select_mask {A} (mask : list bool) (l : list A) : list A :=
  match mask, l with
  | b :: mask', x :: l' =>
      if b then x :: select_mask mask' l' else select_mask mask' l'
  | _, _ => []
  end.

(** [df[mask]] with a boolean mask over the rows. *)
Definition getitem_mask (df : DataFrame) (mask : list bool) : DataFrame :=
  {| index := select_mask mask (index df);
     cols := map (fun c => (fst c, select_mask mask (snd c))) (cols df) |}.

(** The columns of [df] labelled [name], in frame order. *)
Definition cols_named (df : DataFrame) (name : string) : list Column :=
  filter (fun c => String.eqb (fst c) name) (cols df).

(** [df[names]] with a list of column labels: for each requested label, in
    the order requested, every column carrying it; [KeyError] when a label
    is not a column of the frame. *)
Definition getitem_columns (df : DataFrame) (names : list string)
  : res DataFrame :=
  if forallb (fun n => existsb (String.eqb n) (columns df)) names
  then Ok {| index := index df;
             cols := flat_map (cols_named df) names |}
  else Raise KeyError.

(** [df[name]] for a single label of a frame whose column labels are
    distinct. *)
Definition getitem (df : DataFrame) (name : string) : res (list float) :=
  match cols_named df name with
  | c :: _ => Ok (snd c)
  | [] => Raise KeyError
  end.

(** [df.drop(labels)] along the rows: every row whose label is listed
    goes. *)
Definition drop_rows (df : DataFrame) (labels : list Label) : DataFrame :=
  getitem_mask df
    (map (fun l => negb (existsb (String.eqb l) labels)) (index df)).

End Pandas.
Export Pandas.

(** ** The object store

    Tables that are shared between a cache, a caller and the code that edits
    them in place are kept in a store; a variable holding such a table holds
    its location. *)

Module Store.

Abbreviation loc := nat.
Abbreviation store := (list DataFrame).

(** A new object: its location is the next free one. *)
Definition alloc (h : store) (df : DataFrame) : loc * store :=
  (List.length h, h ++ [df]).

Definition read (h : store) (l : loc) : option DataFrame := h !! l.

(** In-place update of the object at [l]. *)
Definition write (h : store) (l : loc) (df : DataFrame) : store :=
  <[l := df]> h.

End Store.
Export Store.

(* ===================================================================== *)
(** * signature_scoring/scoring_functions/gsva.py                         *)
(* ===================================================================== *)

Module Gsva.

(** What [gsva.py] imports and this development does not contain: the
    profile classes of [..models], the embedded R session of [rpy2] with the
    GSVA and limma packages, [multiprocess_cache_manager],
    [combine_gsea_results] of [.gsea] and pandas' [Series.mean].  They are
    the parameters of the model. *)
Class Engine : Type := {
  (** [ExpressionWithControls] and [Profile] objects *)
  Expression : Type;
  (** the type of [expression.hashable] *)
  Hashable : Type;
  Hashable_eq_dec :: EqDecision Hashable;
  Hashable_countable :: Countable Hashable;
  hashable : Expression → Hashable;
  (** [isinstance(expression, Profile)] *)
  is_Profile : Expression → bool;
  (** the state of the R session (global environment, random generator) *)
  R : Type;
  (** Lines 43-151 of [gsva]: the expression table is handed to R, GSVA is
      run (with the permutation test when [permutations] is truthy, with
      limma when not [single_sample]) and the table of gene sets is read
      back; an R error surfaces as an exception. Takes the profile,
      [gene_sets], [method], [single_sample], [permutations] and [mx_diff]. *)
  r_gsva : Expression → string → string → bool → option Z → bool →
           R → res DataFrame * R;
  (** [r('gc()')] *)
  r_gc : R → R;
  (** [combine_gsea_results(disease, signature, na_action)] *)
  combine_gsea_results : DataFrame → DataFrame → string → res DataFrame;
  (** [Series.mean()] *)
  series_mean : list float → float
}.

(** The key of [GSVA_CACHE]: [(expression.hashable, method, gene_sets)]. *)
Abbreviation Key := (Hashable * string * string)%type.

Section WithEngine.
Context `{Engine}.

(** The module globals, the store of result tables and the R session.
    [GSVA_CACHE] is [None] until the cache manager has created the 'dict'
    that line 18 registers; it maps a key to the result object stored under
    it. *)
Record state : Type := mkState {
  GSVA_CACHE : option (gmap Key loc);
  process_specific_counter : Z;
  heap : store;
  r_session : R
}.

Definition set_cache (c : option (gmap Key loc)) (s : state) : state :=
  mkState c (process_specific_counter s) (heap s) (r_session s).
Definition set_counter (n : Z) (s : state) : state :=
  mkState (GSVA_CACHE s) n (heap s) (r_session s).
Definition set_heap (h : store) (s : state) : state :=
  mkState (GSVA_CACHE s) (process_specific_counter s) h (r_session s).
Definition set_session (r : R) (s : state) : state :=
  mkState (GSVA_CACHE s) (process_specific_counter s) (heap s) r.

(** Truth value of the [permutations] argument: [None] and [0] are falsy. *)
Definition truthy (permutations : option Z) : bool :=
  match permutations with
  | None => false
  | Some n => negb (n =? 0)%Z
  end.

(** [gsva(expression, gene_sets, method, single_sample, permutations,
    mx_diff, _cache)].

    Line 36 is [raise warn(...)]: [warn] returns [None], and raising [None]
    is a [TypeError].  Line 40, [key in GSVA_CACHE], is a [TypeError] as
    well while [GSVA_CACHE] is still [None]. *)
Definition gsva (expression : Expression) (gene_sets method : string)
    (single_sample : bool) (permutations : option Z) (mx_diff _cache : bool)
  : M state loc :=
  fun s =>
  if negb single_sample && truthy permutations then (Raise TypeError, s)
  else
    let key : Key := (hashable expression, method, gene_sets) in
    match GSVA_CACHE s with
    | None => (Raise TypeError, s)
    | Some cache =>
        match cache !! key with
        | Some result => (Ok result, s)
        | None =>
            if single_sample && negb (is_Profile expression)
            then (Raise AssertionError, s)
            else
              match r_gsva expression gene_sets method single_sample
                      permutations mx_diff (r_session s) with
              | (Raise e, r') => (Raise e, set_session r' s)
              | (Ok table, r') =>
                  let '(result, h') := alloc (heap s) table in
                  let counter := (process_specific_counter s + 1)%Z in
                  let r'' := if (counter mod 20 =? 0)%Z then r_gc r' else r' in
                  let cache' :=
                    if _cache then <[key := result]> cache else cache in
                  (Ok result, mkState (Some cache') counter h' r'')
              end
        end
    end.

(** A call that leaves every optional argument at its default. *)
Definition gsva_default (expression : Expression) (gene_sets : string)
  : M state loc :=
  gsva expression gene_sets "gsva" false (Some 1000%Z) true true.

(** The configuration that [create_gsva_scorer] closes over; [id_type] and
    [grouping] only reach the gene-set loader and the decorator. *)
Record scorer_config : Type := mkConfig {
  cfg_gene_sets : string;
  q_value_cutoff : float;
  na_action : string;
  cfg_method : string;
  cfg_single_sample : bool;
  cfg_permutations : option Z;
  cfg_mx_diff : bool
}.

(** Modelled from the spec: [multiprocess_cache_manager] is not among the
    sources; the specification calls the cache a simple memoization cache,
    so [respawn_cache_if_needed()] creates the empty 'dict' when there is
    none and leaves an existing one alone. *)
Definition respawn_cache_if_needed : M state unit :=
  fun s =>
  match GSVA_CACHE s with
  | None => (Ok tt, set_cache (Some ∅) s)
  | Some _ => (Ok tt, s)
  end.

(** Labels of the rows at which [mask] holds: [df[mask].index]. *)
Definition masked_index (df : DataFrame) (mask : list bool) : list Label :=
  select_mask mask (index df).

(** [disease_gene_sets.drop(disease_gene_sets[disease_gene_sets['fdr_q-val']
    > q_value_cutoff].index, inplace=True)] on the object at [l]. *)
Definition drop_above_cutoff (cutoff : float) (l : loc) : M state unit :=
  fun s =>
  match read (heap s) l with
  | None => (Raise KeyError, s)
  | Some table =>
      match getitem table "fdr_q-val" with
      | Raise e => (Raise e, s)
      | Ok fdr =>
          let mask := map (fun q => fgt q cutoff) fdr in
          let labels := masked_index table mask in
          (Ok tt, set_heap (write (heap s) l (drop_rows table labels)) s)
      end
  end.

(** Reading a variable that holds a table. *)
Definition deref (l : loc) : M state DataFrame :=
  fun s =>
  match read (heap s) l with
  | Some table => (Ok table, s)
  | None => (Raise KeyError, s)
  end.

(** [joined.score]: the column as an attribute. *)
Definition score_column (joined : DataFrame) : res (list float) :=
  match getitem joined "score" with
  | Ok c => Ok c
  | Raise _ => Raise AttributeError
  end.

(** The closure [gsva_score(disease, compound)] that [create_gsva_scorer]
    returns. *)
Definition gsva_score (cfg : scorer_config) (disease compound : Expression)
  : M state float :=
  (do _ <~ respawn_cache_if_needed ;;
   do disease_gene_sets <~ gsva disease (cfg_gene_sets cfg) (cfg_method cfg)
       (cfg_single_sample cfg) (cfg_permutations cfg) (cfg_mx_diff cfg) true ;;
   do _ <~ drop_above_cutoff (q_value_cutoff cfg) disease_gene_sets ;;
   do signature_gene_sets <~ gsva compound (cfg_gene_sets cfg) (cfg_method cfg)
       (cfg_single_sample cfg) (cfg_permutations cfg) (cfg_mx_diff cfg) false ;;
   do d <~ deref disease_gene_sets ;;
   do c <~ deref signature_gene_sets ;;
   do joined <~ lift (combine_gsea_results d c (na_action cfg)) ;;
   do score <~ lift (score_column joined) ;;
   ret (series_mean score))%py.

(** ** The scorer in the words of the specification *)

(** The guard of line 35 lets a call through. *)
Definition passes_guard (single_sample : bool) (permutations : option Z)
  : Prop :=
  single_sample = true ∨ truthy permutations = false.

(** The cache key of a profile under a scorer's configuration. *)
Definition key_of (cfg : scorer_config) (expression : Expression) : Key :=
  (hashable expression, cfg_method cfg, cfg_gene_sets cfg).

(** The R session as [gsva] leaves it after a computation that ended in
    session [r] and was number [counter] of the process. *)
Definition collected (counter : Z) (r : R) : R :=
  if (counter mod 20 =? 0)%Z then r_gc r else r.

(** Every column has one cell per row. *)
Definition well_formed (df : DataFrame) : Prop :=
  Forall (fun c => List.length (snd c) = List.length (index df)) (cols df).

(** "Removes every disease gene set whose 'fdr_q-val' exceeds
    q_value_cutoff": the rows whose q-value is not above the cutoff stay. *)
Definition remaining_gene_sets (cutoff : float) (table : DataFrame)
  : res DataFrame :=
  (try fdr <~ getitem table "fdr_q-val" ;;
   Ok (getitem_mask table (map (fun q => negb (fgt q cutoff)) fdr)))%py.

(** "Combines the remaining disease gene sets with the compound gene sets,
    and returns the mean of the combined 'score' column", from the GSVA
    tables of the two profiles. *)
Definition gsva_score_spec (cfg : scorer_config)
    (disease_table compound_table : DataFrame) : res float :=
  (try remaining <~ remaining_gene_sets (q_value_cutoff cfg) disease_table ;;
   try joined <~ combine_gsea_results remaining compound_table (na_action cfg) ;;
   try score <~ score_column joined ;;
   Ok (series_mean score))%py.

(** ** Invariants of the cache *)

(** Every object that the cache names is in the store. *)
Definition cache_valid (s : state) : Prop :=
  ∀ cache key result,
    GSVA_CACHE s = Some cache → cache !! key = Some result →
    is_Some (read (heap s) result).

(** From [s] to [s'] the cache has kept its bindings, the store has at most
    one new table after the old ones, and the counter has moved up by at
    most one; when the call raised, all three are as they were. *)
Definition only_adds (s s' : state) (outcome : res loc) : Prop :=
  match GSVA_CACHE s, GSVA_CACHE s' with
  | Some cache, Some cache' => cache ⊆ cache'
  | None, None => True
  | _, _ => False
  end
  ∧ (∃ new, heap s' = heap s ++ new ∧ (List.length new ≤ 1)%nat)
  ∧ (process_specific_counter s ≤ process_specific_counter s'
     ≤ process_specific_counter s + 1)%Z
  ∧ (is_ok outcome = false →
     GSVA_CACHE s' = GSVA_CACHE s ∧ heap s' = heap s
     ∧ process_specific_counter s' = process_specific_counter s).

(** The q-values of a table that are above the cutoff. *)
Definition above_cutoff (cutoff : float) (fdr : list float) : list float :=
  List.filter (fun q => fgt q cutoff) fdr.

End WithEngine.

End Gsva.

(* ===================================================================== *)
(** * data_sources/tcga/__init__.py                                       *)
(* ===================================================================== *)

Module Tcga.

(** A [TCGABarcode] object: the barcode it was made from and the two
    properties the pairing code reads. *)
Record TCGABarcode : Set := mkBarcode {
  barcode : string;
  participant : string;
  sample_type : string
}.

(** A pandas [Series] of scores.  Its labels are [str] until
    [index.astype(bytes)] turns them into [bytes]. *)
Inductive IndexLabel : Set :=
| Str (s : string)
| Bytes (s : string).

Record Series : Set := mkSeries {
  s_index : list IndexLabel;
  s_values : list float
}.

(** What the module imports and this development does not contain: the class
    [TCGABarcode] of [.barcode], [signal_to_noise_vectorized] of [metrics],
    and the part of Python and pandas that is not a function of the data
    alone (the order in which a [set] is iterated). *)
Class Env : Type := {
  (** [TCGABarcode(column_name)] *)
  parse_barcode : string → TCGABarcode;
  (** [TCGABarcode.sample_type_ranges.values()] *)
  sample_types : list string;
  (** The elements of a [set] of barcode objects built from the given
      sequence, in the order the set yields them. *)
  barcode_set : list TCGABarcode → list TCGABarcode;
  (** The same for a [set] of row labels. *)
  label_set : list Label → list Label;
  (** [signal_to_noise_vectorized(case, control)] *)
  signal_to_noise_vectorized : DataFrame → DataFrame → res Series;
  (** [concat([control, additional_controls], axis=1).T.drop_duplicates().T] *)
  concat_drop_duplicates : DataFrame → DataFrame → DataFrame
}.

(** The [metric] argument of [differential]: the function
    [signal_to_noise] itself (the test is [metric is signal_to_noise]) or
    any other function of the case row and the control row of one gene.
    A row selected by [.loc[gene]] is the list of the rows carrying that
    label, one for a [Series]. *)
Inductive Metric : Type :=
| signal_to_noise
| metric_function (f : list (list float) → list (list float) → res float).

(** An [ExpressionManager] is a [DataFrame] whose columns are samples. *)
Abbreviation ExpressionManager := DataFrame.

Section WithEnv.
Context `{Env}.

(** [self.barcodes] *)
Definition barcodes (self : ExpressionManager) : list TCGABarcode :=
  map parse_barcode (columns self).

(** [self.classes] *)
Definition classes (self : ExpressionManager) : list string :=
  map sample_type (barcodes self).

(** [d[key]] on a dict given by its items; the first item wins. *)
Fixpoint dict_get {V} (key : string) (d : list (string * V)) : res V :=
  match d with
  | [] => Raise KeyError
  | (k, v) :: d' => if String.eqb k key then Ok v else dict_get key d'
  end.

(** [by_participant[key].append(b)] on a [defaultdict]: the list of an
    existing key grows, a new key goes last. *)
Fixpoint defaultdict_append (key : string) (b : TCGABarcode)
    (d : list (string * list TCGABarcode)) : list (string * list TCGABarcode) :=
  match d with
  | [] => [(key, [b])]
  | (k, l) :: d' =>
      if String.eqb k key then (k, l ++ [b]) :: d'
      else (k, l) :: defaultdict_append key b d'
  end.

(** [self.samples_by_participant()] *)
Definition samples_by_participant (self : ExpressionManager)
  : list (string * list TCGABarcode) :=
  fold_left (fun by_participant b =>
               defaultdict_append (participant b) b by_participant)
            (barcodes self) [].

(** [ParticipantSamples.by_type] *)
Definition by_type (samples : list TCGABarcode)
  : list (string * list TCGABarcode) :=
  map (fun t =>
         (t, barcode_set
               (filter (fun b => String.eqb (sample_type b) t) samples)))
      sample_types.

(** [l[:n]] *)
Definition slice_to {A} (l : list A) (n : Z) : list A :=
  if (0 <=? n)%Z then take (Z.to_nat n) l
  else take (List.length l - Z.to_nat (- n)) l.

(** Truth values of the optional arguments. *)
Definition int_truthy (n : option Z) : bool :=
  match n with Some n => negb (n =? 0)%Z | None => false end.
Definition str_truthy (s : option string) : bool :=
  match s with Some s => negb (String.eqb s "") | None => false end.
Definition list_truthy {A} (l : option (list A)) : bool :=
  match l with Some (_ :: _) => true | _ => false end.
Definition nonempty {A} (l : list A) : bool :=
  match l with [] => false | _ => true end.

(** [types.remove(x)]: the first occurrence goes. *)
Fixpoint list_remove (x : string) (l : list string) : list string :=
  match l with
  | [] => []
  | y :: l' => if String.eqb y x then l' else y :: list_remove x l'
  end.

(** The body of the loop of [paired] for one participant: what it appends
    to [paired]. *)
Definition paired_samples (type_one type_two : string)
    (limit_to : option Z) (spread : option string)
    (participant_samples : list TCGABarcode) : res (list TCGABarcode) :=
  let samples_by_type := by_type participant_samples in
  (try one <~ dict_get type_one samples_by_type ;;
   if negb (nonempty one) then Ok [] else
   try two <~ dict_get type_two samples_by_type ;;
   if negb (nonempty two) then Ok [] else
   if int_truthy limit_to then
     let n := default 0%Z limit_to in
     Ok (slice_to one n ++ slice_to two n)
   else if str_truthy spread then
     let s := default "" spread in
     let types := [type_one; type_two] in
     if negb (existsb (String.eqb s) types) then Raise AssertionError
     else
       match list_remove s types with
       | [not_spread] =>
           try cases <~ dict_get not_spread samples_by_type ;;
           try controls <~ dict_get s samples_by_type ;;
           if negb (List.length controls =? 1)%nat then Raise AssertionError
           else Ok (cases ++ concat (repeat controls (List.length cases)))
       | _ => Raise AssertionError
       end
   else Ok participant_samples)%py.

(** [self.paired(type_one, type_two, limit_to, spread)] *)
Definition paired (self : ExpressionManager) (type_one type_two : string)
    (limit_to : option Z) (spread : option string) : res ExpressionManager :=
  if str_truthy spread && int_truthy limit_to then Raise AssertionError
  else
    (try groups <~ res_mapM (paired_samples type_one type_two limit_to spread)
                     (map snd (samples_by_participant self)) ;;
     getitem_columns self (map barcode (concat groups)))%py.

(** [subset.columns[subset.classes == type_name]] *)
Definition columns_of_class (subset : ExpressionManager) (type_name : string)
  : list string :=
  select_mask (map (fun c => String.eqb c type_name) (classes subset))
              (columns subset).

(** [self.split(case_, control_, only_paired)]; [None] is the bare
    [return]. *)
Definition split (self : ExpressionManager) (case_ control_ : string)
    (only_paired : bool) : res (option (ExpressionManager * ExpressionManager)) :=
  (try paired <~ (if only_paired then paired self case_ control_ None None
                  else Ok self) ;;
   if empty paired then Ok None
   else
     try cases <~ getitem_columns paired (columns_of_class paired case_) ;;
     try controls <~ getitem_columns paired (columns_of_class paired control_) ;;
     Ok (Some (cases, controls)))%py.

(** The rows labelled [gene], each as its cells across the columns. *)
Fixpoint rows_labelled (gene : Label) (labels : list Label)
    (cells : list (list float)) : list (list float) :=
  match labels with
  | [] => []
  | l :: labels' =>
      let here := map (fun c => hd nan c) cells in
      let rest := rows_labelled gene labels' (map (fun c => tl c) cells) in
      if String.eqb l gene then here :: rest else rest
  end.

(** The cells of the rows labelled [gene], across the columns of a frame. *)
Definition rows_of (frame : DataFrame) (gene : Label) : list (list float) :=
  rows_labelled gene (index frame) (map snd (cols frame)).

(** [frame.loc[gene]]: the rows labelled [gene]; [KeyError] when there is
    none. *)
Definition loc_gene (frame : DataFrame) (gene : Label) : res (list (list float)) :=
  match rows_of frame gene with
  | [] => Raise KeyError
  | rows => Ok rows
  end.

(** [frame.loc[genes]]: the rows of the listed labels, label by label;
    [KeyError] when a label is not in the index. *)
Definition loc_genes (frame : DataFrame) (genes : list Label) : res DataFrame :=
  if forallb (fun g => existsb (String.eqb g) (index frame)) genes
  then
    Ok {| index :=
            flat_map (fun g => filter (String.eqb g) (index frame)) genes;
          cols :=
            map (fun c =>
                   (fst c,
                    flat_map (fun g =>
                                select_mask (map (String.eqb g) (index frame))
                                            (snd c)) genes))
                (cols frame) |}
  else Raise KeyError.

(** [series.fillna(0)] *)
Definition fillna_0 (series : Series) : Series :=
  {| s_index := s_index series;
     s_values := map (fun x => if isnan x then fzero else x) (s_values series) |}.

(** [series.index = series.index.astype(bytes)] *)
Definition index_astype_bytes (series : Series) : Series :=
  {| s_index := map (fun l => match l with Str s | Bytes s => Bytes s end)
                    (s_index series);
     s_values := s_values series |}.

(** [len(control.columns.difference(additional_controls.columns))], as a
    truth value. *)
Definition columns_difference (control additional : DataFrame) : list string :=
  filter (fun c => negb (existsb (String.eqb c) (columns additional)))
         (columns control).

(** Lines 207-210: [genes = set(case.index)], intersected with
    [set(limit_to)] when [limit_to] is truthy, then [list(genes)]. *)
Definition chosen_genes (case : DataFrame) (limit_to : option (list Label))
  : list Label :=
  let genes := label_set (index case) in
  if list_truthy limit_to
  then label_set (filter (fun g => existsb (String.eqb g)
                                     (default [] limit_to)) genes)
  else genes.

(** The loop of lines 215-216: [metric(case.loc[gene], control.loc[gene])]
    for each gene in turn. *)
Definition per_gene_scores
    (f : list (list float) → list (list float) → res float)
    (case control : DataFrame) (genes : list Label) : res (list float) :=
  res_mapM (fun gene =>
              try a <~ loc_gene case gene ;;
              try b <~ loc_gene control gene ;;
              f a b)%py genes.

(** The body of the [try] of lines 211-217. *)
Definition compute_signature (metric : Metric) (case control : DataFrame)
    (genes : list Label) : res Series :=
  match metric with
  | signal_to_noise =>
      (try case_rows <~ loc_genes case genes ;;
       try control_rows <~ loc_genes control genes ;;
       signal_to_noise_vectorized case_rows control_rows)%py
  | metric_function f =>
      (try diff <~ per_gene_scores f case control genes ;;
       Ok {| s_index := map Str genes; s_values := diff |})%py
  end.

(** Lines 221-224. *)
Definition finish_signature (nans : string) (index_as_bytes : bool)
    (query_signature : Series) : Series :=
  let query_signature :=
    if String.eqb nans "fill_0" then fillna_0 query_signature
    else query_signature in
  if index_as_bytes then index_astype_bytes query_signature
  else query_signature.

(** [self.differential(case_, control_, metric, index_as_bytes, limit_to,
    only_paired, nans, additional_controls)]; [None] is the bare [return]
    that follows a warning. *)
Definition differential (self : ExpressionManager) (case_ control_ : string)
    (metric : Metric) (index_as_bytes : bool) (limit_to : option (list Label))
    (only_paired : bool) (nans : string) (additional_controls : option DataFrame)
  : res (option Series) :=
  (try halves <~ split self case_ control_ only_paired ;;
   match halves with
   | None => Raise TypeError   (* [case, control = None] *)
   | Some (case, control) =>
       let control :=
         match additional_controls with
         | None => control
         | Some additional =>
             if nonempty (columns_difference control additional)
             then concat_drop_duplicates control additional
             else additional
         end in
       if empty case || empty control then Ok None
       else
         match compute_signature metric case control
                 (chosen_genes case limit_to) with
         | Raise StatisticsError => Ok None
         | Raise e => Raise e
         | Ok query_signature =>
             Ok (Some (finish_signature nans index_as_bytes query_signature))
         end
   end)%py.

(** ** The vocabulary of the specification *)

(** What the pairing code relies on from [TCGABarcode] and from Python's
    sets: a barcode object remembers the column name it was made from; a set
    yields the elements it was built from, each once when they are
    distinct, in some order. *)
Record faithful : Prop := {
  barcode_of_column : ∀ c, barcode (parse_barcode c) = c;
  barcode_set_elem : ∀ l x, x ∈ barcode_set l ↔ x ∈ l;
  barcode_set_perm : ∀ l, NoDup l → barcode_set l ≡ₚ l;
  label_set_elem : ∀ l x, x ∈ label_set l ↔ x ∈ l;
  label_set_NoDup : ∀ l, NoDup (label_set l)
}.

(** The samples of a list that are of a given type. *)
Definition of_type (t : string) (samples : list TCGABarcode)
  : list TCGABarcode :=
  filter (fun b => String.eqb (sample_type b) t) samples.

(** The samples (columns) of one participant. *)
Definition samples_of (self : ExpressionManager) (p : string)
  : list TCGABarcode :=
  filter (fun b => String.eqb (participant b) p) (barcodes self).

(** The participant has at least one sample of the type. *)
Definition has_sample (self : ExpressionManager) (p t : string) : bool :=
  nonempty (of_type t (samples_of self p)).

(** The column is a sample of a participant that has samples of both
    types. *)
Definition is_paired (self : ExpressionManager) (type_one type_two : string)
    (column : string) : bool :=
  let p := participant (parse_barcode column) in
  has_sample self p type_one && has_sample self p type_two.

(** The type that is not spread: what [types.remove(spread)] leaves of
    [[type_one, type_two]]. *)
Definition other_type (type_one type_two spread : string) : string :=
  if String.eqb type_one spread then type_two else type_one.

(** What a participant with samples of both types contributes when one type
    is spread: its samples of the other type, then the sample of the spread
    type once for each of them. *)
Definition spread_samples (other spread : string) (samples : list TCGABarcode)
  : list TCGABarcode :=
  match of_type other samples, of_type spread samples with
  | _ :: _, control :: _ =>
      let cases := barcode_set (of_type other samples) in
      cases ++ repeat control (List.length cases)
  | _, _ => []
  end.

(** The same as column labels. *)
Definition spread_block (other spread : string) (samples : list TCGABarcode)
  : list string :=
  map barcode (spread_samples other spread samples).

(** All the samples of a participant that has samples of both types, and
    none of any other participant. *)
Definition whole_group (type_one type_two : string)
    (samples : list TCGABarcode) : list TCGABarcode :=
  if nonempty (of_type type_one samples) && nonempty (of_type type_two samples)
  then samples else [].

(** The labels that [paired] asks for when neither [limit_to] nor [spread]
    is given. *)
Definition paired_labels (self : ExpressionManager)
    (type_one type_two : string) : list string :=
  map barcode
      (concat (map (whole_group type_one type_two)
                   (map snd (samples_by_participant self)))).

(** The class of a column, as [classes] computes it. *)
Definition class_of (column : string) : string :=
  sample_type (parse_barcode column).

(** The columns of a frame that are of a class, in frame order. *)
Definition columns_in_class (df : ExpressionManager) (type_name : string)
  : list Column :=
  List.filter (fun c => String.eqb (class_of (fst c)) type_name) (cols df).

(** The groups of [samples_by_participant] for a given list of
    participants. *)
Definition groups_of (samples : list TCGABarcode) (participants : list string)
  : list (string * list TCGABarcode) :=
  map (fun p => (p, filter (fun b => String.eqb (participant b) p) samples))
      participants.

(** ** The other selections of [ExpressionManager] *)

(** [self.barcodes_for_type(sample_type)] *)
Definition barcodes_for_type (self : ExpressionManager) (type_name : string)
  : res (list TCGABarcode) :=
  if negb (existsb (String.eqb type_name) sample_types)
  then Raise AssertionError
  else Ok (filter (fun b => String.eqb (sample_type b) type_name)
                  (barcodes self)).

(** [self.limit_to_sample_type(sample_type)] *)
Definition limit_to_sample_type (self : ExpressionManager)
    (type_name : string) : res ExpressionManager :=
  (try chosen_columns <~ barcodes_for_type self type_name ;;
   getitem_columns self (map barcode chosen_columns))%py.

(** [self.by_sample_type(type_name, paired_against)] *)
Definition by_sample_type (self : ExpressionManager) (type_name : string)
    (paired_against : option string) : res ExpressionManager :=
  (try subset <~ (if str_truthy paired_against
                  then paired self type_name (default "" paired_against)
                         None None
                  else Ok self) ;;
   getitem_columns subset (columns_of_class subset type_name))%py.

(** What the loop of [paired] appends for one participant with
    [limit_to=n]. *)
Definition limited_samples (type_one type_two : string) (n : Z)
    (samples : list TCGABarcode) : list TCGABarcode :=
  if nonempty (of_type type_one samples) && nonempty (of_type type_two samples)
  then slice_to (barcode_set (of_type type_one samples)) n
       ++ slice_to (barcode_set (of_type type_two samples)) n
  else [].

(** The frame of the rows of [self] without any column: [self[[]]]. *)
Definition no_columns (self : ExpressionManager) : ExpressionManager :=
  {| index := index self; cols := [] |}.

(** ** [TCGA.mutations]: the files that are read *)

(** The loop of [TCGA.mutations] over [paths.keys()] when [participants] is
    given: a barcode is taken when its participant is still in the set,
    which then loses that participant.  [keys] are the keys of [paths] in
    the order of the dict; the result is [barcodes] and what is left of
    [participants]. *)
Fixpoint first_barcodes (keys : list TCGABarcode) (participants : gset string)
  : list TCGABarcode * gset string :=
  match keys with
  | [] => ([], participants)
  | key :: keys' =>
      if decide (participant key ∈ participants) then
        let '(chosen, left_over) :=
          first_barcodes keys' (participants ∖ {[ participant key ]}) in
        (key :: chosen, left_over)
      else first_barcodes keys' participants
  end.

(** The [barcodes] that [TCGA.mutations(cancer_type, participants)] goes on
    to read, for [barcodes=None], and whether it warns of participants
    without mutations. *)
Definition chosen_barcodes (keys : list TCGABarcode)
    (participants : option (list string)) : list TCGABarcode * bool :=
  match participants with
  | Some (p :: ps) =>
      let '(chosen, left_over) := first_barcodes keys (list_to_set (p :: ps)) in
      (chosen, negb (bool_decide (left_over = ∅)))
  | _ => (keys, false)
  end.

(** ** [TCGAExpression.cohorts] *)

(** [s.split(sep)] for a separator of one character. *)
Fixpoint str_split (sep : ascii) (s : string) : list string :=
  match s with
  | EmptyString => [EmptyString]
  | String c s' =>
      if Ascii.eqb c sep then EmptyString :: str_split sep s'
      else match str_split sep s' with
           | part :: parts => String c part :: parts
           | [] => [String c EmptyString]
           end
  end.

(** [path[start:-stop]] for two lengths: [-0] is [0], so that nothing is
    left when [stop] is 0. *)
Definition slice (path : string) (start stop : nat) : string :=
  let last := if Nat.eqb stop 0 then 0 else String.length path - stop in
  String.substring start (last - start) path.

(** The two constant parts of [TCGAExpression.path_template], around
    [{cancer_type}] and after [{self.path}]. *)
Definition path_template_head : string := "/gdac.broadinstitute.org_".
Definition path_template_tail : string :=
  ".Merge_rnaseqv2__illuminahiseq_rnaseqv2__unc_edu__Level_3__RSEM_genes_normalized__data.Level_3.2016012800.0.0.tar.gz".

(** [path_template.format(self=self, cancer_type=cancer_type)] *)
Definition format_path (self_path cancer_type : string) : string :=
  String.append self_path
    (String.append path_template_head
       (String.append cancer_type path_template_tail)).

(** [TCGAExpression.cohorts()], with [glob] for the function of that name;
    [None] stands for the [ValueError] of unpacking anything but two
    lengths. *)
Definition cohorts (self_path : string) (glob : string → list string)
  : option (list string) :=
  let glob_path := format_path self_path "*" in
  match map String.length (str_split "*" glob_path) with
  | [prefix_len; suffix_len] =>
      Some (map (fun path => slice path prefix_len suffix_len) (glob glob_path))
  | _ => None
  end.

(** Does the character occur in the string? *)
Fixpoint occurs (c : ascii) (s : string) : bool :=
  match s with
  | EmptyString => false
  | String c' s' => Ascii.eqb c' c || occurs c s'
  end.

(** ** [download_with_firebrowser] *)

(** What a call gives that may raise [ValueError] or go on for ever: the
    loop is run with a bound on its iterations, and [StillRunning] says that
    the bound was reached. *)
Inductive outcome (A : Type) : Type :=
| Returned (a : A)
| ValueError
| StillRunning.
#[global] Arguments Returned {A} a.
#[global] Arguments ValueError {A}.
#[global] Arguments StillRunning {A}.

(** [page.columns = labels]: pandas raises [ValueError] when the number of
    labels is not that of the columns; [None] stands for it. *)
Definition set_columns (page : DataFrame) (labels : list Label)
  : option DataFrame :=
  if Nat.eqb (List.length labels) (List.length (cols page))
  then Some {| index := index page;
               cols := combine labels (map snd (cols page)) |}
  else None.

(** The [while] loop, [method] giving the page (after [r2p]) for each page
    number. *)
Fixpoint download_loop (fuel : nat) (method : nat → DataFrame) (page_size : Z)
    (page_nr : nat) (first_page : option DataFrame) (pages : list DataFrame)
  : outcome (list DataFrame) :=
  match fuel with
  | O => StillRunning
  | S fuel' =>
      let page := method page_nr in
      let renamed :=
        match first_page with
        | None => Some (page, page)
        | Some first =>
            match set_columns page (columns first) with
            | Some page' => Some (first, page')
            | None => None
            end
        end in
      match renamed with
      | None => ValueError
      | Some (first, page') =>
          if (Z.of_nat (List.length (index page')) <? page_size)%Z
          then Returned (pages ++ [page'])
          else download_loop fuel' method page_size (S page_nr) (Some first)
                 (pages ++ [page'])
      end
  end.

(** [concat(pages)] for frames that have the columns of the first one: the
    rows of the pages, one page after the other. *)
Definition concat_rows (pages : list DataFrame) : DataFrame :=
  {| index := flat_map index pages;
     cols := match pages with
             | [] => []
             | first :: _ =>
                 imap (fun j c =>
                         (fst c,
                          flat_map (fun page => nth j (map snd (cols page)) [])
                                   pages))
                      (cols first)
             end |}.

(** [download_with_firebrowser(method, page_size)] *)
Definition download_with_firebrowser (fuel : nat) (method : nat → DataFrame)
    (page_size : Z) : outcome DataFrame :=
  match download_loop fuel method page_size 1 None [] with
  | Returned pages => Returned (concat_rows pages)
  | ValueError => ValueError
  | StillRunning => StillRunning
  end.

(** A page with the column labels of the first page. *)
Definition renamed_as (first page : DataFrame) : DataFrame :=
  {| index := index page;
     cols := combine (columns first) (map snd (cols page)) |}.

End WithEnv.

End Tcga.

(* ===================================================================== *)
(** * multi_view/layers.py                                                *)
(* ===================================================================== *)

Module Layers.

(** A [for] loop that threads an accumulator through a body with effects. *)
Fixpoint foldM {S A B} (body : B → A → M S B) (l : list A) (acc : B)
  : M S B :=
  match l with
  | [] => ret acc
  | x :: l' => (do acc' <~ body acc x ;; foldM body l' acc')%py
  end.

(** A name bound to a frame holds the location of the frame. *)
Definition deref (v : loc) : M store DataFrame :=
  fun h =>
  match read h v with
  | Some df => (Ok df, h)
  | None => (Raise KeyError, h)
  end.

(** A new frame object. *)
Definition new (df : DataFrame) : M store loc :=
  fun h => let '(l, h') := alloc h df in (Ok l, h').

(** [deepcopy(v)] *)
Definition deepcopy (v : loc) : M store loc :=
  (do df <~ deref v ;; new df)%py.

(** The frame with another index. *)
Definition with_index (idx : list Label) (df : DataFrame) : DataFrame :=
  {| index := idx; cols := cols df |}.

(** [v.index = v.index.map(mapper)], on the object itself. *)
Definition set_index_map (mapper : Label → Label) (v : loc) : M store unit :=
  (do df <~ deref v ;;
   fun h => (Ok tt, write h v (with_index (map mapper (index df)) df)))%py.

(** [Layers.filter(func)]: the new value of [self.layers]. The items of a
    dict are taken in the order [map_to_list] lists them. *)
Definition filter_layers (func : Label → bool) (layers : gmap string loc)
  : M store (gmap string loc) :=
  foldM (fun (acc : gmap string loc) (kv : string * loc) =>
           do v <~ deref (snd kv) ;;
           do v' <~ new (getitem_mask v (map func (index v))) ;;
           ret (<[fst kv := v']> acc))%py
        (map_to_list layers) ∅.

(** [Layers.__init__(data, mapper, filter)]: the [layers] attribute of the
    new object. *)
Definition init (data : gmap string loc) (mapper : Label → Label)
    (filter : Label → bool) : M store (gmap string loc) :=
  (do layers <~ foldM (fun (layers : gmap string loc) (kv : string * loc) =>
                         do copy <~ deepcopy (snd kv) ;;
                         ret (<[fst kv := copy]> layers))
                      (map_to_list data) ∅ ;;
   do layers <~ filter_layers filter layers ;;
   foldM (fun (layers : gmap string loc) (kv : string * loc) =>
            do _ <~ set_index_map mapper (snd kv) ;;
            ret (<[fst kv := snd kv]> layers))
         (map_to_list data) layers)%py.

(** The frame with [mapper] applied to its index. *)
Definition remap (mapper : Label → Label) (df : DataFrame) : DataFrame :=
  with_index (map mapper (index df)) df.

(** The dict after [d[k] = v] for every item of a list, in order. *)
Definition insert_all (items : list (string * loc)) (d : gmap string loc)
  : gmap string loc :=
  fold_left (fun acc kv => <[fst kv := snd kv]> acc) items d.

(** How many items of a list hold the object [l]. *)
Definition count_loc (l : loc) (items : list (string * loc)) : nat :=
  List.length (List.filter (fun kv => Nat.eqb (snd kv) l) items).

(** How many keys of [data] hold the object [l]. *)
Definition occurrences (l : loc) (data : gmap string loc) : nat :=
  count_loc l (map_to_list data).

(** ** [Layer]: frames whose rows are samples *)

(** [Layer.limit_to_samples(samples_set)]:
    [self[self.index.isin(samples_set)]]. *)
Definition limit_to_samples (self : DataFrame) (samples_set : list Label)
  : DataFrame :=
  getitem_mask self
    (map (fun l => existsb (String.eqb l) samples_set) (index self)).

(** Equality of two float64 cells, [==]. *)
Definition feq (x y : float) : bool := SFeqb x y.

(** The different values of a list of cells, NaN apart: a cell is dropped
    when an equal one comes later. *)
Fixpoint distinct_values (cells : list float) : list float :=
  match cells with
  | [] => []
  | x :: cells' =>
      if isnan x || existsb (feq x) (distinct_values cells')
      then distinct_values cells'
      else x :: distinct_values cells'
  end.

(** [Series.nunique()] *)
Definition nunique (cells : list float) : nat :=
  List.length (distinct_values cells).

(** [df.dropna(axis='columns', how='all')]: the columns with a cell that is
    not NaN stay. *)
Definition dropna_all_columns (df : DataFrame) : DataFrame :=
  {| index := index df;
     cols := List.filter (fun c => existsb (fun x => negb (isnan x)) (snd c))
               (cols df) |}.

(** [df.drop(labels, axis='columns')]: every column whose label is listed
    goes. *)
Definition drop_columns (df : DataFrame) (labels : list string) : DataFrame :=
  {| index := index df;
     cols := List.filter (fun c => negb (existsb (String.eqb (fst c)) labels))
               (cols df) |}.

(** [Layer.drop_useless_features()] *)
Definition drop_useless_features (self : DataFrame) : DataFrame :=
  let without_na := dropna_all_columns self in
  let unique_count := map (fun c => (fst c, nunique (snd c))) (cols without_na) in
  let without_variance :=
    map fst (List.filter (fun c => Nat.eqb (snd c) 1) unique_count) in
  drop_columns without_na without_variance.

(** [df.fillna(0)] *)
Definition fillna_0 (df : DataFrame) : DataFrame :=
  {| index := index df;
     cols := map (fun c => (fst c,
                            map (fun x => if isnan x then fzero else x) (snd c)))
                 (cols df) |}.

(** The rows of [df] labelled [label], as one frame row each: its cells
    across the columns. *)
Fixpoint rows_at (label : Label) (labels : list Label)
    (cells : list (list float)) : list (list float) :=
  match labels with
  | [] => []
  | l :: labels' =>
      let rest := rows_at label labels' (map (fun c => tl c) cells) in
      if String.eqb l label then map (fun c => hd nan c) cells :: rest
      else rest
  end.

(** The rows that a left merge on the index gives for one key of the left
    frame: the rows of [self] with that label, or one row of NaN when there
    is none. *)
Definition merged_rows (self : DataFrame) (key : Label) : list (list float) :=
  match rows_at key (index self) (map snd (cols self)) with
  | [] => [map (fun _ => nan) (cols self)]
  | rows => rows
  end.

(** Column [j] of a list of rows. *)
Definition column_of_rows (rows : list (list float)) (j : nat) : list float :=
  map (fun row => nth j row nan) rows.

(** [Layer.rearrange_to_match_with(other_layer)] with the default
    [how='left']: [merge(other_layer[[]], self, left_on=..index,
    right_on=self.index, how='left').set_index('key_0')].  The keys are the
    row labels of [other_layer], in order; the columns are those of
    [self], which has no column named ['key_0']. *)
Definition rearrange_to_match_with (self other_layer : DataFrame) : DataFrame :=
  let keyed_rows :=
    flat_map (fun key => map (fun row => (key, row)) (merged_rows self key))
             (index other_layer) in
  {| index := map fst keyed_rows;
     cols := imap (fun j c => (fst c, column_of_rows (map snd keyed_rows) j))
                  (cols self) |}.

(** [Layer.preprocess(rearrange_against)]; [clean_index_names] only sets
    the names of the two axes. *)
Definition preprocess (self : DataFrame) (rearrange_against : option DataFrame)
  : DataFrame :=
  let new_layer :=
    match rearrange_against with
    | Some other => rearrange_to_match_with self other
    | None => self
    end in
  fillna_0 (drop_useless_features new_layer).

(** The row number of the first row of [labels] labelled [label]. *)
Fixpoint position (label : Label) (labels : list Label) : option nat :=
  match labels with
  | [] => None
  | l :: labels' =>
      if String.eqb l label then Some 0%nat
      else S <$> position label labels'
  end.

(** Column [c] of a frame read at the rows that carry the labels [keys] in
    a frame with the row labels [labels]: NaN where no row does. *)
Definition cells_at (labels keys : list Label) (c : Column) : Column :=
  (fst c,
   map (fun key => match position key labels with
                   | Some r => nth r (snd c) nan
                   | None => nan
                   end) keys).

(** [ProteinSequences] of [bio.protein_sequences], which this development
    does not contain: [average_length(protein)] with [Some protein], and
    [average_length()], the average over all proteins, with [None]. *)
Class ProteinSequences : Type := {
  average_length : option string → res float
}.

Section WithSequences.
Context `{ProteinSequences}.

(** The local function [normalize(column)]. *)
Definition normalize (recover : bool) (column : Column) : res Column :=
  match average_length (Some (fst column)) with
  | Ok protein_length =>
      Ok (fst column, map (fun x => fdiv x protein_length) (snd column))
  | Raise StatisticsError | Raise KeyError =>
      if recover then
        (try average <~ average_length None ;;
         Ok (fst column, map (fun x => fdiv x average) (snd column)))%py
      else Ok (fst column, map (fun x => fmul x nan) (snd column))
  | Raise e => Raise e
  end.

(** [CodingMutationLayer.normalize_by_protein_length(recover)]:
    [self.apply(normalize, axis='rows')] calls [normalize] on every column.
    The counter [failed] is tested before [apply] runs, when it is still 0,
    so no warning is ever issued. *)
Definition normalize_by_protein_length (self : DataFrame) (recover : bool)
  : res DataFrame :=
  (try normalized <~ res_mapM (normalize recover) (cols self) ;;
   Ok {| index := index self; cols := normalized |})%py.

(** The lookup of a protein's length fails in one of the two ways that
    [normalize] catches. *)
Definition lookup_fails (protein : string) : Prop :=
  average_length (Some protein) = Raise StatisticsError
  ∨ average_length (Some protein) = Raise KeyError.

(** What the specification says of one column and its normalized
    version. *)
Definition normalized_as_specified (recover : bool) (column out : Column)
  : Prop :=
  fst out = fst column
  ∧ match average_length (Some (fst column)) with
    | Ok protein_length =>
        snd out = map (fun x => fdiv x protein_length) (snd column)
    | Raise _ =>
        if recover
        then ∃ average,
               average_length None = Ok average
               ∧ snd out = map (fun x => fdiv x average) (snd column)
        else snd out = map (fun _ => nan) (snd column)
    end.

End WithSequences.

End Layers.

(* ===================================================================== *)
(** * Concrete inputs                                                     *)
(* ===================================================================== *)

Module Examples.

Definition f_of_Z (n : Z) : float := binary_normalize 53 1024 n 0 false.

(** 0.05 and 0.5 do not matter exactly; small integers stand for q-values
    and scores. *)
Definition table_a : DataFrame :=
  {| index := ["KEGG_A"; "KEGG_B"; "KEGG_C"];
     cols := [("nes", [f_of_Z 2; f_of_Z 5; f_of_Z 7]);
              ("fdr_q-val", [f_of_Z 0; f_of_Z 3; nan])] |}.

Definition table_b : DataFrame :=
  {| index := ["KEGG_A"; "KEGG_C"];
     cols := [("nes", [f_of_Z 4; f_of_Z 1]);
              ("fdr_q-val", [f_of_Z 0; f_of_Z 0])] |}.

(** A stand-in engine: a profile is a flag (is it a [Profile]?) and its
    hashable; R returns [table_a] for the hashable "a" and [table_b] for
    every other one, and counts its calls.  Combining two tables puts their
    'nes' columns one after the other, and the stand-in for the mean is the
    number of scores. *)
#[local] Instance engine : Gsva.Engine := {|
  Gsva.Expression := (bool * string)%type;
  Gsva.Hashable := string;
  Gsva.hashable := snd;
  Gsva.is_Profile := fst;
  Gsva.R := nat;
  Gsva.r_gsva := fun e _ _ _ _ _ r =>
    (Ok (if String.eqb (snd e) "a" then table_a else table_b), S r);
  Gsva.r_gc := fun r => r;
  Gsva.combine_gsea_results := fun disease signature _ =>
    match getitem disease "nes", getitem signature "nes" with
    | Ok x, Ok y => Ok {| index := index disease ++ index signature;
                          cols := [("score", x ++ y)] |}
    | _, _ => Raise KeyError
    end;
  Gsva.series_mean := fun l => f_of_Z (Z.of_nat (List.length l))
|}.

Definition disease_a : Gsva.Expression := (false, "a").
Definition compound_b : Gsva.Expression := (false, "b").
Definition profile_a : Gsva.Expression := (true, "a").

Definition key_a : Gsva.Key := ("a", "gsva", "c2.cp.kegg").

(** The state of a process whose cache has just been created. *)
Definition fresh_state : Gsva.state :=
  Gsva.mkState (Some ∅) 0 [] 0%nat.

(** A state whose cache holds a result for [key_a]. *)
Definition cached_state : Gsva.state :=
  Gsva.mkState (Some {[ key_a := 0%nat ]}) 1 [table_a] 1%nat.

(** [create_gsva_scorer()] with its defaults, for two values of
    [permutations]. *)
Definition default_config : Gsva.scorer_config :=
  Gsva.mkConfig "c2.cp.kegg" (f_of_Z 1) "fill_0" "gsva" false None true.
Definition permuting_config : Gsva.scorer_config :=
  Gsva.mkConfig "c2.cp.kegg" (f_of_Z 1) "fill_0" "gsva" false (Some 1000%Z) true.

(** ** Samples *)

Definition sample_type_of_code (code : string) : string :=
  match code with
  | String "0"%char _ => "tumor"
  | String "1"%char _ => "normal"
  | String "2"%char _ => "control"
  | _ => ""
  end.

(** Barcodes such as [TCGA-A1-A0SB-01A]: the participant is the third
    field, the two digits after it give the sample type.  Sets of barcodes
    are iterated in reverse, sets of labels in order of first insertion. *)
#[local] Instance tcga_env : Tcga.Env := {|
  Tcga.parse_barcode := fun name =>
    {| Tcga.barcode := name;
       Tcga.participant := String.substring 8 4 name;
       Tcga.sample_type := sample_type_of_code (String.substring 13 2 name) |};
  Tcga.sample_types := ["tumor"; "normal"; "control"];
  Tcga.barcode_set := @rev Tcga.TCGABarcode;
  Tcga.label_set := remove_dups;
  Tcga.signal_to_noise_vectorized := fun case control =>
    Ok {| Tcga.s_index := map Tcga.Str (index case);
          Tcga.s_values := map (fun _ => nan) (index case) |};
  Tcga.concat_drop_duplicates := fun control additional =>
    {| index := index control; cols := cols control ++ cols additional |}
|}.

(** Participant A0SB has two tumor samples and a normal one, A0SD has one
    of each, A0SE a tumor sample only. *)
Definition expression : Tcga.ExpressionManager :=
  {| index := ["TP53"; "BRCA1"];
     cols := [("TCGA-A1-A0SB-01A", [f_of_Z 1; f_of_Z 2]);
              ("TCGA-A1-A0SD-11A", [f_of_Z 3; f_of_Z 4]);
              ("TCGA-A1-A0SB-11A", [f_of_Z 5; f_of_Z 6]);
              ("TCGA-A1-A0SE-01A", [f_of_Z 7; f_of_Z 8]);
              ("TCGA-A1-A0SB-02A", [f_of_Z 9; f_of_Z 10]);
              ("TCGA-A1-A0SD-01A", [f_of_Z 11; f_of_Z 12])] |}.

(** The same samples without any gene. *)
Definition expression_without_genes : Tcga.ExpressionManager :=
  {| index := []; cols := map (fun c => (fst c, [])) (cols expression) |}.

(** Tumor samples only: nobody is paired. *)
Definition tumors_only : Tcga.ExpressionManager :=
  {| index := ["TP53"];
     cols := [("TCGA-A1-A0SB-01A", [f_of_Z 1]);
              ("TCGA-A1-A0SE-01A", [f_of_Z 7])] |}.

(** The two halves that [split] makes of [expression]. *)
Definition expression_cases : Tcga.ExpressionManager :=
  {| index := ["TP53"; "BRCA1"];
     cols := [("TCGA-A1-A0SB-01A", [f_of_Z 1; f_of_Z 2]);
              ("TCGA-A1-A0SB-02A", [f_of_Z 9; f_of_Z 10]);
              ("TCGA-A1-A0SD-01A", [f_of_Z 11; f_of_Z 12])] |}.
Definition expression_controls : Tcga.ExpressionManager :=
  {| index := ["TP53"; "BRCA1"];
     cols := [("TCGA-A1-A0SB-11A", [f_of_Z 5; f_of_Z 6]);
              ("TCGA-A1-A0SD-11A", [f_of_Z 3; f_of_Z 4])] |}.

(** ** Layers *)

Definition mutations : DataFrame :=
  {| index := ["A0SB"; "A0SD"];
     cols := [("TP53", [f_of_Z 1; f_of_Z 0]);
              ("UNKNOWN", [f_of_Z 2; f_of_Z 4])] |}.

(** One frame object in the store, held under two keys. *)
Definition shared_data : gmap string loc :=
  {[ "expression" := 0%nat; "mutation" := 0%nat ]}.

(** The same frame, twice, as two objects. *)
Definition separate_data : gmap string loc :=
  {[ "expression" := 0%nat; "mutation" := 1%nat ]}.

Definition add_prefix : Label → Label := String.append "TCGA-".

(** Protein lengths: TP53 has 393 residues, the average is 400, any other
    name is not found. *)
#[local] Instance sequences : Layers.ProteinSequences := {|
  Layers.average_length := fun protein =>
    match protein with
    | None => Ok (f_of_Z 400)
    | Some "TP53" => Ok (f_of_Z 393)
    | Some _ => Raise KeyError
    end
|}.

(** A frame in which two columns carry the same label, one of them
    constant. *)
Definition duplicated_features : DataFrame :=
  {| index := ["A0SB"; "A0SD"];
     cols := [("TP53", [f_of_Z 1; f_of_Z 0]);
              ("TP53", [f_of_Z 2; f_of_Z 2])] |}.

(** A frame with the row labels of [mutations] the other way round, and a
    third one. *)
Definition other_layer : DataFrame :=
  {| index := ["A0SD"; "A0SE"; "A0SB"];
     cols := [("BRCA1", [f_of_Z 7; f_of_Z 8; f_of_Z 9])] |}.

(** Protein sequences without any sequence: the mean of no length raises
    [StatisticsError], and no name is found. *)
Definition no_sequences : Layers.ProteinSequences := {|
  Layers.average_length := fun protein =>
    match protein with
    | None => Raise StatisticsError
    | Some _ => Raise KeyError
    end
|}.

(** ** Downloads *)

(** Pages of two rows, the third one short. *)
Definition firebrowse_page (page_nr : nat) : DataFrame :=
  match page_nr with
  | 1%nat => {| index := ["0"; "1"]; cols := [("gene", [f_of_Z 1; f_of_Z 2])] |}
  | 2%nat => {| index := ["0"; "1"]; cols := [("V1", [f_of_Z 3; f_of_Z 4])] |}
  | _ => {| index := ["0"]; cols := [("V1", [f_of_Z 5])] |}
  end.

(** The keys of [paths]: two files of participant A0SB, one of A0SD. *)
Definition mutation_files : list Tcga.TCGABarcode :=
  [Tcga.mkBarcode "TCGA-A1-A0SB-01" "A0SB" "tumor";
   Tcga.mkBarcode "TCGA-A1-A0SD-01" "A0SD" "tumor";
   Tcga.mkBarcode "TCGA-A2-A0SB-01" "A0SB" "tumor"].

(** A directory with the expression files of two cohorts. *)
Definition expression_files (pattern : string) : list string :=
  [Tcga.format_path "/data/tcga" "BRCA"; Tcga.format_path "/data/tcga" "LUAD"].

(** ** Duplicated column labels *)

(** One participant whose tumor sample is carried by two columns. *)
Definition duplicated_samples : Tcga.ExpressionManager :=
  {| index := ["TP53"];
     cols := [("TCGA-A1-A0SB-01A", [f_of_Z 1]);
              ("TCGA-A1-A0SB-01A", [f_of_Z 2]);
              ("TCGA-A1-A0SB-11A", [f_of_Z 3])] |}.

(** A list of barcode objects without the later copies of a barcode. *)
Fixpoint distinct_barcodes (l : list Tcga.TCGABarcode)
  : list Tcga.TCGABarcode :=
  match l with
  | [] => []
  | b :: l' =>
      b :: List.filter
             (fun b' => negb (String.eqb (Tcga.barcode b') (Tcga.barcode b)))
             (distinct_barcodes l')
  end.

(** The same barcodes as [tcga_env], with sets in which two objects of the
    same barcode are one element. *)
Definition tcga_env_by_value : Tcga.Env := {|
  Tcga.parse_barcode := Tcga.parse_barcode (Env := tcga_env);
  Tcga.sample_types := Tcga.sample_types (Env := tcga_env);
  Tcga.barcode_set := distinct_barcodes;
  Tcga.label_set := remove_dups;
  Tcga.signal_to_noise_vectorized :=
    Tcga.signal_to_noise_vectorized (Env := tcga_env);
  Tcga.concat_drop_duplicates := Tcga.concat_drop_duplicates (Env := tcga_env)
|}.

End Examples.

(* ===================================================================== *)
(** * Lemmas on frames                                                    *)
(* ===================================================================== *)

Module PandasProps.

Lemma existsb_eqb_elem (x : string) (l : list string) :
  existsb (String.eqb x) l = true ↔ x ∈ l.
Proof.
  rewrite existsb_exists, list_elem_of_In. split.
  - intros (y & Hy & Heq). apply String.eqb_eq in Heq. by subst.
  - intros Hx. exists x. split; [done | apply String.eqb_refl].
Qed.

Lemma existsb_eqb_not_elem (x : string) (l : list string) :
  x ∉ l → existsb (String.eqb x) l = false.
Proof.
  intros Hx. apply not_true_is_false. by rewrite existsb_eqb_elem.
Qed.

Lemma select_mask_subseteq {A} (mask : list bool) (l : list A) :
  select_mask mask l ⊆ l.
Proof.
  revert l. induction mask as [|b mask IH]; intros [|x l]; cbn; try set_solver.
  destruct b; specialize (IH l); set_solver.
Qed.

(** Dropping by label the rows that a mask selects is keeping the rows that
    the mask does not select, in a frame whose row labels are distinct. *)
Lemma drop_selected_labels (labels : list Label) (mask : list bool) :
  NoDup labels →
  List.length mask = List.length labels →
  map (fun l => negb (existsb (String.eqb l) (select_mask mask labels))) labels
  = map negb mask.
Proof.
  intros Hnd. revert mask.
  induction Hnd as [|l labels Hl Hnd IH]; intros [|b mask] Hlen;
    try done; cbn in Hlen.
  cbn [map]. f_equal.
  - destruct b; cbn.
    + by rewrite String.eqb_refl.
    + rewrite existsb_eqb_not_elem; [done|].
      intros Hin. apply Hl. by eapply select_mask_subseteq.
  - rewrite <- (IH mask) by lia.
    apply map_ext_in. intros l' Hl'. f_equal.
    cbn. destruct b; [|done]. cbn.
    destruct (String.eqb_spec l' l) as [->|]; [|done].
    apply list_elem_of_In in Hl'. done.
Qed.

Lemma getitem_length (df : DataFrame) (name : string) (column : list float) n :
  Forall (fun c => List.length (snd c) = n) (cols df) →
  getitem df name = Ok column →
  List.length column = n.
Proof.
  unfold getitem, cols_named. intros Hwf.
  destruct (filter _ _) as [|c rest] eqn:Hf; [done|].
  intros [= <-].
  assert (Hc : c ∈ filter (λ c, (fst c =? name)%string) (cols df))
    by (rewrite Hf; left).
  apply list_elem_of_filter in Hc as [_ Hc].
  by eapply (proj1 (Forall_forall _ _) Hwf).
Qed.

Lemma filter_none {A} (P : A → Prop) `{∀ x, Decision (P x)} (l : list A) :
  (∀ x, x ∈ l → ¬ P x) → filter P l = [].
Proof.
  induction l as [|x l IH]; intros Hl; [done|].
  rewrite filter_cons_False by (apply Hl; left).
  apply IH. intros y Hy. apply Hl. by right.
Qed.

Lemma cols_named_elem (df : DataFrame) (name : string) (c : Column) :
  c ∈ cols_named df name ↔ c ∈ cols df ∧ fst c = name.
Proof.
  unfold cols_named. rewrite list_elem_of_filter, Is_true_true, String.eqb_eq.
  tauto.
Qed.

Lemma getitem_columns_ok (df : DataFrame) (names : list string) :
  (∀ n, n ∈ names → n ∈ columns df) →
  getitem_columns df names
  = Ok {| index := index df; cols := flat_map (cols_named df) names |}.
Proof.
  intros Hn. unfold getitem_columns.
  replace (forallb _ names) with true; [done|].
  symmetry. apply forallb_forall. intros n Hin.
  apply existsb_eqb_elem, Hn. by apply list_elem_of_In.
Qed.

Lemma filter_fst_unique (cs : list Column) (c : Column) :
  NoDup (map fst cs) → c ∈ cs →
  filter (fun c' => String.eqb (fst c') (fst c)) cs = [c].
Proof.
  induction cs as [|c' cs IH]; intros Hnd Hc.
  - by apply not_elem_of_nil in Hc.
  - cbn in Hnd. apply NoDup_cons in Hnd as [Hc' Hnd].
    apply elem_of_cons in Hc as [->|Hc].
    + rewrite filter_cons_True by (apply Is_true_true, String.eqb_refl).
      f_equal. apply filter_none. intros d Hd.
      rewrite Is_true_true, String.eqb_eq. intros Heq.
      apply Hc'. rewrite <- Heq. apply list_elem_of_In, in_map.
      by apply list_elem_of_In.
    + rewrite filter_cons_False; [by apply IH|].
      rewrite Is_true_true, String.eqb_eq. intros Heq.
      apply Hc'. rewrite Heq. apply list_elem_of_In, in_map.
      by apply list_elem_of_In.
Qed.

Lemma cols_named_unique (df : DataFrame) (c : Column) :
  NoDup (columns df) → c ∈ cols df → cols_named df (fst c) = [c].
Proof. apply filter_fst_unique. Qed.

(** Selecting, by their labels, columns of the frame itself gives these
    columns back when the labels of the frame are distinct. *)
Lemma flat_map_cols_named (df : DataFrame) (sub : list Column) :
  NoDup (columns df) →
  (∀ c, c ∈ sub → c ∈ cols df) →
  flat_map (cols_named df) (map fst sub) = sub.
Proof.
  intros Hnd. induction sub as [|c sub IH]; intros Hsub; [done|].
  cbn. rewrite cols_named_unique; [|done|apply Hsub; left].
  cbn. f_equal. apply IH. intros c' Hc'. apply Hsub. by right.
Qed.

Lemma select_mask_map_fst (f : string → bool) (cs : list Column) :
  select_mask (map f (map fst cs)) (map fst cs)
  = map fst (List.filter (fun c => f (fst c)) cs).
Proof.
  induction cs as [|c cs IH]; [done|].
  cbn. destruct (f (fst c)); cbn; by rewrite IH.
Qed.

Lemma elem_of_List_filter {A} (f : A → bool) (l : list A) (x : A) :
  x ∈ List.filter f l ↔ x ∈ l ∧ f x = true.
Proof. rewrite !list_elem_of_In. apply filter_In. Qed.

(** [df[df.columns[mask]]] for a mask computed column by column. *)
Lemma getitem_columns_select (df : DataFrame) (f : string → bool) :
  NoDup (columns df) →
  getitem_columns df (select_mask (map f (columns df)) (columns df))
  = Ok {| index := index df;
          cols := List.filter (fun c => f (fst c)) (cols df) |}.
Proof.
  intros Hnd.
  replace (select_mask (map f (columns df)) (columns df))
    with (map fst (List.filter (fun c => f (fst c)) (cols df)))
    by (symmetry; apply select_mask_map_fst).
  rewrite getitem_columns_ok.
  - rewrite flat_map_cols_named; [done | done |].
    intros c Hc. by apply elem_of_List_filter in Hc as [Hc _].
  - intros n Hin. apply list_elem_of_In, in_map_iff in Hin as (c & <- & Hc).
    apply list_elem_of_In, in_map.
    apply filter_In in Hc as [Hc _]. done.
Qed.

End PandasProps.

(* ===================================================================== *)
(** * Properties of gsva.py                                               *)
(* ===================================================================== *)

Module GsvaProps.
Import Gsva.

Section WithEngine.
Context `{Engine}.

Lemma guard_lets_through single_sample permutations :
  passes_guard single_sample permutations →
  negb single_sample && truthy permutations = false.
Proof. intros [-> | ->]; [done | by rewrite andb_false_r]. Qed.

Lemma guard_rejects permutations :
  truthy permutations = true →
  negb false && truthy permutations = true.
Proof. by intros ->. Qed.

(** A call whose key is in the cache, and which the guard lets through,
    returns the stored object and touches nothing. *)
Lemma gsva_hit expression gene_sets method single_sample permutations mx_diff
    _cache (s : state) cache result :
  passes_guard single_sample permutations →
  GSVA_CACHE s = Some cache →
  cache !! (hashable expression, method, gene_sets) = Some result →
  gsva expression gene_sets method single_sample permutations mx_diff _cache s
  = (Ok result, s).
Proof.
  intros Hg Hc Hk. unfold gsva.
  rewrite (guard_lets_through _ _ Hg), Hc. cbn zeta. by rewrite Hk.
Qed.

(** A call whose key is missing runs the engine; with [_cache=True] the new
    object is stored under the key. *)
Lemma gsva_miss expression gene_sets method single_sample permutations mx_diff
    _cache (s : state) cache table r' :
  passes_guard single_sample permutations →
  GSVA_CACHE s = Some cache →
  cache !! (hashable expression, method, gene_sets) = None →
  (single_sample = true → is_Profile expression = true) →
  r_gsva expression gene_sets method single_sample permutations mx_diff
    (r_session s) = (Ok table, r') →
  gsva expression gene_sets method single_sample permutations mx_diff _cache s
  = (Ok (List.length (heap s)),
     mkState
       (Some (if _cache
              then <[(hashable expression, method, gene_sets)
                     := List.length (heap s)]> cache
              else cache))
       (process_specific_counter s + 1)
       (heap s ++ [table])
       (if ((process_specific_counter s + 1) mod 20 =? 0)%Z
        then r_gc r' else r')).
Proof.
  intros Hg Hc Hk Hp Hr. unfold gsva.
  rewrite (guard_lets_through _ _ Hg), Hc. cbn zeta. rewrite Hk.
  destruct single_sample.
  - rewrite (Hp eq_refl). cbn. by rewrite Hr.
  - cbn. by rewrite Hr.
Qed.

(** Whatever a successful call with [_cache=True] returns is, afterwards,
    what the cache holds for the key of the call. *)
Lemma gsva_result_cached expression gene_sets method single_sample permutations
    mx_diff (s s' : state) result :
  gsva expression gene_sets method single_sample permutations mx_diff true s
  = (Ok result, s') →
  ∃ cache', GSVA_CACHE s' = Some cache' ∧
            cache' !! (hashable expression, method, gene_sets) = Some result.
Proof.
  unfold gsva.
  destruct (negb single_sample && truthy permutations); [done|].
  destruct (GSVA_CACHE s) as [cache|] eqn:Hc; [|done]. cbn zeta.
  destruct (cache !! _) as [l|] eqn:Hk.
  - intros [= -> <-]. eauto.
  - destruct (single_sample && negb (is_Profile expression)); [done|].
    destruct (r_gsva _ _ _ _ _ _ _) as [[table|e] r']; [|done].
    cbn. intros [= <- <-]. cbn. eexists; split; [done|].
    by rewrite lookup_insert_eq.
Qed.

(** A call that returns has passed the guard. *)
Lemma gsva_ok_passes_guard expression gene_sets method single_sample
    permutations mx_diff _cache (s s' : state) result :
  gsva expression gene_sets method single_sample permutations mx_diff _cache s
  = (Ok result, s') →
  passes_guard single_sample permutations.
Proof.
  unfold gsva, passes_guard.
  destruct single_sample; [by left|].
  destruct (truthy permutations); [done | by right].
Qed.

(** C5.  A call to [gsva] with [single_sample] falsy and [permutations]
    truthy raises (a [TypeError], from [raise warn(...)]) before anything
    else happens: the cache, the counter, the stored tables and the R
    session are as they were, whether or not the key is cached.  The call
    that leaves all optional arguments at their defaults
    ([single_sample=False, permutations=1000]) is such a call. *)
Theorem gsva_rejects_permutations_without_single_sample
    expression gene_sets method permutations mx_diff _cache (s : state) :
  truthy permutations = true →
  gsva expression gene_sets method false permutations mx_diff _cache s
  = (Raise TypeError, s)
  ∧ gsva_default expression gene_sets s = (Raise TypeError, s).
Proof.
  intros Hp. split.
  - unfold gsva. by rewrite (guard_rejects _ Hp).
  - reflexivity.
Qed.

(** C2 (amended).  For a call that the guard of line 35 lets through
    ([single_sample] truthy or [permutations] falsy): when the key is in
    [GSVA_CACHE] the stored object is returned and the state (cache, counter,
    tables, R session) is untouched; when the key is missing, the call is
    made with [_cache=True] and the engine returns a table, that table
    becomes a new object, it is returned, and the cache afterwards is the old
    one with the key bound to it. *)
Theorem gsva_memoizes expression gene_sets method single_sample permutations
    mx_diff (s : state) cache :
  passes_guard single_sample permutations →
  GSVA_CACHE s = Some cache →
  let key : Key := (hashable expression, method, gene_sets) in
  (∀ result _cache,
     cache !! key = Some result →
     gsva expression gene_sets method single_sample permutations mx_diff
       _cache s = (Ok result, s))
  ∧ (∀ table r',
       cache !! key = None →
       (single_sample = true → is_Profile expression = true) →
       r_gsva expression gene_sets method single_sample permutations mx_diff
         (r_session s) = (Ok table, r') →
       ∃ result s',
         gsva expression gene_sets method single_sample permutations mx_diff
           true s = (Ok result, s')
         ∧ read (heap s) result = None
         ∧ read (heap s') result = Some table
         ∧ GSVA_CACHE s' = Some (<[key := result]> cache)).
Proof.
  intros Hg Hc key. split.
  - intros result _cache Hk. by eapply gsva_hit.
  - intros table r' Hk Hp Hr.
    eexists _, _. split; [by eapply gsva_miss|]. cbn. unfold read.
    split; [by apply lookup_ge_None_2|].
    split; [|done].
    by rewrite lookup_app_r, Nat.sub_diag.
Qed.

(** C6 (amended).  The key is [(expression.hashable, method, gene_sets)]
    and nothing else, for the calls that the guard of line 35 lets through.
    Let a second call agree with a first one on [expression.hashable],
    [method] and [gene_sets] and pass the guard, whatever its
    [single_sample], [permutations], [mx_diff] and [_cache] are.  Once the
    first call, made with [_cache=True], has returned an object, the second
    call returns that very object and leaves the state alone.  In
    particular, when the key of the first call is missing, the first call
    makes a new object of the table that the engine computes from its own
    arguments, and the second call returns this object without running the
    engine for its arguments.  A call that the guard rejects raises instead,
    also when its key is cached. *)
Theorem gsva_key_ignores_other_arguments
    e1 e2 gene_sets method ss1 ss2 perms1 perms2 mx1 mx2 _cache2 :
  hashable e2 = hashable e1 →
  passes_guard ss2 perms2 →
  (∀ (s s1 : state) result,
     gsva e1 gene_sets method ss1 perms1 mx1 true s = (Ok result, s1) →
     gsva e2 gene_sets method ss2 perms2 mx2 _cache2 s1 = (Ok result, s1))
  ∧ (∀ (s : state) cache table r',
       passes_guard ss1 perms1 →
       GSVA_CACHE s = Some cache →
       cache !! (hashable e1, method, gene_sets) = None →
       (ss1 = true → is_Profile e1 = true) →
       r_gsva e1 gene_sets method ss1 perms1 mx1 (r_session s)
       = (Ok table, r') →
       ∃ result s1,
         gsva e1 gene_sets method ss1 perms1 mx1 true s = (Ok result, s1)
         ∧ read (heap s) result = None
         ∧ read (heap s1) result = Some table
         ∧ gsva e2 gene_sets method ss2 perms2 mx2 _cache2 s1
           = (Ok result, s1))
  ∧ (∀ (s : state) perms mx _cache,
       truthy perms = true →
       gsva e2 gene_sets method false perms mx _cache s = (Raise TypeError, s)).
Proof.
  intros He Hg. split_and!.
  - intros s s1 result Hfirst.
    destruct (gsva_result_cached _ _ _ _ _ _ _ _ _ Hfirst)
      as (cache' & Hc & Hk).
    eapply gsva_hit; [done | done |]. by rewrite He.
  - intros s cache table r' Hg1 Hc Hk Hp Hr.
    eexists _, _. split; [by eapply gsva_miss|]. cbn [heap]. unfold read.
    split; [by apply lookup_ge_None_2|].
    split; [by rewrite lookup_app_r, Nat.sub_diag|].
    eapply gsva_hit; [done | done |]. rewrite He. apply lookup_insert_eq.
  - intros s perms mx _cache Hp. unfold gsva. by rewrite (guard_rejects _ Hp).
Qed.

(** The in-place removal computes what the specification describes, on a
    well-formed table whose gene-set names are distinct. *)
Lemma drop_above_cutoff_spec cutoff (l : loc) (s : state) table :
  read (heap s) l = Some table →
  well_formed table →
  NoDup (index table) →
  drop_above_cutoff cutoff l s
  = match remaining_gene_sets cutoff table with
    | Ok remaining => (Ok tt, set_heap (write (heap s) l remaining) s)
    | Raise e => (Raise e, s)
    end.
Proof.
  intros Hread Hwf Hnd. unfold drop_above_cutoff, remaining_gene_sets.
  rewrite Hread. cbn.
  destruct (getitem table "fdr_q-val") as [fdr|e] eqn:Hfdr; [|done].
  cbn. do 3 f_equal. unfold drop_rows, masked_index. f_equal.
  rewrite PandasProps.drop_selected_labels, map_map; [done | done |].
  rewrite length_map. by eapply PandasProps.getitem_length.
Qed.

(** C4 (amended).  Take a scorer whose configuration passes the guard of
    [gsva] ([single_sample] truthy or [permutations] falsy), and a disease
    and a compound profile that have different keys, neither of them in
    [GSVA_CACHE], for which the engine returns the tables [td] and [tc]
    ([td] well formed, with distinct gene-set names).  Then the scoring
    function returns what the specification describes: the rows of [td]
    whose 'fdr_q-val' exceeds [q_value_cutoff] are removed, the rest is
    combined with [tc], and the mean of the 'score' column of the
    combination is the result. *)
Theorem gsva_score_computes_mean_of_combined_scores
    cfg disease compound (s : state) td tc r1 r2 :
  passes_guard (cfg_single_sample cfg) (cfg_permutations cfg) →
  (cfg_single_sample cfg = true →
   is_Profile disease = true ∧ is_Profile compound = true) →
  default ∅ (GSVA_CACHE s) !! key_of cfg disease = None →
  default ∅ (GSVA_CACHE s) !! key_of cfg compound = None →
  hashable disease ≠ hashable compound →
  r_gsva disease (cfg_gene_sets cfg) (cfg_method cfg) (cfg_single_sample cfg)
    (cfg_permutations cfg) (cfg_mx_diff cfg) (r_session s) = (Ok td, r1) →
  r_gsva compound (cfg_gene_sets cfg) (cfg_method cfg) (cfg_single_sample cfg)
    (cfg_permutations cfg) (cfg_mx_diff cfg)
    (collected (process_specific_counter s + 1) r1) = (Ok tc, r2) →
  well_formed td →
  NoDup (index td) →
  ∃ s', gsva_score cfg disease compound s = (gsva_score_spec cfg td tc, s').
Proof.
  intros Hg Hp Hkd Hkc Hne Hrd Hrc Hwf Hnd.
  set (cache := default ∅ (GSVA_CACHE s)) in *.
  set (s0 := set_cache (Some cache) s).
  assert (Hrespawn : respawn_cache_if_needed s = (Ok tt, s0)).
  { unfold respawn_cache_if_needed, s0, cache.
    destruct s as [[c|] n h r]; cbn; done. }
  unfold gsva_score, bind. rewrite Hrespawn.
  erewrite (gsva_miss disease _ _ _ _ _ true s0 cache td r1);
    [| done | done | done | intros Hs; by apply Hp | done].
  cbn [heap s0 set_cache process_specific_counter r_session].
  set (ld := List.length (heap s)).
  set (s1 := mkState _ _ _ _).
  assert (Hld : read (heap s1) ld = Some td).
  { cbn. unfold read, ld. by rewrite lookup_app_r, Nat.sub_diag. }
  rewrite (drop_above_cutoff_spec _ _ _ _ Hld Hwf Hnd).
  unfold gsva_score_spec.
  destruct (remaining_gene_sets (q_value_cutoff cfg) td) as [remaining|e];
    [|by eexists].
  set (s2 := set_heap _ s1). cbn [res_bind].
  erewrite (gsva_miss compound _ _ _ _ _ false s2
              (<[key_of cfg disease := ld]> cache) tc r2);
    [| done | done | | intros Hs; by apply Hp | done]; cycle 1.
  { rewrite lookup_insert_ne; [done|]. unfold key_of. congruence. }
  cbn [heap s2 s1 set_heap].
  assert (Hlen : List.length (write (heap s ++ [td]) ld remaining)
                 = S (List.length (heap s))).
  { unfold write. rewrite length_insert, length_app. cbn. lia. }
  unfold deref at 1. cbn [heap]. unfold read at 1.
  rewrite lookup_app_l by (rewrite Hlen; unfold ld; lia).
  unfold write. rewrite list_lookup_insert_eq
    by (rewrite length_app; cbn; unfold ld; lia).
  unfold deref. cbn [heap]. unfold read.
  rewrite lookup_app_r, Nat.sub_diag by done. cbn [lookup list_lookup].
  unfold lift.
  destruct (combine_gsea_results remaining tc (na_action cfg)) as [joined|e];
    cbn [res_bind]; [|by eexists].
  destruct (score_column joined) as [score|e]; cbn [res_bind]; by eexists.
Qed.

End WithEngine.

(** Witnesses and counterexamples on the stand-in engine. *)
#[local] Existing Instance Examples.engine.

Lemma gsva_rejects_permutations_without_single_sample_witness :
  gsva Examples.disease_a "c2.cp.kegg" "gsva" false (Some 1000%Z) true true
    Examples.cached_state
  = (Raise TypeError, Examples.cached_state)
  ∧ gsva_default Examples.disease_a "c2.cp.kegg" Examples.cached_state
    = (Raise TypeError, Examples.cached_state).
Proof.
  apply (gsva_rejects_permutations_without_single_sample
           (H := Examples.engine)).
  reflexivity.
Defined.

(** C2 as stated fails: the key of the default call is in the cache, and the
    call raises instead of returning the stored object. *)
Lemma gsva_default_call_ignores_cache :
  (∃ cache, GSVA_CACHE Examples.cached_state = Some cache
            ∧ cache !! Examples.key_a = Some 0%nat)
  ∧ gsva_default Examples.disease_a "c2.cp.kegg" Examples.cached_state
    ≠ (Ok 0%nat, Examples.cached_state).
Proof.
  split.
  - eexists. split; [reflexivity|]. apply lookup_singleton_eq.
  - discriminate.
Qed.

Lemma gsva_memoizes_witness :
  let key : Key := Examples.key_a in
  (∀ result _cache,
     ({[ Examples.key_a := 0%nat ]} : gmap Key loc) !! key = Some result →
     gsva Examples.profile_a "c2.cp.kegg" "gsva" true (Some 1000%Z) true
       _cache Examples.cached_state = (Ok result, Examples.cached_state))
  ∧ (∀ table r',
       ({[ Examples.key_a := 0%nat ]} : gmap Key loc) !! key = None →
       (true = true → is_Profile Examples.profile_a = true) →
       r_gsva Examples.profile_a "c2.cp.kegg" "gsva" true (Some 1000%Z) true
         (r_session Examples.cached_state) = (Ok table, r') →
       ∃ result s',
         gsva Examples.profile_a "c2.cp.kegg" "gsva" true (Some 1000%Z) true
           true Examples.cached_state = (Ok result, s')
         ∧ read (heap Examples.cached_state) result = None
         ∧ read (heap s') result = Some table
         ∧ GSVA_CACHE s'
           = Some (<[key := result]> {[ Examples.key_a := 0%nat ]})).
Proof.
  apply (gsva_memoizes (H := Examples.engine) Examples.profile_a
           "c2.cp.kegg" "gsva" true (Some 1000%Z) true Examples.cached_state
           {[ Examples.key_a := 0%nat ]}).
  - by left.
  - reflexivity.
Defined.

(** The first call is a group call without permutations, the second a
    single-sample call with 1000 permutations and [mx_diff=False]. *)
Lemma gsva_key_ignores_other_arguments_witness :
  let s1 := snd (gsva Examples.disease_a "c2.cp.kegg" "gsva" false None true
                   true Examples.fresh_state) in
  read (heap s1) 0%nat = Some Examples.table_a
  ∧ gsva Examples.profile_a "c2.cp.kegg" "gsva" true (Some 1000%Z) false true
      s1
    = (Ok 0%nat, s1).
Proof.
  destruct (gsva_key_ignores_other_arguments (H := Examples.engine)
              Examples.disease_a Examples.profile_a "c2.cp.kegg" "gsva"
              false true None (Some 1000%Z) true false true)
    as (Hsame & _ & _).
  - reflexivity.
  - by left.
  - split; [reflexivity|]. apply (Hsame Examples.fresh_state). reflexivity.
Defined.

(** C6 as stated fails: two calls with [_cache=True] that agree on
    [expression.hashable], [method] and [gene_sets] and differ only in
    [permutations]; the first one returns an object and stores it under the
    key, the second one raises at the guard instead of returning it. *)
Lemma gsva_second_call_with_cached_key_raises :
  let first :=
    gsva Examples.disease_a "c2.cp.kegg" "gsva" false None true true
      Examples.fresh_state in
  let second :=
    gsva Examples.disease_a "c2.cp.kegg" "gsva" false (Some 1000%Z) true true
      (snd first) in
  fst first = Ok 0%nat
  ∧ (∃ cache, GSVA_CACHE (snd first) = Some cache
              ∧ cache !! Examples.key_a = Some 0%nat)
  ∧ fst second = Raise TypeError
  ∧ fst second ≠ fst first.
Proof.
  split_and!.
  - reflexivity.
  - eexists. split; [reflexivity|]. apply lookup_insert_eq.
  - reflexivity.
  - discriminate.
Qed.

Lemma gsva_score_computes_mean_of_combined_scores_witness :
  ∃ s', gsva_score Examples.default_config Examples.disease_a
          Examples.compound_b Examples.fresh_state
        = (gsva_score_spec Examples.default_config Examples.table_a
             Examples.table_b, s').
Proof.
  apply (gsva_score_computes_mean_of_combined_scores (H := Examples.engine)
           Examples.default_config Examples.disease_a Examples.compound_b
           Examples.fresh_state Examples.table_a Examples.table_b 1%nat 2%nat).
  - by right.
  - discriminate.
  - reflexivity.
  - reflexivity.
  - discriminate.
  - reflexivity.
  - reflexivity.
  - repeat constructor.
  - repeat (apply NoDup_cons_2; [set_solver|]). apply NoDup_nil_2.
Defined.

(** C4 as stated fails: a scorer made with [permutations=1000] (and
    [single_sample] left at [False]) raises on every pair of profiles,
    although both tables exist and their combination has a mean score. *)
Lemma gsva_scorer_with_permutations_raises :
  fst (gsva_score Examples.permuting_config Examples.disease_a
         Examples.compound_b Examples.fresh_state) = Raise TypeError
  ∧ is_ok (gsva_score_spec Examples.permuting_config Examples.table_a
             Examples.table_b) = true.
Proof. split; reflexivity. Qed.

(** Why the two profiles must have different keys: the second call of
    [gsva] then returns the cached object, which is the disease table that
    has just been filtered in place. *)
Lemma gsva_score_same_key_shares_filtered_table :
  fst (gsva_score Examples.default_config Examples.disease_a
         Examples.disease_a Examples.fresh_state)
  = Ok (Examples.f_of_Z 4)
  ∧ gsva_score_spec Examples.default_config Examples.table_a Examples.table_a
    = Ok (Examples.f_of_Z 5).
Proof. split; reflexivity. Qed.

End GsvaProps.

(* ===================================================================== *)
(** * Properties of the pairing code                                      *)
(* ===================================================================== *)

Module TcgaProps.
Import Tcga PandasProps.

Section WithEnv.
Context `{Env}.

Lemma eqb_Is_true (x y : string) : Is_true (String.eqb x y) ↔ x = y.
Proof. rewrite Is_true_true. apply String.eqb_eq. Qed.

Lemma nonempty_true {A} (l : list A) : nonempty l = true ↔ l ≠ [].
Proof. by destruct l. Qed.

Lemma nonempty_elem {A} (l : list A) : nonempty l = true ↔ ∃ x, x ∈ l.
Proof.
  destruct l as [|x l]; cbn; split; try done.
  - intros [x Hx]. by apply not_elem_of_nil in Hx.
  - intros _. exists x. left.
Qed.

(** ** [samples_by_participant] groups the samples by participant *)

Lemma filter_participant_snoc (p : string) (seen : list TCGABarcode) b :
  filter (fun b => String.eqb (participant b) p) (seen ++ [b])
  = filter (fun b => String.eqb (participant b) p) seen
    ++ (if String.eqb (participant b) p then [b] else []).
Proof.
  rewrite filter_app. f_equal.
  destruct (String.eqb_spec (participant b) p) as [Heq|Hne].
  - rewrite filter_cons_True; [done|]. by apply eqb_Is_true.
  - rewrite filter_cons_False; [done|]. by rewrite eqb_Is_true.
Qed.

Lemma groups_of_snoc_other (seen : list TCGABarcode) b (ks : list string) :
  participant b ∉ ks →
  groups_of (seen ++ [b]) ks = groups_of seen ks.
Proof.
  intros Hb. unfold groups_of. apply map_ext_in. intros p Hp.
  rewrite filter_participant_snoc.
  destruct (String.eqb_spec (participant b) p) as [Heq|Hne].
  - subst. by apply list_elem_of_In in Hp.
  - by rewrite app_nil_r.
Qed.

(** Appending a sample to the defaultdict: its participant's group grows,
    or a new group is opened at the end. *)
Lemma defaultdict_append_groups (seen : list TCGABarcode) b (ks : list string) :
  NoDup ks →
  (participant b ∉ ks → ∀ b', b' ∈ seen → participant b' ≠ participant b) →
  defaultdict_append (participant b) b (groups_of seen ks)
  = groups_of (seen ++ [b])
      (if existsb (String.eqb (participant b)) ks then ks
       else ks ++ [participant b]).
Proof.
  induction 1 as [|p ks Hp Hnd IH]; intros Hfresh.
  - cbn. rewrite filter_participant_snoc, String.eqb_refl.
    rewrite filter_none; [done|].
    intros b' Hb'. rewrite eqb_Is_true.
    apply Hfresh; [apply not_elem_of_nil | done].
  - cbn [groups_of map defaultdict_append existsb].
    rewrite (String.eqb_sym (participant b) p).
    destruct (String.eqb_spec p (participant b)) as [Heq|Hne]; cbn [orb].
    + cbn [map]. rewrite filter_participant_snoc, <- Heq, String.eqb_refl.
      f_equal. symmetry. apply groups_of_snoc_other. by rewrite <- Heq.
    + fold (groups_of seen ks). rewrite IH; cycle 1.
      { intros Hk. apply Hfresh. rewrite not_elem_of_cons. split; [done|done]. }
      destruct (existsb _ ks); cbn [map app];
        rewrite filter_participant_snoc;
        (destruct (String.eqb_spec (participant b) p); [congruence|]);
        by rewrite app_nil_r.
Qed.

(** The participants in the order in which the defaultdict meets them. *)
Lemma fold_defaultdict_append (samples seen : list TCGABarcode)
    (ks : list string) :
  NoDup ks →
  (∀ p, p ∈ ks ↔ ∃ b, b ∈ seen ∧ participant b = p) →
  ∃ ks',
    NoDup ks'
    ∧ (∀ p, p ∈ ks' ↔ ∃ b, b ∈ seen ++ samples ∧ participant b = p)
    ∧ fold_left (fun d b => defaultdict_append (participant b) b d)
        samples (groups_of seen ks)
      = groups_of (seen ++ samples) ks'.
Proof.
  revert seen ks. induction samples as [|b samples IH]; intros seen ks Hnd Hks.
  - exists ks. by rewrite app_nil_r.
  - cbn [fold_left]. rewrite defaultdict_append_groups; [|done|]; cycle 1.
    { intros Hb b' Hb' Heq. apply Hb, Hks. eauto. }
    destruct (IH (seen ++ [b])
                (if existsb (String.eqb (participant b)) ks then ks
                 else ks ++ [participant b])) as (ks' & Hnd' & Hks' & Hfold).
    + destruct (existsb _ ks) eqn:Hex; [done|].
      apply NoDup_app. split_and!; [done | | apply NoDup_singleton].
      intros p Hp ->%list_elem_of_singleton.
      apply existsb_eqb_elem in Hp. congruence.
    + intros p. destruct (existsb _ ks) eqn:Hex.
      * apply existsb_eqb_elem in Hex. rewrite Hks. split.
        -- intros (b' & Hb' & <-). exists b'. split; [set_solver|done].
        -- intros (b' & Hb' & <-).
           apply elem_of_app in Hb' as [Hb' | ->%list_elem_of_singleton].
           ++ eauto.
           ++ by apply Hks.
      * rewrite elem_of_app, list_elem_of_singleton, Hks. split.
        -- intros [(b' & Hb' & <-) | ->].
           ++ exists b'. split; [set_solver|done].
           ++ exists b. split; [set_solver|done].
        -- intros (b' & Hb' & <-).
           apply elem_of_app in Hb' as [Hb' | ->%list_elem_of_singleton];
             [left; eauto | by right].
    + exists ks'. rewrite <- app_assoc in Hks', Hfold. done.
Qed.

(** [samples_by_participant] has one group per participant, in some order
    without repetition, and the group of a participant is the list of its
    samples, in column order. *)
Lemma samples_by_participant_groups (self : ExpressionManager) :
  ∃ participants,
    NoDup participants
    ∧ (∀ p, p ∈ participants ↔ ∃ b, b ∈ barcodes self ∧ participant b = p)
    ∧ samples_by_participant self
      = map (fun p => (p, samples_of self p)) participants.
Proof.
  destruct (fold_defaultdict_append (barcodes self) [] [])
    as (ks & Hnd & Hks & Hfold).
  - apply NoDup_nil_2.
  - intros p. split; [by intros ?%not_elem_of_nil|].
    by intros (b & ?%not_elem_of_nil & _).
  - exists ks. split_and!; [done | done |]. apply Hfold.
Qed.

(** ** One participant *)

Lemma dict_get_by_type (samples : list TCGABarcode) (t : string) :
  t ∈ sample_types →
  dict_get t (by_type samples) = Ok (barcode_set (of_type t samples)).
Proof.
  unfold by_type. induction sample_types as [|t' ts IH]; intros Ht.
  - by apply not_elem_of_nil in Ht.
  - cbn. destruct (String.eqb_spec t' t) as [->|Hne]; [done|].
    apply IH. apply elem_of_cons in Ht as [->|Ht]; done.
Qed.

Lemma barcode_set_nonempty (l : list TCGABarcode) :
  faithful → nonempty (barcode_set l) = nonempty l.
Proof.
  intros Hf. apply eq_true_iff_eq. rewrite !nonempty_elem.
  split; intros [x Hx]; exists x; by apply (barcode_set_elem Hf).
Qed.

Lemma res_mapM_ok {A B} (f : A → res B) (g : A → B) (l : list A) :
  (∀ x, x ∈ l → f x = Ok (g x)) → res_mapM f l = Ok (map g l).
Proof.
  induction l as [|x l IH]; intros Hl; [done|].
  cbn. rewrite Hl by left. rewrite IH; [done|].
  intros y Hy. apply Hl. by right.
Qed.

Lemma paired_samples_plain type_one type_two (samples : list TCGABarcode) :
  faithful →
  type_one ∈ sample_types → type_two ∈ sample_types →
  paired_samples type_one type_two None None samples
  = Ok (whole_group type_one type_two samples).
Proof.
  intros Hf H1 H2. unfold paired_samples, whole_group.
  rewrite (dict_get_by_type _ _ H1). cbn [res_bind].
  rewrite (barcode_set_nonempty _ Hf).
  destruct (nonempty (of_type type_one samples)); [|done]. cbn [negb andb].
  rewrite (dict_get_by_type _ _ H2). cbn [res_bind].
  rewrite (barcode_set_nonempty _ Hf).
  by destruct (nonempty (of_type type_two samples)).
Qed.

(** ** All participants *)

Lemma barcodes_elem (self : ExpressionManager) b :
  b ∈ barcodes self ↔ ∃ c, c ∈ columns self ∧ b = parse_barcode c.
Proof.
  unfold barcodes. rewrite list_elem_of_In, in_map_iff.
  split; intros (c & Hc1 & Hc2); exists c.
  - by rewrite list_elem_of_In.
  - by rewrite <- list_elem_of_In.
Qed.

Lemma samples_of_elem (self : ExpressionManager) p b :
  b ∈ samples_of self p ↔ b ∈ barcodes self ∧ participant b = p.
Proof.
  unfold samples_of. rewrite list_elem_of_filter, eqb_Is_true. tauto.
Qed.

Lemma paired_plain (self : ExpressionManager) type_one type_two :
  faithful →
  type_one ∈ sample_types → type_two ∈ sample_types →
  paired self type_one type_two None None
  = getitem_columns self (paired_labels self type_one type_two).
Proof.
  intros Hf H1 H2. unfold paired, paired_labels. cbn [str_truthy andb].
  rewrite (res_mapM_ok _ (whole_group type_one type_two)); [done|].
  intros g _. by apply paired_samples_plain.
Qed.

(** The labels asked for are the columns of the participants that have
    both types. *)
Lemma paired_labels_elem (self : ExpressionManager) type_one type_two n :
  faithful →
  n ∈ paired_labels self type_one type_two
  ↔ n ∈ columns self ∧ is_paired self type_one type_two n = true.
Proof.
  intros Hf. unfold paired_labels.
  destruct (samples_by_participant_groups self) as (ks & Hnd & Hks & ->).
  rewrite !map_map. cbn [snd].
  rewrite list_elem_of_In, in_map_iff. split.
  - intros (b & <- & Hb). apply in_concat in Hb as (g & Hg & Hb).
    apply in_map_iff in Hg as (p & <- & Hp).
    unfold whole_group in Hb.
    destruct (nonempty (of_type type_one (samples_of self p))
              && nonempty (of_type type_two (samples_of self p))) eqn:Hboth;
      [|done].
    apply list_elem_of_In, samples_of_elem in Hb as [Hb Hpb].
    apply barcodes_elem in Hb as (c & Hc & ->).
    rewrite (barcode_of_column Hf). split; [done|].
    unfold is_paired, has_sample. by rewrite Hpb.
  - intros [Hn Hpaired]. exists (parse_barcode n).
    split; [apply (barcode_of_column Hf)|].
    apply in_concat. exists (samples_of self (participant (parse_barcode n))).
    assert (Hb : parse_barcode n ∈ barcodes self)
      by (apply barcodes_elem; eauto).
    split.
    + apply in_map_iff. exists (participant (parse_barcode n)).
      unfold whole_group. unfold is_paired, has_sample in Hpaired.
      rewrite Hpaired. split; [done|].
      apply list_elem_of_In, Hks. eauto.
    + apply list_elem_of_In, samples_of_elem. done.
Qed.

Lemma paired_plain_ok (self : ExpressionManager) type_one type_two :
  faithful →
  type_one ∈ sample_types → type_two ∈ sample_types →
  paired self type_one type_two None None
  = Ok {| index := index self;
          cols := flat_map (cols_named self)
                    (paired_labels self type_one type_two) |}.
Proof.
  intros Hf H1 H2. rewrite (paired_plain _ _ _ Hf H1 H2).
  apply getitem_columns_ok.
  intros n Hn. by apply (paired_labels_elem _ _ _ _ Hf) in Hn as [? _].
Qed.

Lemma paired_cols_elem (self : ExpressionManager) type_one type_two column :
  faithful →
  column ∈ flat_map (cols_named self) (paired_labels self type_one type_two)
  ↔ column ∈ cols self
    ∧ is_paired self type_one type_two (fst column) = true.
Proof.
  intros Hf. rewrite list_elem_of_In, in_flat_map. split.
  - intros (n & Hn & Hc).
    apply list_elem_of_In, cols_named_elem in Hc as [Hc <-].
    apply list_elem_of_In, (paired_labels_elem _ _ _ _ Hf) in Hn as [_ Hn].
    done.
  - intros [Hc Hp]. exists (fst column). split.
    + apply list_elem_of_In, (paired_labels_elem _ _ _ _ Hf). split; [|done].
      apply list_elem_of_In, in_map. by apply list_elem_of_In.
    + apply list_elem_of_In, cols_named_elem. done.
Qed.

(** ** Frames whose column labels are distinct *)

Lemma NoDup_map_inj_on {A B} (f : A → B) (l : list A) :
  (∀ x y, x ∈ l → y ∈ l → f x = f y → x = y) →
  NoDup l → NoDup (map f l).
Proof.
  intros Hinj. induction 1 as [|x l Hx Hnd IH]; cbn.
  - apply NoDup_nil_2.
  - apply NoDup_cons_2.
    + intros Hin. apply list_elem_of_In, in_map_iff in Hin as (y & Hy & Hin).
      apply list_elem_of_In in Hin.
      assert (y = x) as -> by (apply Hinj; [by right | left | done]).
      done.
    + apply IH. intros y z Hy Hz. apply Hinj; by right.
Qed.

Lemma barcode_injective (self : ExpressionManager) b b' :
  faithful →
  b ∈ barcodes self → b' ∈ barcodes self → barcode b = barcode b' → b = b'.
Proof.
  intros Hf (c & _ & ->)%barcodes_elem (c' & _ & ->)%barcodes_elem.
  rewrite !(barcode_of_column Hf). by intros ->.
Qed.

Lemma barcodes_NoDup (self : ExpressionManager) :
  faithful → NoDup (columns self) → NoDup (barcodes self).
Proof.
  intros Hf. apply NoDup_map_inj_on. intros c c' _ _ Heq.
  by rewrite <- (barcode_of_column Hf c), <- (barcode_of_column Hf c'), Heq.
Qed.

Lemma whole_group_subseteq type_one type_two (samples : list TCGABarcode) b :
  b ∈ whole_group type_one type_two samples → b ∈ samples.
Proof.
  unfold whole_group. destruct (_ && _); [done|].
  by intros ?%not_elem_of_nil.
Qed.

Lemma whole_group_NoDup type_one type_two (samples : list TCGABarcode) :
  NoDup samples → NoDup (whole_group type_one type_two samples).
Proof.
  unfold whole_group. destruct (_ && _); [done|]. intros _. apply NoDup_nil_2.
Qed.

(** Groups of different participants share no sample. *)
Lemma concat_groups_NoDup (self : ExpressionManager)
    (F : list TCGABarcode → list TCGABarcode) (ks : list string) :
  (∀ g b, b ∈ F g → b ∈ g) →
  (∀ g, NoDup g → NoDup (F g)) →
  NoDup (barcodes self) →
  NoDup ks →
  NoDup (concat (map (fun p => F (samples_of self p)) ks)).
Proof.
  intros Hsub HF Hb. induction 1 as [|p ks Hp Hnd IH]; cbn.
  - apply NoDup_nil_2.
  - apply NoDup_app. split_and!.
    + apply HF. unfold samples_of. by apply NoDup_filter.
    + intros b Hb1 Hb2.
      apply Hsub, samples_of_elem in Hb1 as [_ Hp1].
      apply list_elem_of_In, in_concat in Hb2 as (g & Hg & Hb2).
      apply in_map_iff in Hg as (p' & <- & Hp').
      apply list_elem_of_In, Hsub, samples_of_elem in Hb2 as [_ Hp2].
      apply Hp. apply list_elem_of_In. congruence.
    + done.
Qed.

Lemma paired_labels_NoDup (self : ExpressionManager) type_one type_two :
  faithful → NoDup (columns self) →
  NoDup (paired_labels self type_one type_two).
Proof.
  intros Hf Hnd. unfold paired_labels.
  destruct (samples_by_participant_groups self) as (ks & Hks & Hall & ->).
  rewrite !map_map. cbn [snd].
  apply NoDup_map_inj_on.
  - intros b b' Hb Hb'. apply (barcode_injective self); [done| |].
    + apply list_elem_of_In, in_concat in Hb as (g & Hg & Hb).
      apply in_map_iff in Hg as (p & <- & _).
      apply list_elem_of_In, whole_group_subseteq, samples_of_elem in Hb.
      tauto.
    + apply list_elem_of_In, in_concat in Hb' as (g & Hg & Hb').
      apply in_map_iff in Hg as (p & <- & _).
      apply list_elem_of_In, whole_group_subseteq, samples_of_elem in Hb'.
      tauto.
  - apply (concat_groups_NoDup self (whole_group type_one type_two)).
    + apply whole_group_subseteq.
    + apply whole_group_NoDup.
    + by apply barcodes_NoDup.
    + done.
Qed.

(** With distinct column labels, asking for labels of the frame gives one
    column per label asked for, in that order. *)
Lemma flat_map_cols_named_labels (df : DataFrame) (names : list string) :
  NoDup (columns df) →
  (∀ n, n ∈ names → n ∈ columns df) →
  map fst (flat_map (cols_named df) names) = names.
Proof.
  intros Hnd. induction names as [|n names IH]; intros Hn; [done|].
  cbn [flat_map]. rewrite map_app, IH by (intros m Hm; apply Hn; by right).
  assert (Hin : n ∈ columns df) by (apply Hn; left).
  apply list_elem_of_In, in_map_iff in Hin as (c & <- & Hc).
  rewrite cols_named_unique; [done | done | by apply list_elem_of_In].
Qed.

(** C1.  With [limit_to] and [spread] unset, [paired(type_one, type_two)]
    returns the frame of exactly those columns of [self] whose participant
    has at least one sample of [type_one] and at least one of [type_two]:
    every sample of such a participant is in, every sample of another
    participant is out, and the rows are untouched.  When the column labels
    of [self] are distinct, each of these columns occurs once. *)
Theorem paired_keeps_participants_with_both_types
    (self : ExpressionManager) type_one type_two :
  faithful →
  type_one ∈ sample_types → type_two ∈ sample_types →
  ∃ result,
    paired self type_one type_two None None = Ok result
    ∧ index result = index self
    ∧ (∀ column,
         column ∈ cols result
         ↔ column ∈ cols self
           ∧ is_paired self type_one type_two (fst column) = true)
    ∧ (NoDup (columns self) →
       cols result
       ≡ₚ List.filter (fun c => is_paired self type_one type_two (fst c))
            (cols self)).
Proof.
  intros Hf H1 H2. rewrite (paired_plain_ok _ _ _ Hf H1 H2).
  eexists. split; [done|]. cbn [index cols].
  pose proof (fun column => paired_cols_elem self type_one type_two column Hf)
    as Hmem.
  split_and!; [done | done |].
  intros Hnd. apply NoDup_Permutation.
  - apply (NoDup_fmap_1 fst). change (NoDup (map fst (flat_map (cols_named self)
      (paired_labels self type_one type_two)))).
    rewrite flat_map_cols_named_labels; [by apply paired_labels_NoDup | done |].
    intros n Hn. by apply (paired_labels_elem _ _ _ _ Hf) in Hn as [? _].
  - apply NoDup_ListNoDup, List.NoDup_filter, NoDup_ListNoDup.
    by apply (NoDup_fmap_1 fst).
  - intros column. rewrite Hmem, elem_of_List_filter. done.
Qed.

(** ** Selecting the columns of a class *)

Lemma columns_of_class_mask (df : ExpressionManager) type_name :
  columns_of_class df type_name
  = map fst (columns_in_class df type_name).
Proof.
  unfold columns_of_class, classes, barcodes, columns_in_class.
  rewrite !map_map.
  apply (select_mask_map_fst
           (fun c => String.eqb (class_of c) type_name)).
Qed.

Lemma class_selection (df : ExpressionManager) type_name :
  ∃ sub,
    getitem_columns df (columns_of_class df type_name) = Ok sub
    ∧ index sub = index df
    ∧ (∀ column,
         column ∈ cols sub
         ↔ column ∈ cols df ∧ class_of (fst column) = type_name)
    ∧ (NoDup (columns df) → cols sub = columns_in_class df type_name).
Proof.
  rewrite columns_of_class_mask.
  assert (Hsub : ∀ c, c ∈ columns_in_class df type_name
                      ↔ c ∈ cols df ∧ class_of (fst c) = type_name).
  { intros c. unfold columns_in_class.
    by rewrite elem_of_List_filter, String.eqb_eq. }
  rewrite getitem_columns_ok; cycle 1.
  { intros n Hn. apply list_elem_of_In, in_map_iff in Hn as (c & <- & Hc).
    apply list_elem_of_In, Hsub in Hc as [Hc _].
    apply list_elem_of_In, in_map. by apply list_elem_of_In. }
  eexists. split; [done|]. cbn [index cols]. split_and!; [done | |].
  - intros column. rewrite list_elem_of_In, in_flat_map. split.
    + intros (n & Hn & Hc).
      apply list_elem_of_In, cols_named_elem in Hc as [Hc <-].
      split; [done|].
      apply in_map_iff in Hn as (c & Heq & Hn).
      apply list_elem_of_In, Hsub in Hn as [_ Hn]. by rewrite <- Heq.
    + intros [Hc Ht]. exists (fst column). split.
      * apply in_map, list_elem_of_In, Hsub. done.
      * apply list_elem_of_In, cols_named_elem. done.
  - intros Hnd. apply flat_map_cols_named; [done|].
    intros c Hc. by apply Hsub in Hc as [Hc _].
Qed.

(** C8.  [split(case_, control_, only_paired=True)] looks at the paired
    subset [paired(case_, control_)]: when that frame is empty the result is
    [None]; otherwise it is the pair (cases, controls), where the columns of
    [cases] are exactly the columns of the paired subset whose class is
    [case_] and the columns of [controls] exactly those whose class is
    [control_], over the same rows.  When the column labels of [self] are
    distinct, the two frames list these columns once each, in the order of
    the paired subset. *)
Theorem split_returns_paired_cases_and_controls
    (self : ExpressionManager) case_ control_ :
  faithful →
  case_ ∈ sample_types → control_ ∈ sample_types →
  ∃ subset,
    paired self case_ control_ None None = Ok subset
    ∧ (empty subset = true → split self case_ control_ true = Ok None)
    ∧ (empty subset = false →
       ∃ cases controls,
         split self case_ control_ true = Ok (Some (cases, controls))
         ∧ index cases = index subset ∧ index controls = index subset
         ∧ (∀ column,
              column ∈ cols cases
              ↔ column ∈ cols subset ∧ class_of (fst column) = case_)
         ∧ (∀ column,
              column ∈ cols controls
              ↔ column ∈ cols subset ∧ class_of (fst column) = control_)
         ∧ (NoDup (columns self) →
            cols cases = columns_in_class subset case_
            ∧ cols controls = columns_in_class subset control_)).
Proof.
  intros Hf H1 H2. pose proof (paired_plain_ok self _ _ Hf H1 H2) as Hpaired.
  eexists. split; [exact Hpaired|].
  set (subset := {| index := index self; cols := _ |}) in *.
  unfold split. rewrite Hpaired. cbn [res_bind].
  split; [by intros ->|]. intros ->.
  destruct (class_selection subset case_)
    as (cases & Hcases & Hi1 & Hm1 & He1).
  destruct (class_selection subset control_)
    as (controls & Hcontrols & Hi2 & Hm2 & He2).
  exists cases, controls. rewrite Hcases, Hcontrols. cbn [res_bind].
  split_and!; try done.
  intros Hnd.
  assert (Hsubset : NoDup (columns subset)).
  { unfold columns, subset. cbn [cols].
    rewrite flat_map_cols_named_labels; [by apply paired_labels_NoDup | done |].
    intros n Hn. by apply (paired_labels_elem _ _ _ _ Hf) in Hn as [? _]. }
  split; [by apply He1 | by apply He2].
Qed.

(** ** Spreading one type *)

Lemma list_remove_spread type_one type_two spread :
  spread = type_one ∨ spread = type_two →
  list_remove spread [type_one; type_two]
  = [other_type type_one type_two spread].
Proof.
  intros Hs. unfold other_type. cbn.
  destruct (String.eqb_spec type_one spread) as [|Hne]; [done|].
  destruct Hs as [->| ->]; [done|]. by rewrite String.eqb_refl.
Qed.

Lemma other_type_cases type_one type_two spread :
  spread = type_one ∨ spread = type_two →
  (spread = type_one ∧ other_type type_one type_two spread = type_two)
  ∨ (spread = type_two ∧ other_type type_one type_two spread = type_one).
Proof.
  intros Hs. unfold other_type.
  destruct (String.eqb_spec type_one spread) as [<-|Hne]; [by left|].
  destruct Hs as [->| ->]; [done | by right].
Qed.

Lemma barcode_set_singleton (b : TCGABarcode) :
  faithful → barcode_set [b] = [b].
Proof.
  intros Hf. apply Permutation_singleton_r, (barcode_set_perm Hf).
  apply NoDup_singleton.
Qed.

Lemma concat_repeat_singleton {A} (x : A) (n : nat) :
  concat (repeat [x] n) = repeat x n.
Proof. induction n as [|n IH]; [done|]. cbn. by rewrite IH. Qed.

(** What the loop of [paired] appends for one participant when [spread] is
    given, for a participant with exactly one sample of the spread type
    whenever it has both types. *)
Lemma paired_samples_spread type_one type_two spread
    (samples : list TCGABarcode) :
  faithful →
  type_one ∈ sample_types → type_two ∈ sample_types →
  spread = type_one ∨ spread = type_two →
  spread ≠ "" →
  (nonempty (of_type type_one samples) = true →
   nonempty (of_type type_two samples) = true →
   List.length (of_type spread samples) = 1) →
  paired_samples type_one type_two None (Some spread) samples
  = Ok (spread_samples (other_type type_one type_two spread) spread samples).
Proof.
  intros Hf H1 H2 Hs Hne Hone. unfold paired_samples, spread_samples.
  rewrite (dict_get_by_type _ _ H1). cbn [res_bind].
  rewrite (barcode_set_nonempty _ Hf).
  destruct (nonempty (of_type type_one samples)) eqn:E1; cbn [negb].
  2:{ destruct (other_type_cases _ _ _ Hs) as [[-> ->]|[-> ->]].
      - destruct (of_type type_two samples); [done|].
        by destruct (of_type type_one samples).
      - by destruct (of_type type_one samples). }
  rewrite (dict_get_by_type _ _ H2). cbn [res_bind].
  rewrite (barcode_set_nonempty _ Hf).
  destruct (nonempty (of_type type_two samples)) eqn:E2; cbn [negb].
  2:{ destruct (other_type_cases _ _ _ Hs) as [[-> ->]|[-> ->]].
      - by destruct (of_type type_two samples).
      - destruct (of_type type_one samples); [done|].
        by destruct (of_type type_two samples). }
  specialize (Hone eq_refl eq_refl).
  cbn [int_truthy str_truthy default from_option id].
  replace (String.eqb spread "") with false
    by (symmetry; by apply String.eqb_neq).
  cbn [negb].
  replace (existsb (String.eqb spread) [type_one; type_two]) with true; cycle 1.
  { symmetry. apply existsb_eqb_elem. destruct Hs as [->| ->]; set_solver. }
  cbn [negb]. rewrite (list_remove_spread _ _ _ Hs).
  assert (Hother : other_type type_one type_two spread ∈ sample_types)
    by (destruct (other_type_cases _ _ _ Hs) as [[_ ->]|[_ ->]]; done).
  assert (Hspread : spread ∈ sample_types) by (destruct Hs as [->| ->]; done).
  rewrite (dict_get_by_type _ _ Hother), (dict_get_by_type _ _ Hspread).
  cbn [res_bind].
  destruct (of_type spread samples) as [|control [|? ?]] eqn:Espread;
    try done.
  rewrite (barcode_set_singleton _ Hf). cbn [List.length Nat.eqb negb].
  rewrite concat_repeat_singleton.
  assert (Hcases : nonempty (of_type (other_type type_one type_two spread)
                               samples) = true).
  { destruct (other_type_cases _ _ _ Hs) as [[_ ->]|[_ ->]]; done. }
  by destruct (of_type (other_type type_one type_two spread) samples).
Qed.

Lemma of_type_elem t (samples : list TCGABarcode) b :
  b ∈ of_type t samples ↔ b ∈ samples ∧ sample_type b = t.
Proof. unfold of_type. rewrite list_elem_of_filter, eqb_Is_true. tauto. Qed.

Lemma spread_samples_subseteq other spread (samples : list TCGABarcode) b :
  faithful →
  b ∈ spread_samples other spread samples → b ∈ samples.
Proof.
  intros Hf. unfold spread_samples.
  destruct (of_type other samples) as [|c cs] eqn:Eo;
    [by intros ?%not_elem_of_nil|].
  destruct (of_type spread samples) as [|control rest] eqn:Es;
    [by intros ?%not_elem_of_nil|].
  rewrite elem_of_app. intros [Hb|Hb].
  - apply (proj1 (barcode_set_elem Hf _ _)) in Hb. rewrite <- Eo in Hb.
    by apply of_type_elem in Hb as [Hb _].
  - apply list_elem_of_In, repeat_spec in Hb. subst b.
    assert (Hc : control ∈ of_type spread samples) by (rewrite Es; left).
    by apply of_type_elem in Hc as [Hc _].
Qed.

Lemma spread_block_labels (self : ExpressionManager) other spread
    (ks : list string) n :
  faithful →
  n ∈ flat_map (fun p => spread_block other spread (samples_of self p)) ks →
  n ∈ columns self.
Proof.
  intros Hf Hn. apply list_elem_of_In, in_flat_map in Hn as (p & _ & Hn).
  unfold spread_block in Hn. apply in_map_iff in Hn as (b & <- & Hb).
  apply list_elem_of_In, (spread_samples_subseteq _ _ _ _ Hf),
    samples_of_elem in Hb as [Hb _].
  apply barcodes_elem in Hb as (c & Hc & ->).
  by rewrite (barcode_of_column Hf).
Qed.

(** C7 (amended).  Let the column labels of [self] be distinct, let
    [spread] be one of the two types, and let every participant that has
    samples of both types have exactly one sample of type [spread].  Then
    [paired(type_one, type_two, spread=spread)] returns, over the rows of
    [self], columns of [self] listed participant after participant, every
    participant of [self] having its turn once: a participant with both
    types contributes the labels of all its samples of the other type (in
    the order its set yields them) followed by the label of its one
    [spread] sample, repeated once for each of them, so as many of one type
    as of the other; any other participant contributes nothing. *)
Theorem paired_spread_duplicates_single_sample
    (self : ExpressionManager) type_one type_two spread :
  faithful →
  NoDup (columns self) →
  type_one ∈ sample_types → type_two ∈ sample_types →
  spread = type_one ∨ spread = type_two →
  spread ≠ "" →
  (∀ p, has_sample self p type_one = true →
        has_sample self p type_two = true →
        List.length (of_type spread (samples_of self p)) = 1) →
  let other := other_type type_one type_two spread in
  ∃ result participants,
    paired self type_one type_two None (Some spread) = Ok result
    ∧ index result = index self
    ∧ (∀ column, column ∈ cols result → column ∈ cols self)
    ∧ NoDup participants
    ∧ (∀ p, p ∈ participants
            ↔ ∃ column, column ∈ columns self
                        ∧ participant (parse_barcode column) = p)
    ∧ columns result
      = flat_map (fun p => spread_block other spread (samples_of self p))
          participants
    ∧ (∀ p, has_sample self p type_one = true →
            has_sample self p type_two = true →
            ∃ control cases,
              of_type spread (samples_of self p) = [control]
              ∧ cases ≡ₚ of_type other (samples_of self p)
              ∧ spread_block other spread (samples_of self p)
                = map barcode cases
                  ++ repeat (barcode control) (List.length cases))
    ∧ (∀ p, has_sample self p type_one && has_sample self p type_two = false →
            spread_block other spread (samples_of self p) = []).
Proof.
  intros Hf Hnd H1 H2 Hs Hne Hone other.
  unfold paired. cbn [int_truthy andb]. rewrite andb_false_r.
  destruct (samples_by_participant_groups self) as (ks & Hks & Hall & ->).
  rewrite !map_map. cbn [fst snd].
  rewrite (res_mapM_ok _ (spread_samples other spread)); cycle 1.
  { intros g Hg. apply list_elem_of_In, in_map_iff in Hg as (p & <- & _).
    by apply paired_samples_spread; [..|apply Hone]. }
  cbn [res_bind]. rewrite map_map.
  assert (Hnames :
    map barcode
      (concat (map (fun p => spread_samples other spread (samples_of self p))
                   ks))
    = flat_map (fun p => spread_block other spread (samples_of self p)) ks).
  { rewrite flat_map_concat_map, concat_map, map_map. done. }
  rewrite Hnames.
  rewrite getitem_columns_ok by (intros n; by apply spread_block_labels).
  eexists _, ks. split; [done|]. cbn [index cols]. split_and!.
  - done.
  - intros column Hc. apply list_elem_of_In, in_flat_map in Hc as (n & _ & Hc).
    by apply list_elem_of_In, cols_named_elem in Hc as [Hc _].
  - done.
  - intros p. rewrite Hall. split.
    + intros (b & Hb & <-). apply barcodes_elem in Hb as (c & Hc & ->).
      by exists c.
    + intros (c & Hc & <-). exists (parse_barcode c). split; [|done].
      apply barcodes_elem. by exists c.
  - unfold columns at 1. cbn [cols].
    apply flat_map_cols_named_labels; [done|].
    intros n. by apply spread_block_labels.
  - intros p Hp1 Hp2. specialize (Hone p Hp1 Hp2).
    destruct (of_type spread (samples_of self p)) as [|control [|? ?]] eqn:Es;
      try done.
    exists control, (barcode_set (of_type other (samples_of self p))).
    split; [done|]. split.
    + apply (barcode_set_perm Hf). unfold of_type, samples_of.
      apply NoDup_filter, NoDup_filter. by apply barcodes_NoDup.
    + unfold spread_block, spread_samples. rewrite Es.
      assert (Ho : nonempty (of_type other (samples_of self p)) = true).
      { unfold has_sample in Hp1, Hp2. unfold other.
        destruct (other_type_cases _ _ _ Hs) as [[_ ->]|[_ ->]]; done. }
      destruct (of_type other (samples_of self p)) eqn:Eo; [done|].
      by rewrite map_app, map_repeat.
  - intros p Hp. unfold spread_block, spread_samples, has_sample in *.
    destruct (other_type_cases _ _ _ Hs) as [[Hs' Ho]|[Hs' Ho]];
      fold other in Ho; rewrite Ho; subst spread.
    + destruct (of_type type_two (samples_of self p)); [done|].
      destruct (of_type type_one (samples_of self p)); done.
    + destruct (of_type type_one (samples_of self p)); [done|].
      destruct (of_type type_two (samples_of self p)); done.
Qed.

(** ** Differential expression *)

Lemma empty_false (df : DataFrame) :
  index df ≠ [] → cols df ≠ [] → empty df = false.
Proof. unfold empty. by destruct (index df), (cols df). Qed.

(** With a gene and a paired sample of each class, [split] returns two
    frames that are not empty: the paired columns of class [case_] and
    those of class [control_], over the rows of [self]. *)
Lemma split_ok (self : ExpressionManager) case_ control_ :
  faithful →
  case_ ∈ sample_types → control_ ∈ sample_types →
  index self ≠ [] →
  (∃ c, c ∈ columns self ∧ is_paired self case_ control_ c = true
        ∧ class_of c = case_) →
  (∃ c, c ∈ columns self ∧ is_paired self case_ control_ c = true
        ∧ class_of c = control_) →
  ∃ case control,
    split self case_ control_ true = Ok (Some (case, control))
    ∧ index case = index self ∧ index control = index self
    ∧ empty case = false ∧ empty control = false
    ∧ (∀ column,
         column ∈ cols case
         ↔ column ∈ cols self
           ∧ is_paired self case_ control_ (fst column) = true
           ∧ class_of (fst column) = case_)
    ∧ (∀ column,
         column ∈ cols control
         ↔ column ∈ cols self
           ∧ is_paired self case_ control_ (fst column) = true
           ∧ class_of (fst column) = control_).
Proof.
  intros Hf H1 H2 Hidx (c1 & Hc1 & Hp1 & Ht1) (c2 & Hc2 & Hp2 & Ht2).
  pose proof (paired_plain_ok self _ _ Hf H1 H2) as Hpaired.
  set (subset := {| index := index self; cols := _ |}) in *.
  assert (Hsub : ∀ column, column ∈ cols subset
            ↔ column ∈ cols self
              ∧ is_paired self case_ control_ (fst column) = true)
    by (intros column; by apply paired_cols_elem).
  apply list_elem_of_In, in_map_iff in Hc1 as (col1 & <- & Hcol1).
  apply list_elem_of_In, in_map_iff in Hc2 as (col2 & <- & Hcol2).
  apply list_elem_of_In in Hcol1, Hcol2.
  assert (Hne : empty subset = false).
  { apply empty_false; [done|]. intros Hnil.
    assert (Hin : col1 ∈ cols subset) by by apply Hsub.
    rewrite Hnil in Hin. by apply not_elem_of_nil in Hin. }
  destruct (class_selection subset case_)
    as (cases & Hcases & Hi1 & Hm1 & _).
  destruct (class_selection subset control_)
    as (controls & Hcontrols & Hi2 & Hm2 & _).
  exists cases, controls. unfold split.
  rewrite Hpaired. cbn [res_bind]. rewrite Hne, Hcases, Hcontrols.
  cbn [res_bind]. split_and!; try done.
  - apply empty_false; [by rewrite Hi1|]. intros Hnil.
    assert (Hin : col1 ∈ cols cases) by (apply Hm1; split; [by apply Hsub|done]).
    rewrite Hnil in Hin. by apply not_elem_of_nil in Hin.
  - apply empty_false; [by rewrite Hi2|]. intros Hnil.
    assert (Hin : col2 ∈ cols controls)
      by (apply Hm2; split; [by apply Hsub|done]).
    rewrite Hnil in Hin. by apply not_elem_of_nil in Hin.
  - intros column. rewrite Hm1, Hsub. tauto.
  - intros column. rewrite Hm2, Hsub. tauto.
Qed.

Lemma chosen_genes_elem (case : DataFrame) limit_to g :
  faithful →
  g ∈ chosen_genes case limit_to
  ↔ g ∈ index case
    ∧ (list_truthy limit_to = true → g ∈ default [] limit_to).
Proof.
  intros Hf. unfold chosen_genes. destruct (list_truthy limit_to).
  - rewrite (label_set_elem Hf), list_elem_of_filter, (label_set_elem Hf).
    rewrite Is_true_true, existsb_eqb_elem. naive_solver.
  - rewrite (label_set_elem Hf). naive_solver.
Qed.

Lemma chosen_genes_NoDup (case : DataFrame) limit_to :
  faithful → NoDup (chosen_genes case limit_to).
Proof.
  intros Hf. unfold chosen_genes.
  destruct (list_truthy limit_to); apply (label_set_NoDup Hf).
Qed.

Lemma rows_labelled_nonempty gene (labels : list Label) cells :
  gene ∈ labels → rows_labelled gene labels cells ≠ [].
Proof.
  revert cells. induction labels as [|l labels IH]; intros cells Hg.
  - by apply not_elem_of_nil in Hg.
  - cbn. destruct (String.eqb_spec l gene) as [->|Hne]; [done|].
    apply IH. apply elem_of_cons in Hg as [->|Hg]; done.
Qed.

Lemma loc_gene_ok (frame : DataFrame) gene :
  gene ∈ index frame → loc_gene frame gene = Ok (rows_of frame gene).
Proof.
  intros Hg. unfold loc_gene.
  pose proof (rows_labelled_nonempty gene _ (map snd (cols frame)) Hg) as Hne.
  fold (rows_of frame gene) in Hne. by destruct (rows_of frame gene).
Qed.

Lemma loc_genes_ok (frame : DataFrame) (genes : list Label) :
  (∀ g, g ∈ genes → g ∈ index frame) →
  ∃ rows, loc_genes frame genes = Ok rows.
Proof.
  intros Hg. unfold loc_genes.
  replace (forallb _ genes) with true; [by eexists|].
  symmetry. apply forallb_forall. intros g Hin.
  apply existsb_eqb_elem, Hg. by apply list_elem_of_In.
Qed.

Lemma per_gene_scores_rows f (case control : DataFrame) (genes : list Label) :
  (∀ g, g ∈ genes → g ∈ index case ∧ g ∈ index control) →
  per_gene_scores f case control genes
  = res_mapM (fun g => f (rows_of case g) (rows_of control g)) genes.
Proof.
  unfold per_gene_scores. induction genes as [|g genes IH]; intros Hg; [done|].
  cbn [res_mapM]. destruct (Hg g) as [Hc Hd]; [left|].
  rewrite (loc_gene_ok _ _ Hc), (loc_gene_ok _ _ Hd). cbn [res_bind].
  rewrite IH; [done|]. intros g' Hg'. apply Hg. by right.
Qed.

Lemma res_mapM_Forall2 {A B} (f : A → res B) (l : list A) (ys : list B) :
  Forall2 (fun x y => f x = Ok y) l ys → res_mapM f l = Ok ys.
Proof.
  induction 1 as [|x y l ys Hxy _ IH]; [done|]. cbn. by rewrite Hxy, IH.
Qed.

(** The loop stops at the first exception. *)
Lemma res_mapM_first_exception {A B} (f : A → res B) (l : list A) e :
  (∀ x, x ∈ l → f x = Raise e ∨ is_ok (f x) = true) →
  (∃ x, x ∈ l ∧ f x = Raise e) →
  res_mapM f l = Raise e.
Proof.
  induction l as [|x l IH]; intros Hall (x0 & Hx0 & Hfail).
  - by apply not_elem_of_nil in Hx0.
  - cbn. destruct (Hall x) as [Hx|Hx]; [left | by rewrite Hx |].
    destruct (f x) as [y|e'] eqn:Hfx; [|done].
    rewrite IH; [done | |].
    + intros z Hz. apply Hall. by right.
    + apply elem_of_cons in Hx0 as [->|Hx0]; [congruence|]. eauto.
Qed.

Lemma fillna_0_no_nan (series : Series) :
  Forall (fun x => isnan x = false) (s_values (fillna_0 series)).
Proof.
  unfold fillna_0. cbn. apply Forall_forall. intros x Hx.
  apply list_elem_of_In, in_map_iff in Hx as (y & <- & _).
  by destruct y.
Qed.

(** With [nans='fill_0'] a returned Series holds no NaN, whatever the
    other arguments are. *)
Lemma differential_fill_0_no_nan (self : ExpressionManager) case_ control_
    metric index_as_bytes limit_to only_paired additional_controls series :
  differential self case_ control_ metric index_as_bytes limit_to only_paired
    "fill_0" additional_controls = Ok (Some series) →
  Forall (fun x => isnan x = false) (s_values series).
Proof.
  unfold differential.
  destruct (split self case_ control_ only_paired) as [[[case control]|]|];
    cbn [res_bind]; [|done|done].
  destruct (empty case || empty _); [done|].
  destruct (compute_signature _ _ _ _) as [q|[]]; try done.
  intros [= <-]. unfold finish_signature. rewrite String.eqb_refl.
  destruct index_as_bytes; cbn; apply fillna_0_no_nan.
Qed.

(** C3 (amended).  Let [self] have at least one gene (row), one paired
    sample of class [case_] and one of class [control_].  Then
    [differential(case_, control_)] (paired, without additional controls)
    works on the two frames [split] returns, the paired columns of each
    class, and on the genes of the index, restricted to [limit_to] when
    that list is not empty:
    - with a metric other than [signal_to_noise] that scores every gene, it
      returns the Series of these per-gene scores of the case row against
      the control row;
    - when that metric raises [StatisticsError] it returns [None];
    - with [signal_to_noise] it returns what [signal_to_noise_vectorized]
      computes from the rows of the two frames for these genes;
    - in each case [nans='fill_0'] replaces NaN by 0 and [index_as_bytes]
      converts the labels, and with [nans='fill_0'] a returned Series holds
      no NaN. *)
Theorem differential_scores_case_against_control
    (self : ExpressionManager) case_ control_ index_as_bytes limit_to nans :
  faithful →
  case_ ∈ sample_types → control_ ∈ sample_types →
  index self ≠ [] →
  (∃ c, c ∈ columns self ∧ is_paired self case_ control_ c = true
        ∧ class_of c = case_) →
  (∃ c, c ∈ columns self ∧ is_paired self case_ control_ c = true
        ∧ class_of c = control_) →
  ∃ case control,
    split self case_ control_ true = Ok (Some (case, control))
    ∧ (∀ column,
         column ∈ cols case
         ↔ column ∈ cols self
           ∧ is_paired self case_ control_ (fst column) = true
           ∧ class_of (fst column) = case_)
    ∧ (∀ column,
         column ∈ cols control
         ↔ column ∈ cols self
           ∧ is_paired self case_ control_ (fst column) = true
           ∧ class_of (fst column) = control_)
    ∧ let genes := chosen_genes case limit_to in
      NoDup genes
      ∧ (∀ g, g ∈ genes
              ↔ g ∈ index self
                ∧ (list_truthy limit_to = true → g ∈ default [] limit_to))
      ∧ (∀ f scores,
           Forall2 (fun g x => f (rows_of case g) (rows_of control g) = Ok x)
                   genes scores →
           differential self case_ control_ (metric_function f) index_as_bytes
             limit_to true nans None
           = Ok (Some (finish_signature nans index_as_bytes
                         {| s_index := map Str genes; s_values := scores |})))
      ∧ (∀ f,
           (∀ g, g ∈ genes →
                 f (rows_of case g) (rows_of control g) = Raise StatisticsError
                 ∨ is_ok (f (rows_of case g) (rows_of control g)) = true) →
           (∃ g, g ∈ genes
                 ∧ f (rows_of case g) (rows_of control g)
                   = Raise StatisticsError) →
           differential self case_ control_ (metric_function f) index_as_bytes
             limit_to true nans None = Ok None)
      ∧ (∃ case_rows control_rows,
           loc_genes case genes = Ok case_rows
           ∧ loc_genes control genes = Ok control_rows
           ∧ differential self case_ control_ signal_to_noise index_as_bytes
               limit_to true nans None
             = match signal_to_noise_vectorized case_rows control_rows with
               | Ok scores =>
                   Ok (Some (finish_signature nans index_as_bytes scores))
               | Raise StatisticsError => Ok None
               | Raise e => Raise e
               end)
      ∧ (∀ metric series,
           differential self case_ control_ metric index_as_bytes limit_to
             true "fill_0" None = Ok (Some series) →
           Forall (fun x => isnan x = false) (s_values series)).
Proof.
  intros Hf H1 H2 Hidx Hcase Hcontrol.
  destruct (split_ok self case_ control_ Hf H1 H2 Hidx Hcase Hcontrol)
    as (case & control & Hsplit & Hi1 & Hi2 & He1 & He2 & Hm1 & Hm2).
  exists case, control. split_and!; [done | done | done |].
  intros genes.
  assert (Hgenes : ∀ g, g ∈ genes
            ↔ g ∈ index self
              ∧ (list_truthy limit_to = true → g ∈ default [] limit_to)).
  { intros g. unfold genes. by rewrite (chosen_genes_elem _ _ _ Hf), Hi1. }
  assert (Hin : ∀ g, g ∈ genes → g ∈ index case ∧ g ∈ index control).
  { intros g Hg. apply Hgenes in Hg as [Hg _]. by rewrite Hi1, Hi2. }
  assert (Hdiff : ∀ metric,
    differential self case_ control_ metric index_as_bytes limit_to true nans
      None
    = match compute_signature metric case control genes with
      | Ok q => Ok (Some (finish_signature nans index_as_bytes q))
      | Raise StatisticsError => Ok None
      | Raise e => Raise e
      end).
  { intros metric. unfold differential. rewrite Hsplit. cbn [res_bind].
    by rewrite He1, He2. }
  split_and!.
  - by apply chosen_genes_NoDup.
  - done.
  - intros f scores Hscores. rewrite Hdiff. cbn [compute_signature].
    rewrite (per_gene_scores_rows _ _ _ _ Hin).
    by rewrite (res_mapM_Forall2 _ _ _ Hscores).
  - intros f Hall Hfail. rewrite Hdiff. cbn [compute_signature].
    rewrite (per_gene_scores_rows _ _ _ _ Hin).
    by rewrite (res_mapM_first_exception _ _ _ Hall Hfail).
  - destruct (loc_genes_ok case genes) as [case_rows Hcr];
      [intros g Hg; by apply Hin|].
    destruct (loc_genes_ok control genes) as [control_rows Hdr];
      [intros g Hg; by apply Hin|].
    exists case_rows, control_rows. split_and!; [done | done |].
    rewrite Hdiff. cbn [compute_signature]. rewrite Hcr, Hdr. done.
  - intros metric series. apply differential_fill_0_no_nan.
Qed.

Lemma has_sample_participant (self : ExpressionManager) p t :
  has_sample self p t = true → p ∈ map participant (barcodes self).
Proof.
  unfold has_sample. intros (b & Hb)%nonempty_elem.
  apply of_type_elem in Hb as [Hb _]. apply samples_of_elem in Hb as [Hb <-].
  apply list_elem_of_In, in_map. by apply list_elem_of_In.
Qed.

End WithEnv.

(** ** The sample frame *)

#[local] Existing Instance Examples.tcga_env.

Lemma tcga_env_faithful : faithful.
Proof.
  split.
  - done.
  - intros l x. cbn. by rewrite !list_elem_of_In, <- in_rev.
  - intros l _. cbn. symmetry. apply Permutation_rev.
  - intros l x. cbn. apply elem_of_remove_dups.
  - intros l. cbn. apply NoDup_remove_dups.
Qed.

Lemma expression_columns_NoDup : NoDup (columns Examples.expression).
Proof.
  cbn. repeat (apply NoDup_cons_2; [set_solver|]). apply NoDup_nil_2.
Qed.

Lemma paired_keeps_participants_with_both_types_witness :
  ∃ result,
    paired Examples.expression "tumor" "normal" None None = Ok result
    ∧ index result = index Examples.expression
    ∧ (∀ column,
         column ∈ cols result
         ↔ column ∈ cols Examples.expression
           ∧ is_paired Examples.expression "tumor" "normal" (fst column)
             = true)
    ∧ (NoDup (columns Examples.expression) →
       cols result
       ≡ₚ List.filter
            (fun c => is_paired Examples.expression "tumor" "normal" (fst c))
            (cols Examples.expression)).
Proof.
  apply (paired_keeps_participants_with_both_types Examples.expression
           "tumor" "normal").
  - exact tcga_env_faithful.
  - cbn. set_solver.
  - cbn. set_solver.
Defined.

Lemma split_returns_paired_cases_and_controls_witness :
  ∃ subset,
    paired Examples.expression "tumor" "normal" None None = Ok subset
    ∧ (empty subset = true →
       split Examples.expression "tumor" "normal" true = Ok None)
    ∧ (empty subset = false →
       ∃ cases controls,
         split Examples.expression "tumor" "normal" true
         = Ok (Some (cases, controls))
         ∧ index cases = index subset ∧ index controls = index subset
         ∧ (∀ column,
              column ∈ cols cases
              ↔ column ∈ cols subset ∧ class_of (fst column) = "tumor")
         ∧ (∀ column,
              column ∈ cols controls
              ↔ column ∈ cols subset ∧ class_of (fst column) = "normal")
         ∧ (NoDup (columns Examples.expression) →
            cols cases = columns_in_class subset "tumor"
            ∧ cols controls = columns_in_class subset "normal")).
Proof.
  apply (split_returns_paired_cases_and_controls Examples.expression
           "tumor" "normal").
  - exact tcga_env_faithful.
  - cbn. set_solver.
  - cbn. set_solver.
Defined.

Lemma paired_spread_duplicates_single_sample_witness :
  let self := Examples.expression in
  let other := other_type "tumor" "normal" "normal" in
  ∃ result participants,
    paired self "tumor" "normal" None (Some "normal") = Ok result
    ∧ index result = index self
    ∧ (∀ column, column ∈ cols result → column ∈ cols self)
    ∧ NoDup participants
    ∧ (∀ p, p ∈ participants
            ↔ ∃ column, column ∈ columns self
                        ∧ participant (parse_barcode column) = p)
    ∧ columns result
      = flat_map (fun p => spread_block other "normal" (samples_of self p))
          participants
    ∧ (∀ p, has_sample self p "tumor" = true →
            has_sample self p "normal" = true →
            ∃ control cases,
              of_type "normal" (samples_of self p) = [control]
              ∧ cases ≡ₚ of_type other (samples_of self p)
              ∧ spread_block other "normal" (samples_of self p)
                = map barcode cases
                  ++ repeat (barcode control) (List.length cases))
    ∧ (∀ p, has_sample self p "tumor" && has_sample self p "normal" = false →
            spread_block other "normal" (samples_of self p) = []).
Proof.
  apply (paired_spread_duplicates_single_sample Examples.expression
           "tumor" "normal" "normal").
  - exact tcga_env_faithful.
  - exact expression_columns_NoDup.
  - cbn. set_solver.
  - cbn. set_solver.
  - by right.
  - discriminate.
  - intros p Hp Hn. apply has_sample_participant in Hp.
    apply list_elem_of_In in Hp. cbn in Hp.
    destruct Hp as [<-|[<-|[<-|[<-|[<-|[<-|[]]]]]]];
      first [reflexivity | discriminate Hn].
Defined.

(** C7 as stated fails on a frame in which two columns carry the same
    label: the participant has one normal sample, as the precondition asks,
    and the result holds more tumor columns than normal ones, both when a
    set keeps the two barcode objects of the repeated label apart and when
    it takes them for one element. *)
Lemma paired_spread_unbalanced_on_duplicate_labels :
  let self := Examples.duplicated_samples in
  (∀ p, has_sample self p "tumor" = true →
        has_sample self p "normal" = true →
        List.length (of_type "normal" (samples_of self p)) = 1%nat)
  ∧ (∃ result,
       paired self "tumor" "normal" None (Some "normal") = Ok result
       ∧ List.length (columns_in_class result "tumor") = 4%nat
       ∧ List.length (columns_in_class result "normal") = 2%nat)
  ∧ (∃ result,
       paired (H := Examples.tcga_env_by_value) self "tumor" "normal" None
         (Some "normal") = Ok result
       ∧ List.length (columns_in_class result "tumor") = 2%nat
       ∧ List.length (columns_in_class result "normal") = 1%nat).
Proof.
  split_and!.
  - intros p Hp _. apply has_sample_participant in Hp.
    apply list_elem_of_In in Hp. cbn in Hp.
    destruct Hp as [<-|[<-|[<-|[]]]]; reflexivity.
  - eexists. split_and!; [vm_compute; reflexivity | reflexivity..].
  - eexists. split_and!; [vm_compute; reflexivity | reflexivity..].
Qed.

Lemma differential_scores_case_against_control_witness :
  let self := Examples.expression in
  ∃ case control,
    split self "tumor" "normal" true = Ok (Some (case, control))
    ∧ (∀ column,
         column ∈ cols case
         ↔ column ∈ cols self
           ∧ is_paired self "tumor" "normal" (fst column) = true
           ∧ class_of (fst column) = "tumor")
    ∧ (∀ column,
         column ∈ cols control
         ↔ column ∈ cols self
           ∧ is_paired self "tumor" "normal" (fst column) = true
           ∧ class_of (fst column) = "normal")
    ∧ let genes := chosen_genes case (Some ["TP53"]) in
      NoDup genes
      ∧ (∀ g, g ∈ genes
              ↔ g ∈ index self
                ∧ (list_truthy (Some ["TP53"]) = true
                   → g ∈ default [] (Some ["TP53"])))
      ∧ (∀ f scores,
           Forall2 (fun g x => f (rows_of case g) (rows_of control g) = Ok x)
                   genes scores →
           differential self "tumor" "normal" (metric_function f) true
             (Some ["TP53"]) true "fill_0" None
           = Ok (Some (finish_signature "fill_0" true
                         {| s_index := map Str genes; s_values := scores |})))
      ∧ (∀ f,
           (∀ g, g ∈ genes →
                 f (rows_of case g) (rows_of control g) = Raise StatisticsError
                 ∨ is_ok (f (rows_of case g) (rows_of control g)) = true) →
           (∃ g, g ∈ genes
                 ∧ f (rows_of case g) (rows_of control g)
                   = Raise StatisticsError) →
           differential self "tumor" "normal" (metric_function f) true
             (Some ["TP53"]) true "fill_0" None = Ok None)
      ∧ (∃ case_rows control_rows,
           loc_genes case genes = Ok case_rows
           ∧ loc_genes control genes = Ok control_rows
           ∧ differential self "tumor" "normal" signal_to_noise true
               (Some ["TP53"]) true "fill_0" None
             = match signal_to_noise_vectorized case_rows control_rows with
               | Ok scores => Ok (Some (finish_signature "fill_0" true scores))
               | Raise StatisticsError => Ok None
               | Raise e => Raise e
               end)
      ∧ (∀ metric series,
           differential self "tumor" "normal" metric true (Some ["TP53"])
             true "fill_0" None = Ok (Some series) →
           Forall (fun x => isnan x = false) (s_values series)).
Proof.
  apply (differential_scores_case_against_control Examples.expression
           "tumor" "normal" true (Some ["TP53"]) "fill_0").
  - exact tcga_env_faithful.
  - cbn. set_solver.
  - cbn. set_solver.
  - discriminate.
  - exists "TCGA-A1-A0SB-01A". split_and!; [cbn; set_solver | done | done].
  - exists "TCGA-A1-A0SB-11A". split_and!; [cbn; set_solver | done | done].
Defined.

(** C3 as stated fails: the frame has a paired tumor and a paired normal
    sample, and with a metric that raises [StatisticsError] (as a standard
    deviation over a single sample does) [differential] returns [None], not
    a Series of scores. *)
Lemma differential_returns_None_on_StatisticsError :
  (∃ c, c ∈ columns Examples.expression
        ∧ is_paired Examples.expression "tumor" "normal" c = true
        ∧ class_of c = "tumor")
  ∧ (∃ c, c ∈ columns Examples.expression
          ∧ is_paired Examples.expression "tumor" "normal" c = true
          ∧ class_of c = "normal")
  ∧ differential Examples.expression "tumor" "normal"
      (metric_function (fun _ _ => Raise StatisticsError))
      true None true "fill_0" None = Ok None.
Proof.
  split_and!.
  - exists "TCGA-A1-A0SB-01A". split_and!; [cbn; set_solver | done | done].
  - exists "TCGA-A1-A0SB-11A". split_and!; [cbn; set_solver | done | done].
  - reflexivity.
Qed.

(** Without any gene the paired subset counts as empty, [split] returns
    [None], and unpacking it is a [TypeError]. *)
Lemma differential_without_genes_raises :
  differential Examples.expression_without_genes "tumor" "normal"
    signal_to_noise true None true "fill_0" None = Raise TypeError.
Proof. reflexivity. Qed.

(** An empty [limit_to] is falsy and restricts nothing. *)
Lemma differential_empty_limit_to_keeps_all_genes :
  differential Examples.expression "tumor" "normal" signal_to_noise true
    (Some []) true "fill_0" None
  = differential Examples.expression "tumor" "normal" signal_to_noise true
      None true "fill_0" None.
Proof. reflexivity. Qed.

End TcgaProps.

(* ===================================================================== *)
(** * Properties of layers.py                                             *)
(* ===================================================================== *)

Module LayersProps.
Import Layers.

(** ** The constructor of [Layers] *)

(** A loop whose body makes one new object per item and binds the item's
    key to it only ever appends to the store; the dict it builds has the
    keys of the items besides those it started with. *)
Lemma foldM_appends
    (body : gmap string loc → string * loc → M store (gmap string loc))
    (items : list (string * loc)) (acc : gmap string loc) (h : store) :
  (∀ acc kv (h : store),
     is_Some (h !! snd kv) →
     ∃ df, body acc kv h = (Ok (<[fst kv := List.length h]> acc), h ++ [df])) →
  (∀ kv, kv ∈ items → is_Some (h !! snd kv)) →
  ∃ layers ext,
    foldM body items acc h = (Ok layers, h ++ ext)
    ∧ (∀ k, is_Some (layers !! k) ↔ k ∈ items.*1 ∨ is_Some (acc !! k))
    ∧ (∀ k v, layers !! k = Some v →
              acc !! k = Some v ∨ v < List.length (h ++ ext)).
Proof.
  intros Hbody. revert acc h.
  induction items as [|kv items IH]; intros acc h Hvalid.
  - exists acc, []. rewrite app_nil_r. split_and!; [done | | by left].
    intros k. split; [by right|]. intros [?%elem_of_nil|?]; done.
  - destruct (Hbody acc kv h) as [df Hstep]; [apply Hvalid; left|].
    destruct (IH (<[fst kv := List.length h]> acc) (h ++ [df]))
      as (layers & ext & Hfold & Hdom & Hlocs).
    { intros kv' Hkv'. apply lookup_lt_is_Some. rewrite length_app.
      assert (is_Some (h !! snd kv')) as Hs by (apply Hvalid; by right).
      apply lookup_lt_is_Some in Hs. lia. }
    exists layers, ([df] ++ ext).
    cbn [foldM]. unfold bind at 1. rewrite Hstep, app_assoc.
    split_and!; [done | |].
    + intros k. rewrite Hdom, fmap_cons, elem_of_cons.
      rewrite lookup_insert_is_Some. destruct (decide (fst kv = k)); naive_solver.
    + intros k v Hk. destruct (Hlocs k v Hk) as [Hacc|Hlt]; [|by right].
      destruct (decide (fst kv = k)) as [<-|Hne].
      * rewrite lookup_insert_eq in Hacc. injection Hacc as <-. right.
        rewrite !length_app. cbn. lia.
      * rewrite lookup_insert_ne in Hacc by done. by left.
Qed.

Lemma copy_body_appends (acc : gmap string loc) (kv : string * loc)
    (h : store) :
  is_Some (h !! snd kv) →
  ∃ df, (do copy <~ deepcopy (snd kv) ;; ret (<[fst kv := copy]> acc))%py h
        = (Ok (<[fst kv := List.length h]> acc), h ++ [df]).
Proof.
  intros [df Hdf]. exists df.
  unfold bind, deepcopy, bind, deref, read, new, alloc, ret. by rewrite Hdf.
Qed.

Lemma filter_body_appends (func : Label → bool) (acc : gmap string loc)
    (kv : string * loc) (h : store) :
  is_Some (h !! snd kv) →
  ∃ df, (do v <~ deref (snd kv) ;;
         do v' <~ new (getitem_mask v (map func (index v))) ;;
         ret (<[fst kv := v']> acc))%py h
        = (Ok (<[fst kv := List.length h]> acc), h ++ [df]).
Proof.
  intros [df Hdf]. eexists.
  unfold bind, deref, read, new, alloc, ret. by rewrite Hdf.
Qed.

(** The second loop of the constructor: every item rebinds its key to the
    caller's object, after mapping the index of that object in place, once
    per item. *)
Lemma foldM_remap (mapper : Label → Label) (items : list (string * loc))
    (layers : gmap string loc) (h : store) :
  (∀ kv, kv ∈ items → snd kv < List.length h) →
  ∃ h',
    foldM (fun (layers : gmap string loc) (kv : string * loc) =>
             do _ <~ set_index_map mapper (snd kv) ;;
             ret (<[fst kv := snd kv]> layers))%py items layers h
    = (Ok (insert_all items layers), h')
    ∧ List.length h' = List.length h
    ∧ (∀ i df, h !! i = Some df →
               h' !! i = Some (Nat.iter (count_loc i items) (remap mapper) df)).
Proof.
  revert layers h. induction items as [|[k v] items IH]; intros layers h Hvalid.
  - exists h. by split_and!.
  - assert (Hv : v < List.length h) by (apply (Hvalid (k, v)); left).
    destruct (lookup_lt_is_Some_2 h v Hv) as [df0 Hdf0].
    destruct (IH (<[k := v]> layers) (<[v := remap mapper df0]> h))
      as (h' & Hfold & Hlen & Hh').
    { intros kv Hkv. rewrite length_insert. apply Hvalid. by right. }
    exists h'. split_and!.
    + cbn [foldM]. unfold bind at 1. unfold bind at 1.
      unfold set_index_map, bind, deref, read, write, ret. cbn [fst snd].
      rewrite Hdf0. exact Hfold.
    + by rewrite Hlen, length_insert.
    + intros i df Hi. unfold count_loc. cbn [List.filter snd].
      destruct (Nat.eqb_spec v i) as [->|Hne].
      * rewrite Hi in Hdf0. injection Hdf0 as ->.
        cbn [List.length]. rewrite Nat.iter_succ_r.
        apply Hh'. by rewrite list_lookup_insert_eq.
      * apply Hh'. by rewrite list_lookup_insert_ne.
Qed.

Lemma insert_all_union (items : list (string * loc)) (d : gmap string loc) :
  NoDup items.*1 →
  insert_all items d = list_to_map items ∪ d.
Proof.
  revert d. induction items as [|[k v] items IH]; intros d Hnd.
  - cbn. by rewrite (left_id_L ∅ (∪)).
  - apply NoDup_cons in Hnd as [Hk Hnd]. cbn [insert_all fold_left fst snd].
    fold (insert_all items (<[k := v]> d)). rewrite IH by done.
    rewrite list_to_map_cons, <- insert_union_l.
    symmetry. apply insert_union_r. by apply not_elem_of_list_to_map_1.
Qed.

(** Rebinding every key of [data] in a dict that has no other key leaves
    [data]. *)
Lemma insert_all_data (data layers : gmap string loc) :
  (∀ k, is_Some (layers !! k) → is_Some (data !! k)) →
  insert_all (map_to_list data) layers = data.
Proof.
  intros Hdom. rewrite insert_all_union by apply NoDup_fst_map_to_list.
  rewrite list_to_map_to_list. apply map_eq. intros k.
  rewrite lookup_union. destruct (data !! k) as [v|] eqn:Hk.
  - by destruct (layers !! k).
  - destruct (layers !! k) as [v|] eqn:Hl; [|done].
    destruct (Hdom k) as [? ?]; [by eexists | congruence].
Qed.

Lemma map_to_list_keys (m : gmap string loc) k :
  k ∈ (map_to_list m).*1 ↔ is_Some (m !! k).
Proof.
  rewrite list_elem_of_fmap. split.
  - intros ([k' v] & -> & Hkv). apply elem_of_map_to_list in Hkv. by eexists.
  - intros [v Hv]. exists (k, v). split; [done|].
    by apply elem_of_map_to_list.
Qed.

(** Let the values of [data] be frames of the store.  After
    [Layers(data, mapper, filter)], [layers] binds every key of [data] to
    the caller's own frame object, and that object has had [mapper] applied
    to its index once for each key of [data] that holds it: once when the
    object is held under a single key.  The [filter] argument has no effect
    on this, since the filtered copies are overwritten; the frames of the
    store that [data] does not hold are unchanged. *)
Theorem init_rebinds_remapped_inputs
    (data : gmap string loc) (mapper : Label → Label) (filter : Label → bool)
    (h : store) :
  (∀ k v, data !! k = Some v → is_Some (read h v)) →
  ∃ h',
    init data mapper filter h = (Ok data, h')
    ∧ (∀ v df, read h v = Some df →
               read h' v
               = Some (Nat.iter (occurrences v data) (remap mapper) df))
    ∧ (∀ k v df, data !! k = Some v → read h v = Some df →
                 occurrences v data = 1 →
                 read h' v = Some (with_index (map mapper (index df)) df)).
Proof.
  intros Hvalid. unfold read in *.
  assert (Hitems : ∀ kv, kv ∈ map_to_list data → is_Some (h !! snd kv)).
  { intros [k v] Hkv. apply elem_of_map_to_list in Hkv. by eapply Hvalid. }
  destruct (foldM_appends
              (fun layers kv => do copy <~ deepcopy (snd kv) ;;
                                ret (<[fst kv := copy]> layers))%py
              (map_to_list data) ∅ h) as (layers1 & ext1 & Hcopy & Hdom1 & Hloc1);
    [apply copy_body_appends | done |].
  destruct (foldM_appends
              (fun acc kv =>
                 do v <~ deref (snd kv) ;;
                 do v' <~ new (getitem_mask v (map filter (index v))) ;;
                 ret (<[fst kv := v']> acc))%py
              (map_to_list layers1) ∅ (h ++ ext1))
    as (layers2 & ext2 & Hfilter & Hdom2 & _);
    [apply filter_body_appends | |].
  { intros [k v] Hkv. apply elem_of_map_to_list in Hkv. cbn.
    apply lookup_lt_is_Some.
    destruct (Hloc1 k v Hkv) as [Hempty|Hlt]; [|done].
    by rewrite lookup_empty in Hempty. }
  destruct (foldM_remap mapper (map_to_list data) layers2
              ((h ++ ext1) ++ ext2)) as (h' & Hremap & Hlen & Hh').
  { intros kv Hkv. apply Hitems, lookup_lt_is_Some in Hkv.
    rewrite !length_app. lia. }
  exists h'.
  assert (Hread : ∀ v df, h !! v = Some df →
            h' !! v = Some (Nat.iter (occurrences v data) (remap mapper) df)).
  { intros v df Hv. apply Hh'.
    by rewrite <- app_assoc, (lookup_app_l_Some _ _ _ _ Hv). }
  split_and!.
  - unfold init, filter_layers. unfold bind at 1. rewrite Hcopy.
    unfold bind at 1. rewrite Hfilter. rewrite Hremap. do 2 f_equal.
    apply insert_all_data. intros k Hk.
    apply Hdom2 in Hk as [Hk|Hk]; [|by rewrite lookup_empty in Hk; destruct Hk].
    apply map_to_list_keys, Hdom1 in Hk as [Hk|Hk];
      [|by rewrite lookup_empty in Hk; destruct Hk].
    by apply map_to_list_keys.
  - done.
  - intros k v df _ Hv Hone. rewrite (Hread v df Hv), Hone. done.
Qed.

Section WithSequences.
Context `{ProteinSequences}.

Lemma fmul_nan (x : float) : fmul x nan = nan.
Proof. by destruct x. Qed.

Lemma normalize_known recover (column : Column) protein_length :
  average_length (Some (fst column)) = Ok protein_length →
  normalize recover column
  = Ok (fst column, map (fun x => fdiv x protein_length) (snd column)).
Proof. unfold normalize. by intros ->. Qed.

Lemma normalize_recovers (column : Column) average :
  lookup_fails (fst column) →
  average_length None = Ok average →
  normalize true column
  = Ok (fst column, map (fun x => fdiv x average) (snd column)).
Proof. unfold normalize. by intros [-> | ->] ->. Qed.

Lemma normalize_gives_up (column : Column) :
  lookup_fails (fst column) →
  normalize false column = Ok (fst column, map (fun _ => nan) (snd column)).
Proof.
  unfold normalize. intros [-> | ->]; do 2 f_equal;
    apply map_ext; intros x; apply fmul_nan.
Qed.

(** One column: [normalize] returns, and what it returns is what the
    specification says. *)
Lemma normalize_as_specified recover (column : Column) :
  is_ok (average_length (Some (fst column))) = true
    ∨ lookup_fails (fst column) →
  (lookup_fails (fst column) → recover = true →
   is_ok (average_length None) = true) →
  ∃ out, normalize recover column = Ok out
         ∧ normalized_as_specified recover column out.
Proof.
  intros Hlookup Haverage. unfold normalized_as_specified.
  destruct (average_length (Some (fst column))) as [len|e] eqn:Hlen.
  - eexists. split; [by apply normalize_known|]. done.
  - destruct Hlookup as [?|Hfails]; [done|].
    destruct recover.
    + specialize (Haverage Hfails eq_refl).
      destruct (average_length None) as [average|] eqn:Havg; [|done].
      eexists. split; [by apply normalize_recovers|].
      cbn. eauto.
    + eexists. split; [by apply normalize_gives_up|]. done.
Qed.

(** C10.  Let the length lookup of every column's protein either succeed or
    fail with one of the two exceptions that [normalize] catches, and, when
    [recover] is set and some lookup fails, let the overall average length
    exist.  Then [normalize_by_protein_length(recover)] returns a frame
    with the same rows and the same column names, in which a column with a
    known protein length is its input divided cell by cell by that length,
    and a column whose lookup failed is its input divided by the overall
    average length when [recover] is true, and all NaN when it is false. *)
Theorem normalize_by_protein_length_divides_columns
    (self : DataFrame) (recover : bool) :
  (∀ c, c ∈ cols self →
        is_ok (average_length (Some (fst c))) = true ∨ lookup_fails (fst c)) →
  (∀ c, c ∈ cols self → lookup_fails (fst c) → recover = true →
        is_ok (average_length None) = true) →
  ∃ out,
    normalize_by_protein_length self recover = Ok out
    ∧ index out = index self
    ∧ columns out = columns self
    ∧ Forall2 (normalized_as_specified recover) (cols self) (cols out).
Proof.
  intros Hlookup Haverage. unfold normalize_by_protein_length, columns.
  assert (Hcols : ∃ normalized,
            res_mapM (normalize recover) (cols self) = Ok normalized
            ∧ map fst normalized = map fst (cols self)
            ∧ Forall2 (normalized_as_specified recover) (cols self) normalized).
  { induction (cols self) as [|c cs IH].
    - exists []. by repeat split.
    - destruct (normalize_as_specified recover c) as (out & Hout & Hspec).
      + apply Hlookup. left.
      + apply Haverage. left.
      + destruct IH as (outs & Houts & Hnames & Hspecs).
        * intros c' Hc'. apply Hlookup. by right.
        * intros c' Hc'. apply Haverage. by right.
        * exists (out :: outs). cbn. rewrite Hout, Houts.
          split_and!; [done | | by constructor].
          destruct Hspec as [-> _]. by rewrite Hnames. }
  destruct Hcols as (normalized & -> & Hnames & Hspecs).
  eexists. by split_and!.
Qed.

End WithSequences.

#[local] Existing Instance Examples.sequences.

Lemma normalize_by_protein_length_divides_columns_witness :
  ∃ out,
    normalize_by_protein_length Examples.mutations true = Ok out
    ∧ index out = index Examples.mutations
    ∧ columns out = columns Examples.mutations
    ∧ Forall2 (normalized_as_specified true) (cols Examples.mutations)
        (cols out).
Proof.
  apply (normalize_by_protein_length_divides_columns Examples.mutations true).
  - intros c Hc. apply list_elem_of_In in Hc. cbn in Hc.
    destruct Hc as [<-|[<-|[]]]; [by left | right; by right].
  - done.
Defined.

Lemma init_rebinds_remapped_inputs_witness :
  let h := [Examples.mutations; Examples.mutations] in
  let data := Examples.separate_data in
  ∃ h',
    init data Examples.add_prefix (fun _ => false) h = (Ok data, h')
    ∧ (∀ v df, read h v = Some df →
               read h' v
               = Some (Nat.iter (occurrences v data)
                         (remap Examples.add_prefix) df))
    ∧ (∀ k v df, data !! k = Some v → read h v = Some df →
                 occurrences v data = 1 →
                 read h' v
                 = Some (with_index (map Examples.add_prefix (index df)) df)).
Proof.
  apply (init_rebinds_remapped_inputs Examples.separate_data
           Examples.add_prefix (fun _ => false)
           [Examples.mutations; Examples.mutations]).
  intros k v Hk. unfold Examples.separate_data in Hk.
  apply lookup_insert_Some in Hk as [[_ <-]|[_ Hk]]; [by eexists|].
  apply lookup_singleton_Some in Hk as [_ <-]. by eexists.
Defined.

(** C9.  The code at the failing input: one frame object passed under two
    keys.  [Layers(data, mapper)] returns the layers bound to that object,
    whose index has had [mapper] applied twice, once by each turn of the
    second loop: the stored layer is not the caller's frame with [mapper]
    applied to its index. *)
Lemma init_maps_shared_frame_twice :
  let result :=
    init Examples.shared_data Examples.add_prefix (fun _ => true)
      [Examples.mutations] in
  fst result = Ok Examples.shared_data
  ∧ Examples.shared_data !! "expression" = Some 0%nat
  ∧ (index <$> read (snd result) 0%nat)
    = Some ["TCGA-TCGA-A0SB"; "TCGA-TCGA-A0SD"]
  ∧ read (snd result) 0%nat
    ≠ Some (with_index (map Examples.add_prefix (index Examples.mutations))
              Examples.mutations).
Proof.
  split_and!.
  - vm_compute. reflexivity.
  - reflexivity.
  - vm_compute. reflexivity.
  - vm_compute. discriminate.
Qed.

End LayersProps.


(* ===================================================================== *)
(** * More on gsva.py: what a call leaves behind                          *)
(* ===================================================================== *)

Module GsvaFrame.
Import Gsva GsvaProps.

Section WithEngine.
Context `{Engine}.

Lemma only_adds_refl (s : state) outcome : only_adds s s outcome.
Proof.
  unfold only_adds. split_and!; try lia; try done.
  - by destruct (GSVA_CACHE s).
  - exists []. rewrite app_nil_r. split; [done | cbn; lia].
Qed.

Lemma gsva_only_adds_outcome expression gene_sets method single_sample
    permutations mx_diff _cache (s s' : state) outcome :
  gsva expression gene_sets method single_sample permutations mx_diff _cache s
  = (outcome, s') →
  only_adds s s' outcome.
Proof.
  unfold gsva.
  destruct (negb single_sample && truthy permutations);
    [intros [= <- <-]; apply only_adds_refl|].
  destruct (GSVA_CACHE s) as [cache|] eqn:Hc;
    [|intros [= <- <-]; apply only_adds_refl].
  cbn zeta. destruct (cache !! _) as [l|] eqn:Hk;
    [intros [= <- <-]; apply only_adds_refl|].
  destruct (single_sample && negb (is_Profile expression));
    [intros [= <- <-]; apply only_adds_refl|].
  destruct (r_gsva _ _ _ _ _ _ _) as [[table|e] r'].
  - cbn. intros [= <- <-]. unfold only_adds. rewrite Hc. cbn.
    split_and!; try lia; try done.
    + destruct _cache; [by apply insert_subseteq | done].
    + exists [table]. split; [done | cbn; lia].
  - intros [= <- <-]. unfold only_adds. cbn. rewrite Hc.
    split_and!; try lia; try done.
    exists []. rewrite app_nil_r. split; [done | cbn; lia].
Qed.

(** [gsva] only ever adds: whatever the arguments, the bindings of
    [GSVA_CACHE] that existed before the call exist after it, with the same
    objects, the stored tables are the same with at most one new table after
    them, and the counter moves up by at most one.  When the call raises,
    the cache, the tables and the counter are exactly as before. *)
Theorem gsva_only_adds expression gene_sets method single_sample permutations
    mx_diff _cache (s : state) :
  let call := gsva expression gene_sets method single_sample permutations
                mx_diff _cache s in
  only_adds s (snd call) (fst call).
Proof.
  intros call. apply (gsva_only_adds_outcome expression gene_sets method
                        single_sample permutations mx_diff _cache).
  apply surjective_pairing.
Qed.

Lemma gsva_cache_valid_step expression gene_sets method single_sample
    permutations mx_diff _cache (s s' : state) outcome :
  cache_valid s →
  gsva expression gene_sets method single_sample permutations mx_diff _cache s
  = (outcome, s') →
  cache_valid s'
  ∧ (∀ result, outcome = Ok result → is_Some (read (heap s') result)).
Proof.
  intros Hvalid. unfold gsva.
  destruct (negb single_sample && truthy permutations);
    [by intros [= <- <-]|].
  destruct (GSVA_CACHE s) as [cache|] eqn:Hc; [|by intros [= <- <-]].
  cbn zeta. destruct (cache !! _) as [l|] eqn:Hk.
  { intros [= <- <-]. split; [done|]. intros result [= <-]. by eapply Hvalid. }
  destruct (single_sample && negb (is_Profile expression));
    [by intros [= <- <-]|].
  destruct (r_gsva _ _ _ _ _ _ _) as [[table|e] r'].
  - cbn. intros [= <- <-]. unfold read. split.
    + intros cache' key result [= <-] Hkey. cbn.
      apply lookup_lt_is_Some. rewrite length_app. cbn.
      assert (cache !! key = Some result → result < List.length (heap s)).
      { intros Hin. by eapply lookup_lt_is_Some, Hvalid. }
      destruct _cache; [|by (apply Nat.lt_lt_add_r; auto)].
      apply lookup_insert_Some in Hkey as [[_ <-]|[_ Hkey]]; [lia|].
      apply Nat.lt_lt_add_r; auto.
    + intros result [= <-]. cbn. apply lookup_lt_is_Some.
      rewrite length_app. cbn. lia.
  - intros [= <- <-]. split; [|done].
    intros cache' key result Hc' Hkey. cbn in *. by eapply Hvalid.
Qed.

(** The cache never names an object that is not in the store: [gsva] keeps
    this, and the object it returns is in the store. *)
Theorem gsva_keeps_cache_valid expression gene_sets method single_sample
    permutations mx_diff _cache (s s' : state) outcome :
  cache_valid s →
  gsva expression gene_sets method single_sample permutations mx_diff _cache s
  = (outcome, s') →
  cache_valid s'
  ∧ (∀ result, outcome = Ok result → is_Some (read (heap s') result)).
Proof. apply gsva_cache_valid_step. Qed.

(** ** The removal of the gene sets above the cutoff *)

Lemma select_mask_length {A B} (mask : list bool) (l : list A) (k : list B) :
  List.length l = List.length k →
  List.length (select_mask mask l) = List.length (select_mask mask k).
Proof.
  revert l k. induction mask as [|b mask IH]; intros [|x l] [|y k] Hlen;
    try done. cbn in *. destruct b; cbn; rewrite (IH l k); lia.
Qed.

Lemma select_mask_all {A} (l : list A) (mask : list bool) :
  List.length mask = List.length l →
  Forall (fun b => b = true) mask →
  select_mask mask l = l.
Proof.
  revert l. induction mask as [|b mask IH]; intros [|x l] Hlen Hall;
    try done. apply Forall_cons in Hall as [-> Hall]. cbn.
  rewrite IH; [done | by injection Hlen | done].
Qed.

Lemma getitem_getitem_mask (df : DataFrame) (mask : list bool) name :
  getitem (getitem_mask df mask) name
  = match getitem df name with
    | Ok column => Ok (select_mask mask column)
    | Raise e => Raise e
    end.
Proof.
  unfold getitem, cols_named, getitem_mask. cbn [cols].
  induction (cols df) as [|c cs IH]; [done|]. cbn [map].
  destruct (String.eqb_spec (fst c) name) as [Heq|Hne].
  - rewrite !filter_cons_True by (cbn; by apply Is_true_true, String.eqb_eq).
    done.
  - rewrite !filter_cons_False
      by (cbn; rewrite Is_true_true, String.eqb_eq; done).
    apply IH.
Qed.

Lemma getitem_mask_well_formed (df : DataFrame) (mask : list bool) :
  well_formed df → well_formed (getitem_mask df mask).
Proof.
  unfold well_formed, getitem_mask. cbn [cols index]. intros Hwf.
  apply Forall_forall. intros c Hc.
  apply list_elem_of_In, in_map_iff in Hc as (c0 & <- & Hc0). cbn.
  apply select_mask_length. eapply (proj1 (Forall_forall _ _) Hwf).
  by apply list_elem_of_In.
Qed.

Lemma getitem_mask_all (df : DataFrame) (mask : list bool) :
  well_formed df →
  List.length mask = List.length (index df) →
  Forall (fun b => b = true) mask →
  getitem_mask df mask = df.
Proof.
  intros Hwf Hlen Hall. destruct df as [idx cs]. unfold getitem_mask.
  cbn [index cols] in *. f_equal; [by apply select_mask_all|].
  unfold well_formed in Hwf. cbn [cols index] in Hwf.
  induction Hwf as [|c cs Hc Hwf IH]; [done|]. cbn [map]. f_equal; [|done].
  destruct c as [n cells]. cbn in *. f_equal.
  apply select_mask_all; [congruence | done].
Qed.

(** A q-value that survives the removal by label is not above the
    cutoff: a row above the cutoff has its own label removed. *)
Lemma survivors_not_above (above : float → bool) (labels removed : list Label)
    (fdr : list float) :
  (∀ g, g ∈ select_mask (map above fdr) labels → g ∈ removed) →
  Forall (fun q => above q = false)
    (select_mask (map (fun g => negb (existsb (String.eqb g) removed)) labels)
                 fdr).
Proof.
  revert fdr. induction labels as [|g labels IH]; intros [|q fdr] Hsub;
    cbn; try done.
  cbn in Hsub. destruct (existsb (String.eqb g) removed) eqn:Hg; cbn.
  - apply IH. intros g' Hg'. apply Hsub. destruct (above q); [by right|done].
  - destruct (above q) eqn:Hq.
    + exfalso. apply not_true_iff_false in Hg. apply Hg.
      apply PandasProps.existsb_eqb_elem, Hsub. left.
    + constructor; [done|]. by apply IH.
Qed.

Lemma select_mask_none {A} (f : float → bool) (fdr : list float) (l : list A) :
  Forall (fun q => f q = false) fdr → select_mask (map f fdr) l = [].
Proof.
  intros Hall. revert l. induction Hall as [|q fdr Hq _ IH]; intros [|x l];
    cbn; try done. by rewrite Hq.
Qed.

(** After [drop(..., inplace=True)] the table holds no gene set whose
    'fdr_q-val' is above the cutoff, whether or not its labels are
    distinct; it is still well formed, and doing the same removal again
    changes nothing. *)
Theorem drop_above_cutoff_leaves_none_above cutoff (l : loc) (s : state)
    table fdr :
  read (heap s) l = Some table →
  well_formed table →
  getitem table "fdr_q-val" = Ok fdr →
  ∃ table' fdr',
    drop_above_cutoff cutoff l s
    = (Ok tt, set_heap (write (heap s) l table') s)
    ∧ well_formed table'
    ∧ getitem table' "fdr_q-val" = Ok fdr'
    ∧ Forall (fun q => fgt q cutoff = false) fdr'
    ∧ drop_above_cutoff cutoff l (set_heap (write (heap s) l table') s)
      = (Ok tt, set_heap (write (heap s) l table') s).
Proof.
  intros Hread Hwf Hfdr. unfold drop_above_cutoff at 1. rewrite Hread, Hfdr.
  set (table' := drop_rows table _).
  assert (Hwf' : well_formed table') by by apply getitem_mask_well_formed.
  assert (Hfdr' : getitem table' "fdr_q-val"
            = Ok (select_mask
                    (map (fun g => negb (existsb (String.eqb g)
                            (masked_index table
                               (map (fun q => fgt q cutoff) fdr))))
                         (index table)) fdr)).
  { unfold table', drop_rows. by rewrite getitem_getitem_mask, Hfdr. }
  assert (Hnone : Forall (fun q => fgt q cutoff = false)
            (select_mask
               (map (fun g => negb (existsb (String.eqb g)
                       (masked_index table (map (fun q => fgt q cutoff) fdr))))
                    (index table)) fdr))
    by by apply (survivors_not_above (fun q => fgt q cutoff)).
  eexists table', _. split_and!; [done | done | exact Hfdr' | done |].
  unfold drop_above_cutoff. cbn [heap set_heap].
  assert (Hl : l < List.length (heap s)) by by eapply lookup_lt_Some.
  unfold read, write. rewrite list_lookup_insert_eq by done.
  rewrite Hfdr'. f_equal. unfold set_heap.
  cbn [GSVA_CACHE process_specific_counter heap r_session]. f_equal.
  rewrite list_insert_insert_eq. f_equal.
  unfold drop_rows, masked_index.
  rewrite (select_mask_none _ _ _ Hnone). cbn [existsb negb].
  apply getitem_mask_all; [done | by rewrite length_map |].
  apply Forall_forall. intros b Hb.
  by apply list_elem_of_In, in_map_iff in Hb as (? & <- & _).
Qed.

(** ** The scorer and the cache *)

Lemma respawn_keeps_cache_valid (s : state) :
  cache_valid s → cache_valid (snd (respawn_cache_if_needed s)).
Proof.
  unfold respawn_cache_if_needed, cache_valid.
  destruct (GSVA_CACHE s) as [cache|] eqn:Hc; cbn.
  - intros Hvalid cache0 key result Hc0. rewrite Hc in Hc0. by apply Hvalid.
  - intros _ cache key result [= <-] Hkey. by rewrite lookup_empty in Hkey.
Qed.

Lemma drop_keeps_cache_valid cutoff (l : loc) (s : state) :
  cache_valid s → cache_valid (snd (drop_above_cutoff cutoff l s)).
Proof.
  unfold drop_above_cutoff, cache_valid.
  destruct (read (heap s) l) as [table|]; [|done].
  destruct (getitem table "fdr_q-val") as [fdr|]; [|done].
  cbn. intros Hvalid cache key result Hc Hkey. unfold read, write.
  apply lookup_lt_is_Some. rewrite length_insert.
  by eapply lookup_lt_is_Some, Hvalid.
Qed.

(** The scorer keeps the invariant too: after [gsva_score], whether it
    returned or raised, every object that [GSVA_CACHE] names is in the
    store. *)
Theorem gsva_score_keeps_cache_valid cfg disease compound (s : state) :
  cache_valid s →
  cache_valid (snd (gsva_score cfg disease compound s)).
Proof.
  intros Hvalid. unfold gsva_score. unfold bind at 1.
  pose proof (respawn_keeps_cache_valid s Hvalid) as H0.
  destruct (respawn_cache_if_needed s) as [[[]|e] s0]; [|done].
  cbn [snd] in H0. unfold bind at 1.
  destruct (gsva disease _ _ _ _ _ true s0) as [[ld|e] s1] eqn:E1.
  2:{ by eapply gsva_cache_valid_step. }
  apply (gsva_cache_valid_step _ _ _ _ _ _ _ _ _ _ H0) in E1 as [H1 _].
  unfold bind at 1.
  pose proof (drop_keeps_cache_valid (q_value_cutoff cfg) ld s1 H1) as H2.
  destruct (drop_above_cutoff _ ld s1) as [[[]|e] s2]; [|done].
  cbn [snd] in H2. unfold bind at 1.
  destruct (gsva compound _ _ _ _ _ false s2) as [[lc|e] s3] eqn:E3.
  2:{ by eapply gsva_cache_valid_step. }
  apply (gsva_cache_valid_step _ _ _ _ _ _ _ _ _ _ H2) in E3 as [H3 _].
  unfold bind, deref, lift, ret.
  destruct (read (heap s3) ld); [|done].
  destruct (read (heap s3) lc); [|done].
  destruct (combine_gsea_results _ _ _); [|done].
  by destruct (score_column _).
Qed.

(** What a scoring leaves in the cache.  Under the conditions of the
    scorer's specification (configuration passing the guard, two profiles
    with different keys, neither cached, tables from the engine), the
    disease's key is afterwards bound to the disease table *as filtered*,
    rows above the cutoff removed; the compound's key is still unbound; two
    tables have been added to the store and the counter has gone up by
    two. *)
Theorem gsva_score_caches_filtered_disease_table
    cfg disease compound (s : state) td tc r1 r2 remaining :
  passes_guard (cfg_single_sample cfg) (cfg_permutations cfg) →
  (cfg_single_sample cfg = true →
   is_Profile disease = true ∧ is_Profile compound = true) →
  default ∅ (GSVA_CACHE s) !! key_of cfg disease = None →
  default ∅ (GSVA_CACHE s) !! key_of cfg compound = None →
  hashable disease ≠ hashable compound →
  r_gsva disease (cfg_gene_sets cfg) (cfg_method cfg) (cfg_single_sample cfg)
    (cfg_permutations cfg) (cfg_mx_diff cfg) (r_session s) = (Ok td, r1) →
  r_gsva compound (cfg_gene_sets cfg) (cfg_method cfg) (cfg_single_sample cfg)
    (cfg_permutations cfg) (cfg_mx_diff cfg)
    (collected (process_specific_counter s + 1) r1) = (Ok tc, r2) →
  well_formed td →
  NoDup (index td) →
  remaining_gene_sets (q_value_cutoff cfg) td = Ok remaining →
  let s' := snd (gsva_score cfg disease compound s) in
  GSVA_CACHE s'
  = Some (<[key_of cfg disease := List.length (heap s)]>
            (default ∅ (GSVA_CACHE s)))
  ∧ heap s' = heap s ++ [remaining; tc]
  ∧ process_specific_counter s' = (process_specific_counter s + 2)%Z.
Proof.
  intros Hg Hp Hkd Hkc Hne Hrd Hrc Hwf Hnd Hrem s'.
  set (cache := default ∅ (GSVA_CACHE s)) in *.
  assert (Hs' : s' = mkState
            (Some (<[key_of cfg disease := List.length (heap s)]> cache))
            (process_specific_counter s + 1 + 1)
            (write (heap s ++ [td]) (List.length (heap s)) remaining ++ [tc])
            (collected (process_specific_counter s + 1 + 1) r2)).
  { unfold s'. clear s'.
    set (s0 := set_cache (Some cache) s).
    assert (Hrespawn : respawn_cache_if_needed s = (Ok tt, s0)).
    { unfold respawn_cache_if_needed, s0, cache.
      destruct s as [[c|] n h r]; cbn; done. }
    unfold gsva_score, bind. rewrite Hrespawn.
    erewrite (gsva_miss disease _ _ _ _ _ true s0 cache td r1);
      [| done | done | done | intros Hs; by apply Hp | done].
    cbn [heap s0 set_cache process_specific_counter r_session].
    set (ld := List.length (heap s)).
    set (s1 := mkState _ _ _ _).
    assert (Hld : read (heap s1) ld = Some td).
    { cbn. unfold read, ld. by rewrite lookup_app_r, Nat.sub_diag. }
    rewrite (drop_above_cutoff_spec _ _ _ _ Hld Hwf Hnd), Hrem.
    set (s2 := set_heap _ s1).
    erewrite (gsva_miss compound _ _ _ _ _ false s2
                (<[key_of cfg disease := ld]> cache) tc r2);
      [| done | done | | intros Hs; by apply Hp | done]; cycle 1.
    { rewrite lookup_insert_ne; [done|]. unfold key_of. congruence. }
    cbn [heap s2 s1 set_heap process_specific_counter].
    assert (Hlen : List.length (write (heap s ++ [td]) ld remaining)
                   = S (List.length (heap s))).
    { unfold write. rewrite length_insert, length_app. cbn. lia. }
    unfold deref at 1. cbn [heap]. unfold read at 1.
    rewrite lookup_app_l by (rewrite Hlen; unfold ld; lia).
    unfold write at 1. rewrite list_lookup_insert_eq
      by (rewrite length_app; cbn; unfold ld; lia).
    unfold deref. cbn [heap]. unfold read.
    rewrite lookup_app_r, Nat.sub_diag by done. cbn [lookup list_lookup].
    unfold lift, collected.
    destruct (combine_gsea_results remaining tc (na_action cfg)) as [joined|e];
      [destruct (score_column joined) as [score|e]|]; done. }
  rewrite Hs'. cbn [GSVA_CACHE heap process_specific_counter].
  split_and!; [done | | lia].
  unfold write. rewrite insert_app_r_alt, Nat.sub_diag by done.
  cbn. by rewrite <- app_assoc.
Qed.

End WithEngine.

#[local] Existing Instance Examples.engine.

Lemma gsva_keeps_cache_valid_witness :
  cache_valid
    (snd (gsva Examples.disease_a "c2.cp.kegg" "gsva" false None true true
            Examples.fresh_state))
  ∧ (∀ result,
       fst (gsva Examples.disease_a "c2.cp.kegg" "gsva" false None true true
              Examples.fresh_state) = Ok result →
       is_Some (read (heap (snd (gsva Examples.disease_a "c2.cp.kegg" "gsva"
                                   false None true true Examples.fresh_state)))
                  result)).
Proof.
  apply (gsva_keeps_cache_valid (H := Examples.engine) Examples.disease_a
           "c2.cp.kegg" "gsva" false None true true Examples.fresh_state).
  - intros cache key result [= <-] Hkey. by rewrite lookup_empty in Hkey.
  - reflexivity.
Defined.

Lemma drop_above_cutoff_leaves_none_above_witness :
  ∃ table' fdr',
    drop_above_cutoff (Examples.f_of_Z 1) 0%nat Examples.cached_state
    = (Ok tt, set_heap (write (heap Examples.cached_state) 0%nat table')
                Examples.cached_state)
    ∧ well_formed table'
    ∧ getitem table' "fdr_q-val" = Ok fdr'
    ∧ Forall (fun q => fgt q (Examples.f_of_Z 1) = false) fdr'
    ∧ drop_above_cutoff (Examples.f_of_Z 1) 0%nat
        (set_heap (write (heap Examples.cached_state) 0%nat table')
           Examples.cached_state)
      = (Ok tt, set_heap (write (heap Examples.cached_state) 0%nat table')
                  Examples.cached_state).
Proof.
  apply (drop_above_cutoff_leaves_none_above (H := Examples.engine)
           (Examples.f_of_Z 1) 0%nat Examples.cached_state Examples.table_a
           [Examples.f_of_Z 0; Examples.f_of_Z 3; nan]).
  - reflexivity.
  - repeat constructor.
  - reflexivity.
Defined.

Lemma gsva_score_keeps_cache_valid_witness :
  cache_valid (snd (gsva_score Examples.default_config Examples.disease_a
                      Examples.compound_b Examples.cached_state)).
Proof.
  apply (gsva_score_keeps_cache_valid (H := Examples.engine)).
  intros cache key result [= <-] Hkey.
  apply lookup_singleton_Some in Hkey as [_ <-]. by eexists.
Defined.

Lemma gsva_score_caches_filtered_disease_table_witness :
  let s := Examples.fresh_state in
  let cfg := Examples.default_config in
  let s' := snd (gsva_score cfg Examples.disease_a Examples.compound_b s) in
  GSVA_CACHE s'
  = Some (<[key_of cfg Examples.disease_a := List.length (heap s)]>
            (default ∅ (GSVA_CACHE s)))
  ∧ heap s'
    = heap s ++ [drop_rows Examples.table_a ["KEGG_B"]; Examples.table_b]
  ∧ process_specific_counter s' = (process_specific_counter s + 2)%Z.
Proof.
  apply (gsva_score_caches_filtered_disease_table (H := Examples.engine)
           Examples.default_config Examples.disease_a Examples.compound_b
           Examples.fresh_state Examples.table_a Examples.table_b 1%nat 2%nat).
  - by right.
  - discriminate.
  - reflexivity.
  - reflexivity.
  - discriminate.
  - reflexivity.
  - reflexivity.
  - repeat constructor.
  - repeat (apply NoDup_cons_2; [set_solver|]). apply NoDup_nil_2.
  - reflexivity.
Defined.

End GsvaFrame.


(* ===================================================================== *)
(** * More on the pairing code                                            *)
(* ===================================================================== *)

Module TcgaMore.
Import Tcga PandasProps TcgaProps.

Section WithEnv.
Context `{Env}.

(** ** Grouping *)

Lemma filter_participant_other (p q : string) (samples : list TCGABarcode) :
  p ≠ q →
  filter (fun b => String.eqb (participant b) q)
    (filter (fun b => ¬ Is_true (String.eqb (participant b) p)) samples)
  = filter (fun b => String.eqb (participant b) q) samples.
Proof.
  intros Hne. induction samples as [|b samples IH]; [done|].
  destruct (String.eqb_spec (participant b) p) as [Hp|Hp].
  - rewrite (filter_cons_False _ b)
      by (intros Hn; apply Hn; by apply eqb_Is_true).
    rewrite (filter_cons_False _ b samples); [done|].
    rewrite eqb_Is_true. congruence.
  - rewrite (filter_cons_True _ b) by by rewrite eqb_Is_true.
    destruct (String.eqb_spec (participant b) q) as [Hq|Hq].
    + rewrite !filter_cons_True by by apply eqb_Is_true. by rewrite IH.
    + rewrite !filter_cons_False by by rewrite eqb_Is_true. done.
Qed.

Lemma concat_groups_Permutation (samples : list TCGABarcode)
    (ks : list string) :
  NoDup ks →
  (∀ b, b ∈ samples → participant b ∈ ks) →
  concat (map (fun p => filter (fun b => String.eqb (participant b) p) samples)
              ks)
  ≡ₚ samples.
Proof.
  intros Hnd. revert samples.
  induction Hnd as [|p ks Hp Hnd IH]; intros samples Hall.
  - destruct samples as [|b samples]; [done|].
    assert (Hb : participant b ∈ @nil string) by (apply Hall; left).
    by apply not_elem_of_nil in Hb.
  - cbn [map concat].
    etrans; [|apply (filter_app_complement
                       (fun b => Is_true (String.eqb (participant b) p)))].
    apply Permutation_app; [done|].
    rewrite <- (IH (filter (fun b => ¬ Is_true (String.eqb (participant b) p))
                      samples)).
    + apply Permutation_refl'. f_equal. apply map_ext_in. intros q Hq.
      symmetry. apply filter_participant_other. intros ->.
      by apply list_elem_of_In in Hq.
    + intros b [Hb Hin]%list_elem_of_filter.
      specialize (Hall b Hin). apply elem_of_cons in Hall as [Heq|?]; [|done].
      exfalso. apply Hb. by apply eqb_Is_true.
Qed.

(** [samples_by_participant] partitions the samples: one group per
    participant, no participant twice and no group empty, the group of a
    participant being all its samples in column order; together the groups
    hold every sample exactly as often as the frame has it. *)
Theorem samples_by_participant_partitions (self : ExpressionManager) :
  let groups := samples_by_participant self in
  NoDup (map fst groups)
  ∧ (∀ p g, (p, g) ∈ groups → g ≠ [] ∧ g = samples_of self p)
  ∧ (∀ b, b ∈ barcodes self → participant b ∈ map fst groups)
  ∧ concat (map snd groups) ≡ₚ barcodes self.
Proof.
  intros groups. unfold groups.
  destruct (samples_by_participant_groups self) as (ks & Hnd & Hks & ->).
  rewrite !map_map. cbn [fst snd]. rewrite map_id. split_and!.
  - done.
  - intros p g Hg. apply list_elem_of_In, in_map_iff in Hg as (q & [= <- <-] & Hq).
    split; [|done].
    apply list_elem_of_In, Hks in Hq as (b & Hb & Hp).
    intros Hnil. assert (Hin : b ∈ samples_of self q)
      by by apply samples_of_elem.
    rewrite Hnil in Hin. by apply not_elem_of_nil in Hin.
  - intros b Hb. apply Hks. eauto.
  - apply concat_groups_Permutation; [done|]. intros b Hb. apply Hks. eauto.
Qed.

(** ** Selections by type *)

Lemma whole_group_symmetric type_one type_two (samples : list TCGABarcode) :
  whole_group type_one type_two samples = whole_group type_two type_one samples.
Proof. unfold whole_group. by rewrite andb_comm. Qed.

Lemma paired_swap (self : ExpressionManager) type_one type_two :
  faithful →
  type_one ∈ sample_types → type_two ∈ sample_types →
  paired self type_one type_two None None
  = paired self type_two type_one None None.
Proof.
  intros Hf H1 H2. rewrite !paired_plain by done. f_equal.
  unfold paired_labels. do 2 f_equal. apply map_ext.
  intros g. apply whole_group_symmetric.
Qed.

(** Without [limit_to] and [spread], the order of the two types does not
    matter to [paired]. *)
Theorem paired_symmetric (self : ExpressionManager) type_one type_two :
  faithful →
  type_one ∈ sample_types → type_two ∈ sample_types →
  paired self type_one type_two None None
  = paired self type_two type_one None None.
Proof. apply paired_swap. Qed.

Lemma labels_of_type (names : list string) type_name :
  faithful →
  map barcode (filter (fun b => String.eqb (sample_type b) type_name)
                      (map parse_barcode names))
  = select_mask
      (map (fun c => String.eqb c type_name)
           (map sample_type (map parse_barcode names)))
      names.
Proof.
  intros Hf. induction names as [|c names IH]; [done|]. cbn [map select_mask].
  destruct (String.eqb_spec (sample_type (parse_barcode c)) type_name).
  - rewrite filter_cons_True by by apply eqb_Is_true.
    cbn [map]. by rewrite (barcode_of_column Hf), IH.
  - rewrite filter_cons_False by by rewrite eqb_Is_true. done.
Qed.

(** [limit_to_sample_type] and [by_sample_type] without pairing are two
    ways to the same frame: for a sample type, both return the columns of
    [self] whose class is that type, over the rows of [self]. *)
Theorem limit_to_sample_type_is_by_sample_type
    (self : ExpressionManager) type_name :
  faithful →
  type_name ∈ sample_types →
  limit_to_sample_type self type_name = by_sample_type self type_name None
  ∧ ∃ sub,
      by_sample_type self type_name None = Ok sub
      ∧ index sub = index self
      ∧ (∀ column,
           column ∈ cols sub
           ↔ column ∈ cols self ∧ class_of (fst column) = type_name)
      ∧ (NoDup (columns self) → cols sub = columns_in_class self type_name).
Proof.
  intros Hf Ht. split.
  - unfold limit_to_sample_type, barcodes_for_type, by_sample_type.
    replace (existsb (String.eqb type_name) sample_types) with true
      by (symmetry; by apply existsb_eqb_elem).
    cbn [negb res_bind str_truthy]. f_equal.
    unfold columns_of_class, classes, barcodes. by apply labels_of_type.
  - unfold by_sample_type. cbn [str_truthy res_bind].
    apply class_selection.
Qed.

(** An unknown type name is an [AssertionError] for
    [limit_to_sample_type], while [by_sample_type] does not check it. *)
Lemma limit_to_sample_type_unknown (self : ExpressionManager) type_name :
  type_name ∉ sample_types →
  limit_to_sample_type self type_name = Raise AssertionError.
Proof.
  intros Ht. unfold limit_to_sample_type, barcodes_for_type.
  by rewrite (existsb_eqb_not_elem _ _ Ht).
Qed.

(** What [split] returns is made of columns of [self] of paired
    participants, by class. *)
Lemma split_members (self : ExpressionManager) case_ control_ cases controls :
  faithful →
  case_ ∈ sample_types → control_ ∈ sample_types →
  split self case_ control_ true = Ok (Some (cases, controls)) →
  (∀ column,
     column ∈ cols cases
     ↔ column ∈ cols self
       ∧ is_paired self case_ control_ (fst column) = true
       ∧ class_of (fst column) = case_)
  ∧ (∀ column,
       column ∈ cols controls
       ↔ column ∈ cols self
         ∧ is_paired self case_ control_ (fst column) = true
         ∧ class_of (fst column) = control_).
Proof.
  intros Hf H1 H2. unfold split.
  rewrite (paired_plain_ok self _ _ Hf H1 H2). cbn [res_bind].
  set (subset := {| index := index self; cols := _ |}).
  destruct (empty subset); [done|].
  destruct (class_selection subset case_) as (c1 & -> & _ & Hm1 & _).
  destruct (class_selection subset control_) as (c2 & -> & _ & Hm2 & _).
  cbn [res_bind]. intros [= <- <-].
  assert (Hsub : ∀ column, column ∈ cols subset
            ↔ column ∈ cols self
              ∧ is_paired self case_ control_ (fst column) = true)
    by (intros column; by apply paired_cols_elem).
  split; intros column; [rewrite Hm1 | rewrite Hm2]; rewrite Hsub; tauto.
Qed.

Lemma column_of_label (self : ExpressionManager) c :
  c ∈ columns self → ∃ column, column ∈ cols self ∧ fst column = c.
Proof.
  intros Hc. apply list_elem_of_In, in_map_iff in Hc as (column & <- & Hc).
  exists column. by rewrite list_elem_of_In.
Qed.

(** A participant with a sample of a type has a column of that class. *)
Lemma has_sample_column (self : ExpressionManager) p t :
  faithful →
  has_sample self p t = true →
  ∃ column, column ∈ cols self
            ∧ participant (parse_barcode (fst column)) = p
            ∧ class_of (fst column) = t.
Proof.
  intros Hf (b & Hb)%nonempty_elem.
  apply of_type_elem in Hb as [Hb Ht]. apply samples_of_elem in Hb as [Hb Hp].
  apply barcodes_elem in Hb as (c & Hc & ->).
  destruct (column_of_label self c Hc) as (column & Hcol & <-).
  by exists column.
Qed.

(** [split] pairs: every participant that has a column among the cases has
    one among the controls, and the other way round. *)
Theorem split_pairs_participants
    (self : ExpressionManager) case_ control_ cases controls :
  faithful →
  case_ ∈ sample_types → control_ ∈ sample_types →
  split self case_ control_ true = Ok (Some (cases, controls)) →
  (∀ column, column ∈ cols cases →
     ∃ column', column' ∈ cols controls
                ∧ participant (parse_barcode (fst column'))
                  = participant (parse_barcode (fst column)))
  ∧ (∀ column, column ∈ cols controls →
       ∃ column', column' ∈ cols cases
                  ∧ participant (parse_barcode (fst column'))
                    = participant (parse_barcode (fst column))).
Proof.
  intros Hf H1 H2 Hsplit.
  destruct (split_members _ _ _ _ _ Hf H1 H2 Hsplit) as [Hm1 Hm2].
  split; intros column Hc.
  - apply Hm1 in Hc as (Hc & Hp & Ht).
    pose proof Hp as Hp'. unfold is_paired in Hp'.
    apply andb_true_iff in Hp' as [_ Hk].
    destruct (has_sample_column _ _ _ Hf Hk) as (column' & Hc' & Hpart & Ht').
    exists column'. split; [|done]. apply Hm2. split_and!; [done | | done].
    unfold is_paired. rewrite Hpart. exact Hp.
  - apply Hm2 in Hc as (Hc & Hp & Ht).
    pose proof Hp as Hp'. unfold is_paired in Hp'.
    apply andb_true_iff in Hp' as [Hk _].
    destruct (has_sample_column _ _ _ Hf Hk) as (column' & Hc' & Hpart & Ht').
    exists column'. split; [|done]. apply Hm1. split_and!; [done | | done].
    unfold is_paired. rewrite Hpart. exact Hp.
Qed.

(** [split] is [by_sample_type] twice: when the paired subset is not
    empty, the cases are [by_sample_type(case_, paired_against=control_)]
    and the controls [by_sample_type(control_, paired_against=case_)]. *)
Theorem split_is_by_sample_type_twice
    (self : ExpressionManager) case_ control_ cases controls :
  faithful →
  case_ ∈ sample_types → control_ ∈ sample_types →
  case_ ≠ "" → control_ ≠ "" →
  split self case_ control_ true = Ok (Some (cases, controls)) →
  by_sample_type self case_ (Some control_) = Ok cases
  ∧ by_sample_type self control_ (Some case_) = Ok controls.
Proof.
  intros Hf H1 H2 Hn1 Hn2. unfold split, by_sample_type.
  cbn [str_truthy default from_option id].
  replace (String.eqb control_ "") with false
    by (symmetry; by apply String.eqb_neq).
  replace (String.eqb case_ "") with false
    by (symmetry; by apply String.eqb_neq).
  cbn [negb]. rewrite (paired_swap self control_ case_ Hf H2 H1).
  destruct (paired self case_ control_ None None) as [subset|]; [|done].
  cbn [res_bind]. destruct (empty subset); [done|].
  destruct (getitem_columns subset (columns_of_class subset case_));
    [|done].
  destruct (getitem_columns subset (columns_of_class subset control_));
    [|done].
  cbn [res_bind]. by intros [= <- <-].
Qed.

(** ** Unknown type names *)

Lemma dict_get_by_type_unknown (samples : list TCGABarcode) (t : string) :
  t ∉ sample_types → dict_get t (by_type samples) = Raise KeyError.
Proof.
  unfold by_type. induction sample_types as [|t' ts IH]; intros Ht; [done|].
  cbn. apply not_elem_of_cons in Ht as [Hne Ht].
  destruct (String.eqb_spec t' t) as [->|_]; [done|]. by apply IH.
Qed.

Lemma paired_samples_unknown_one type_one type_two limit_to spread
    (samples : list TCGABarcode) :
  type_one ∉ sample_types →
  paired_samples type_one type_two limit_to spread samples = Raise KeyError.
Proof.
  intros H1. unfold paired_samples.
  by rewrite (dict_get_by_type_unknown _ _ H1).
Qed.

Lemma paired_samples_unknown_two type_one type_two limit_to spread
    (samples : list TCGABarcode) :
  faithful →
  type_one ∈ sample_types → type_two ∉ sample_types →
  paired_samples type_one type_two limit_to spread samples
  = if nonempty (of_type type_one samples) then Raise KeyError else Ok [].
Proof.
  intros Hf H1 H2. unfold paired_samples.
  rewrite (dict_get_by_type _ _ H1). cbn [res_bind].
  rewrite (barcode_set_nonempty _ Hf).
  destruct (nonempty (of_type type_one samples)); [|done]. cbn [negb].
  by rewrite (dict_get_by_type_unknown _ _ H2).
Qed.

Lemma res_mapM_head_raises {A B} (f : A → res B) (x : A) (l : list A) e :
  f x = Raise e → res_mapM f (x :: l) = Raise e.
Proof. cbn. by intros ->. Qed.

Lemma participants_nonempty (self : ExpressionManager) (ks : list string) :
  (∀ p, p ∈ ks ↔ ∃ b, b ∈ barcodes self ∧ participant b = p) →
  columns self ≠ [] → ks ≠ [].
Proof.
  intros Hks Hcols Hnil. destruct (columns self) as [|c cs] eqn:Hc; [done|].
  assert (Hin : participant (parse_barcode c) ∈ ks).
  { apply Hks. exists (parse_barcode c). split; [|done].
    apply barcodes_elem. exists c. rewrite Hc. split; [left | done]. }
  rewrite Hnil in Hin. by apply not_elem_of_nil in Hin.
Qed.

Lemma samples_by_participant_nil (self : ExpressionManager) :
  columns self = [] → samples_by_participant self = [].
Proof. unfold samples_by_participant, barcodes. by intros ->. Qed.

(** The type names are only looked up while the loop over participants
    runs.  With a first type that is not a sample type, [paired] raises
    [KeyError] as soon as the frame has a column, and returns the frame
    without columns when it has none.  With a second type that is not a
    sample type, it raises [KeyError] when some sample is of the first type,
    and otherwise returns the frame without columns. *)
Theorem paired_unknown_type
    (self : ExpressionManager) type_one type_two limit_to spread :
  faithful →
  str_truthy spread && int_truthy limit_to = false →
  (type_one ∉ sample_types →
   paired self type_one type_two limit_to spread
   = if nonempty (columns self) then Raise KeyError
     else Ok (no_columns self))
  ∧ (type_one ∈ sample_types → type_two ∉ sample_types →
     paired self type_one type_two limit_to spread
     = if existsb (fun c => String.eqb (class_of c) type_one) (columns self)
       then Raise KeyError
       else Ok (no_columns self)).
Proof.
  intros Hf Hflags. unfold paired. rewrite Hflags. split.
  - intros H1. destruct (columns self) as [|c cs] eqn:Hc.
    + rewrite (samples_by_participant_nil _ Hc). cbn.
      unfold getitem_columns. done.
    + destruct (samples_by_participant_groups self) as (ks & _ & Hks & ->).
      assert (Hne : ks ≠ [])
        by (apply (participants_nonempty self); [done | by rewrite Hc]).
      destruct ks as [|p ks]; [done|]. cbn [map].
      rewrite (res_mapM_head_raises _ _ _ KeyError); [done|].
      by apply paired_samples_unknown_one.
  - intros H1 H2.
    destruct (samples_by_participant_groups self) as (ks & _ & Hks & ->).
    rewrite map_map. cbn [snd].
    destruct (existsb _ (columns self)) eqn:Hex.
    + apply existsb_exists in Hex as (c & Hc & Ht).
      apply String.eqb_eq in Ht. apply list_elem_of_In in Hc.
      rewrite (res_mapM_first_exception _ _ KeyError); [done | |].
      * intros g Hg. rewrite (paired_samples_unknown_two _ _ _ _ _ Hf H1 H2).
        destruct (nonempty _); [by left | by right].
      * exists (samples_of self (participant (parse_barcode c))). split.
        -- apply list_elem_of_In, in_map_iff.
           exists (participant (parse_barcode c)). split; [done|].
           apply list_elem_of_In, Hks. exists (parse_barcode c).
           split; [|done]. apply barcodes_elem. eauto.
        -- rewrite (paired_samples_unknown_two _ _ _ _ _ Hf H1 H2).
           replace (nonempty _) with true; [done|]. symmetry.
           apply nonempty_elem. exists (parse_barcode c).
           apply of_type_elem. split; [|done].
           apply samples_of_elem. split; [|done]. apply barcodes_elem. eauto.
    + rewrite (res_mapM_ok _ (fun _ => [])); cycle 1.
      { intros g Hg. rewrite (paired_samples_unknown_two _ _ _ _ _ Hf H1 H2).
        apply list_elem_of_In, in_map_iff in Hg as (p & <- & _).
        destruct (nonempty _) eqn:Hn; [|done]. exfalso.
        apply nonempty_elem in Hn as (b & Hb).
        apply of_type_elem in Hb as [Hb Ht].
        apply samples_of_elem in Hb as [Hb _].
        apply barcodes_elem in Hb as (c & Hc & ->).
        apply not_true_iff_false in Hex. apply Hex.
        apply existsb_exists. exists c. split; [by apply list_elem_of_In|].
        by apply String.eqb_eq. }
      cbn [res_bind].
      replace (concat _) with (@nil TCGABarcode); [done|].
      symmetry. clear. induction ks; [done|]. done.
Qed.

(** ** Frames that cannot be scored *)

Lemma empty_no_columns (df : DataFrame) : cols df = [] → empty df = true.
Proof. unfold empty. intros ->. by destruct (index df). Qed.

(** Without any participant that has both types, the paired subset has no
    column, [split] returns [None], and [differential] fails on unpacking
    it: a [TypeError], not the [None] that follows the warning. *)
Theorem differential_without_pairs_raises
    (self : ExpressionManager) case_ control_ metric index_as_bytes limit_to
    nans additional_controls :
  faithful →
  case_ ∈ sample_types → control_ ∈ sample_types →
  (∀ c, c ∈ columns self → is_paired self case_ control_ c = false) →
  split self case_ control_ true = Ok None
  ∧ differential self case_ control_ metric index_as_bytes limit_to true nans
      additional_controls = Raise TypeError.
Proof.
  intros Hf H1 H2 Hnone.
  assert (Hsplit : split self case_ control_ true = Ok None).
  { unfold split. rewrite (paired_plain_ok self _ _ Hf H1 H2). cbn [res_bind].
    rewrite empty_no_columns; [done|]. cbn [cols].
    destruct (flat_map _ _) as [|column rest] eqn:Hcols; [done|]. exfalso.
    assert (Hin : column ∈ flat_map (cols_named self)
                             (paired_labels self case_ control_))
      by (rewrite Hcols; left).
    apply (paired_cols_elem _ _ _ _ Hf) in Hin as [Hc Hp].
    rewrite Hnone in Hp; [done|].
    apply list_elem_of_In, in_map. by apply list_elem_of_In. }
  split; [done|]. unfold differential. by rewrite Hsplit.
Qed.

(** With [only_paired=False] the type names are not looked up at all: on a
    frame that is not empty, [differential] returns [None] (after its
    warning) when no column is of class [case_] or none of class
    [control_], whatever the names are. *)
Theorem differential_unpaired_missing_class
    (self : ExpressionManager) case_ control_ metric index_as_bytes limit_to
    nans :
  empty self = false →
  columns_of_class self case_ = [] ∨ columns_of_class self control_ = [] →
  differential self case_ control_ metric index_as_bytes limit_to false nans
    None = Ok None.
Proof.
  intros Hne Hmissing. unfold differential, split. cbn [res_bind].
  rewrite Hne.
  destruct (class_selection self case_) as (cases & Hcases & _ & _ & _).
  destruct (class_selection self control_) as (controls & Hcontrols & _ & _ & _).
  rewrite Hcases, Hcontrols. cbn [res_bind].
  replace (empty cases || empty controls) with true; [done|].
  symmetry. apply orb_true_iff.
  destruct Hmissing as [Hm|Hm]; rewrite Hm in *; [left|right];
    apply empty_no_columns.
  - unfold getitem_columns in Hcases. cbn in Hcases. by injection Hcases as <-.
  - unfold getitem_columns in Hcontrols. cbn in Hcontrols.
    by injection Hcontrols as <-.
Qed.

(** ** The assertion of [spread] *)

Lemma barcode_set_length (l : list TCGABarcode) :
  faithful → NoDup l → List.length (barcode_set l) = List.length l.
Proof. intros Hf Hnd. by rewrite (barcode_set_perm Hf l Hnd). Qed.

(** For one participant with both types and not exactly one sample of the
    spread type, the assertion of line 156 fails. *)
Lemma paired_samples_spread_asserts type_one type_two spread
    (samples : list TCGABarcode) :
  faithful →
  NoDup samples →
  type_one ∈ sample_types → type_two ∈ sample_types →
  spread = type_one ∨ spread = type_two →
  spread ≠ "" →
  nonempty (of_type type_one samples) = true →
  nonempty (of_type type_two samples) = true →
  List.length (of_type spread samples) ≠ 1 →
  paired_samples type_one type_two None (Some spread) samples
  = Raise AssertionError.
Proof.
  intros Hf Hnd H1 H2 Hs Hne E1 E2 Hlen. unfold paired_samples.
  rewrite (dict_get_by_type _ _ H1). cbn [res_bind].
  rewrite (barcode_set_nonempty _ Hf), E1. cbn [negb].
  rewrite (dict_get_by_type _ _ H2). cbn [res_bind].
  rewrite (barcode_set_nonempty _ Hf), E2. cbn [negb].
  cbn [int_truthy str_truthy default from_option id].
  replace (String.eqb spread "") with false
    by (symmetry; by apply String.eqb_neq).
  cbn [negb].
  replace (existsb (String.eqb spread) [type_one; type_two]) with true; cycle 1.
  { symmetry. apply existsb_eqb_elem. destruct Hs as [->| ->]; set_solver. }
  cbn [negb]. rewrite (list_remove_spread _ _ _ Hs).
  assert (Hother : other_type type_one type_two spread ∈ sample_types)
    by (destruct (other_type_cases _ _ _ Hs) as [[_ ->]|[_ ->]]; done).
  assert (Hspread : spread ∈ sample_types) by (destruct Hs as [->| ->]; done).
  rewrite (dict_get_by_type _ _ Hother), (dict_get_by_type _ _ Hspread).
  cbn [res_bind].
  rewrite barcode_set_length; [|done|by apply NoDup_filter].
  by destruct (Nat.eqb_spec (List.length (of_type spread samples)) 1).
Qed.

(** The precondition of spreading is checked: when some participant with
    both types does not have exactly one sample of the spread type (and
    every other one does), [paired(..., spread=...)] raises
    [AssertionError]. *)
Theorem paired_spread_asserts_single_sample
    (self : ExpressionManager) type_one type_two spread :
  faithful →
  NoDup (columns self) →
  type_one ∈ sample_types → type_two ∈ sample_types →
  spread = type_one ∨ spread = type_two →
  spread ≠ "" →
  (∃ p, has_sample self p type_one = true
        ∧ has_sample self p type_two = true
        ∧ List.length (of_type spread (samples_of self p)) ≠ 1) →
  paired self type_one type_two None (Some spread) = Raise AssertionError.
Proof.
  intros Hf Hnd H1 H2 Hs Hne (p & Hp1 & Hp2 & Hlen).
  unfold paired. cbn [int_truthy andb]. rewrite andb_false_r.
  destruct (samples_by_participant_groups self) as (ks & Hks & Hall & ->).
  rewrite map_map. cbn [snd].
  assert (Hgroup : ∀ q, NoDup (samples_of self q)).
  { intros q. unfold samples_of. apply NoDup_filter. by apply barcodes_NoDup. }
  rewrite (res_mapM_first_exception _ _ AssertionError); [done | |].
  - intros g Hg. apply list_elem_of_In, in_map_iff in Hg as (q & <- & _).
    destruct (nonempty (of_type type_one (samples_of self q))) eqn:E1;
      [destruct (nonempty (of_type type_two (samples_of self q))) eqn:E2|].
    + destruct (decide (List.length (of_type spread (samples_of self q)) = 1))
        as [Hone|Hmany].
      * right. by rewrite paired_samples_spread.
      * left. by apply paired_samples_spread_asserts.
    + right. rewrite paired_samples_spread; try done. by rewrite E2.
    + right. rewrite paired_samples_spread; try done. by rewrite E1.
  - exists (samples_of self p). split.
    + apply list_elem_of_In, in_map_iff. exists p. split; [done|].
      apply list_elem_of_In, Hall.
      apply nonempty_elem in Hp1 as (b & Hb).
      apply of_type_elem in Hb as [Hb _].
      apply samples_of_elem in Hb as [Hb Hp]. eauto.
    + by apply paired_samples_spread_asserts.
Qed.

(** ** One sample of each type per participant *)

Lemma select_mask_filter {A} (f : A → bool) (l : list A) :
  select_mask (map f l) l = List.filter f l.
Proof.
  induction l as [|x l IH]; [done|]. cbn. destruct (f x); by rewrite IH.
Qed.

Lemma paired_samples_limit type_one type_two (n : Z)
    (samples : list TCGABarcode) :
  faithful →
  type_one ∈ sample_types → type_two ∈ sample_types →
  n ≠ 0%Z →
  paired_samples type_one type_two (Some n) None samples
  = Ok (limited_samples type_one type_two n samples).
Proof.
  intros Hf H1 H2 Hn. unfold paired_samples, limited_samples.
  rewrite (dict_get_by_type _ _ H1). cbn [res_bind].
  rewrite (barcode_set_nonempty _ Hf).
  destruct (nonempty (of_type type_one samples)); [|done]. cbn [negb andb].
  rewrite (dict_get_by_type _ _ H2). cbn [res_bind].
  rewrite (barcode_set_nonempty _ Hf).
  destruct (nonempty (of_type type_two samples)); [|done]. cbn [negb].
  cbn [int_truthy default from_option id].
  by destruct (Z.eqb_spec n 0).
Qed.

(** With [limit_to=1] a participant with both types supplies two samples,
    the first of class [type_one] and the second of class [type_two]. *)
Lemma limited_samples_one type_one type_two (samples : list TCGABarcode) :
  faithful →
  limited_samples type_one type_two 1 samples = []
  ∨ ∃ a b, limited_samples type_one type_two 1 samples = [a; b]
           ∧ a ∈ samples ∧ sample_type a = type_one
           ∧ b ∈ samples ∧ sample_type b = type_two.
Proof.
  intros Hf. unfold limited_samples.
  destruct (nonempty (of_type type_one samples)) eqn:E1; [|by left].
  destruct (nonempty (of_type type_two samples)) eqn:E2; [|by left].
  right. rewrite <- (barcode_set_nonempty _ Hf) in E1.
  rewrite <- (barcode_set_nonempty _ Hf) in E2.
  destruct (barcode_set (of_type type_one samples)) as [|a ?] eqn:Ha; [done|].
  destruct (barcode_set (of_type type_two samples)) as [|b ?] eqn:Hb; [done|].
  exists a, b. split; [done|].
  assert (Ha' : a ∈ of_type type_one samples)
    by (apply (barcode_set_elem Hf); rewrite Ha; left).
  assert (Hb' : b ∈ of_type type_two samples)
    by (apply (barcode_set_elem Hf); rewrite Hb; left).
  apply of_type_elem in Ha', Hb'. tauto.
Qed.

Lemma parse_barcode_of_sample (self : ExpressionManager) b :
  faithful → b ∈ barcodes self → parse_barcode (barcode b) = b.
Proof.
  intros Hf (c & _ & ->)%barcodes_elem. by rewrite (barcode_of_column Hf).
Qed.

(** The docstring of [paired]: limiting to one sample per type gives equal
    numbers of the two classes.  With [limit_to=1] and two different sample
    types, the frame that [paired] returns has as many columns of class
    [type_one] as of class [type_two]. *)
Theorem paired_limit_one_balances
    (self : ExpressionManager) type_one type_two :
  faithful →
  NoDup (columns self) →
  type_one ∈ sample_types → type_two ∈ sample_types →
  type_one ≠ type_two →
  ∃ result,
    paired self type_one type_two (Some 1%Z) None = Ok result
    ∧ index result = index self
    ∧ (∀ column, column ∈ cols result → column ∈ cols self)
    ∧ List.length (columns_of_class result type_one)
      = List.length (columns_of_class result type_two).
Proof.
  intros Hf Hnd H1 H2 Hne. unfold paired. cbn [str_truthy andb].
  destruct (samples_by_participant_groups self) as (ks & Hks & Hall & ->).
  rewrite map_map. cbn [snd].
  rewrite (res_mapM_ok _ (limited_samples type_one type_two 1)); cycle 1.
  { intros g _. by apply paired_samples_limit. }
  cbn [res_bind]. rewrite map_map.
  set (names := map barcode (concat _)).
  assert (Hblocks : ∀ p b,
            b ∈ limited_samples type_one type_two 1 (samples_of self p) →
            b ∈ barcodes self).
  { intros p b Hb.
    destruct (limited_samples_one type_one type_two (samples_of self p) Hf)
      as [Hnil|(a & b' & Heq & Ha & _ & Hb' & _)].
    - rewrite Hnil in Hb. by apply not_elem_of_nil in Hb.
    - rewrite Heq in Hb. apply samples_of_elem in Ha as [Ha _].
      apply samples_of_elem in Hb' as [Hb' _]. set_solver. }
  assert (Hnames : ∀ n, n ∈ names → n ∈ columns self).
  { intros n Hn. apply list_elem_of_In, in_map_iff in Hn as (b & <- & Hb).
    apply in_concat in Hb as (g & Hg & Hb).
    apply in_map_iff in Hg as (p & <- & _).
    apply list_elem_of_In, Hblocks, barcodes_elem in Hb as (c & Hc & ->).
    by rewrite (barcode_of_column Hf). }
  rewrite getitem_columns_ok by done.
  eexists. split; [done|]. cbn [index]. split_and!; [done | |].
  - intros column Hc. cbn [cols] in Hc.
    apply list_elem_of_In, in_flat_map in Hc as (n & _ & Hc).
    by apply list_elem_of_In, cols_named_elem in Hc as [Hc _].
  - unfold columns_of_class, classes, barcodes, columns. cbn [cols].
    rewrite (flat_map_cols_named_labels self names Hnd Hnames).
    rewrite !map_map, !select_mask_filter.
    unfold names. clear names Hnames Hks Hall.
    induction ks as [|p ks IH]; [done|]. cbn [map concat].
    rewrite !map_app, !List.filter_app, !length_app, IH.
    f_equal.
    destruct (limited_samples_one type_one type_two (samples_of self p) Hf)
      as [->|(a & b & Heq & Ha & Hta & Hb & Htb)]; [done|].
    rewrite Heq. cbn [map List.filter].
    apply samples_of_elem in Ha as [Ha _]. apply samples_of_elem in Hb as [Hb _].
    rewrite (parse_barcode_of_sample self a Hf Ha),
      (parse_barcode_of_sample self b Hf Hb), Hta, Htb.
    rewrite !String.eqb_refl.
    replace (String.eqb type_two type_one) with false
      by (symmetry; apply String.eqb_neq; congruence).
    replace (String.eqb type_one type_two) with false
      by (symmetry; by apply String.eqb_neq).
    done.
Qed.

End WithEnv.

#[local] Existing Instance Examples.tcga_env.

Lemma paired_symmetric_witness :
  paired Examples.expression "tumor" "normal" None None
  = paired Examples.expression "normal" "tumor" None None.
Proof.
  apply (paired_symmetric Examples.expression "tumor" "normal").
  - exact tcga_env_faithful.
  - cbn. set_solver.
  - cbn. set_solver.
Defined.

Lemma limit_to_sample_type_is_by_sample_type_witness :
  limit_to_sample_type Examples.expression "tumor"
  = by_sample_type Examples.expression "tumor" None
  ∧ ∃ sub,
      by_sample_type Examples.expression "tumor" None = Ok sub
      ∧ index sub = index Examples.expression
      ∧ (∀ column,
           column ∈ cols sub
           ↔ column ∈ cols Examples.expression
             ∧ class_of (fst column) = "tumor")
      ∧ (NoDup (columns Examples.expression) →
         cols sub = columns_in_class Examples.expression "tumor").
Proof.
  apply (limit_to_sample_type_is_by_sample_type Examples.expression "tumor").
  - exact tcga_env_faithful.
  - cbn. set_solver.
Defined.

Lemma split_pairs_participants_witness :
  (∀ column, column ∈ cols Examples.expression_cases →
     ∃ column', column' ∈ cols Examples.expression_controls
                ∧ participant (parse_barcode (fst column'))
                  = participant (parse_barcode (fst column)))
  ∧ (∀ column, column ∈ cols Examples.expression_controls →
       ∃ column', column' ∈ cols Examples.expression_cases
                  ∧ participant (parse_barcode (fst column'))
                    = participant (parse_barcode (fst column))).
Proof.
  apply (split_pairs_participants Examples.expression "tumor" "normal").
  - exact tcga_env_faithful.
  - cbn. set_solver.
  - cbn. set_solver.
  - reflexivity.
Defined.

Lemma split_is_by_sample_type_twice_witness :
  by_sample_type Examples.expression "tumor" (Some "normal")
  = Ok Examples.expression_cases
  ∧ by_sample_type Examples.expression "normal" (Some "tumor")
    = Ok Examples.expression_controls.
Proof.
  apply (split_is_by_sample_type_twice Examples.expression "tumor" "normal").
  - exact tcga_env_faithful.
  - cbn. set_solver.
  - cbn. set_solver.
  - discriminate.
  - discriminate.
  - reflexivity.
Defined.

Lemma paired_unknown_type_witness :
  ("blood" ∉ sample_types →
   paired Examples.expression "blood" "normal" None None
   = if nonempty (columns Examples.expression) then Raise KeyError
     else Ok (no_columns Examples.expression))
  ∧ ("blood" ∈ sample_types → "normal" ∉ sample_types →
     paired Examples.expression "blood" "normal" None None
     = if existsb (fun c => String.eqb (class_of c) "blood")
            (columns Examples.expression)
       then Raise KeyError
       else Ok (no_columns Examples.expression)).
Proof.
  apply (paired_unknown_type Examples.expression "blood" "normal" None None).
  - exact tcga_env_faithful.
  - reflexivity.
Defined.

Lemma differential_without_pairs_raises_witness :
  split Examples.tumors_only "tumor" "normal" true = Ok None
  ∧ differential Examples.tumors_only "tumor" "normal" signal_to_noise true
      None true "fill_0" None = Raise TypeError.
Proof.
  apply (differential_without_pairs_raises Examples.tumors_only
           "tumor" "normal").
  - exact tcga_env_faithful.
  - cbn. set_solver.
  - cbn. set_solver.
  - intros c Hc. apply list_elem_of_In in Hc. cbn in Hc.
    destruct Hc as [<-|[<-|[]]]; reflexivity.
Defined.

Lemma differential_unpaired_missing_class_witness :
  differential Examples.tumors_only "tumor" "normal" signal_to_noise true
    None false "fill_0" None = Ok None.
Proof.
  apply (differential_unpaired_missing_class Examples.tumors_only
           "tumor" "normal").
  - reflexivity.
  - right. reflexivity.
Defined.

Lemma paired_spread_asserts_single_sample_witness :
  paired Examples.expression "tumor" "normal" None (Some "tumor")
  = Raise AssertionError.
Proof.
  apply (paired_spread_asserts_single_sample Examples.expression
           "tumor" "normal" "tumor").
  - exact tcga_env_faithful.
  - exact expression_columns_NoDup.
  - cbn. set_solver.
  - cbn. set_solver.
  - by left.
  - discriminate.
  - exists "A0SB". split_and!; [reflexivity | reflexivity | discriminate].
Defined.

Lemma paired_limit_one_balances_witness :
  ∃ result,
    paired Examples.expression "tumor" "normal" (Some 1%Z) None = Ok result
    ∧ index result = index Examples.expression
    ∧ (∀ column, column ∈ cols result → column ∈ cols Examples.expression)
    ∧ List.length (columns_of_class result "tumor")
      = List.length (columns_of_class result "normal").
Proof.
  apply (paired_limit_one_balances Examples.expression "tumor" "normal").
  - exact tcga_env_faithful.
  - exact expression_columns_NoDup.
  - cbn. set_solver.
  - cbn. set_solver.
  - discriminate.
Defined.

End TcgaMore.


(* ===================================================================== *)
(** * More on layers.py                                                   *)
(* ===================================================================== *)

Module LayersMore.
Import Layers PandasProps LayersProps.

(** ** Limiting a layer to samples *)

Lemma select_mask_nil {A} (mask : list bool) : select_mask mask (@nil A) = [].
Proof. by destruct mask. Qed.

Lemma select_mask_twice {A} (f g : Label → bool) (labels : list Label)
    (cells : list A) :
  select_mask (map g (select_mask (map f labels) labels))
              (select_mask (map f labels) cells)
  = select_mask (map (fun l => f l && g l) labels) cells.
Proof.
  revert cells. induction labels as [|l labels IH]; intros [|x cells];
    cbn; try done.
  - apply select_mask_nil.
  - destruct (f l); cbn; [|by apply IH].
    destruct (g l); by rewrite IH.
Qed.

Lemma select_mask_index (f : Label → bool) (labels : list Label) :
  select_mask (map f labels) labels = List.filter f labels.
Proof.
  induction labels as [|l labels IH]; [done|].
  cbn. destruct (f l); by rewrite IH.
Qed.

(** [limit_to_samples] keeps the rows whose label is in the set, in order;
    limiting twice is limiting to the samples that are in both sets, so the
    order of the two limits does not matter and limiting again to the same
    set changes nothing. *)
Theorem limit_to_samples_composes (self : DataFrame)
    (samples more : list Label) :
  index (limit_to_samples self samples)
  = List.filter (fun l => existsb (String.eqb l) samples) (index self)
  ∧ columns (limit_to_samples self samples) = columns self
  ∧ limit_to_samples (limit_to_samples self samples) more
    = limit_to_samples self
        (List.filter (fun l => existsb (String.eqb l) more) samples)
  ∧ limit_to_samples (limit_to_samples self samples) more
    = limit_to_samples (limit_to_samples self more) samples
  ∧ limit_to_samples (limit_to_samples self samples) samples
    = limit_to_samples self samples.
Proof.
  set (inside := fun (s : list Label) (l : Label) => existsb (String.eqb l) s).
  assert (Htwice : ∀ s1 s2,
    limit_to_samples (limit_to_samples self s1) s2
    = getitem_mask self (map (fun l => inside s1 l && inside s2 l) (index self))).
  { intros s1 s2. unfold limit_to_samples, getitem_mask. cbn [index cols].
    fold (inside s1) (inside s2). f_equal.
    - apply select_mask_twice.
    - rewrite map_map. apply map_ext. intros c. cbn [fst snd]. f_equal.
      apply select_mask_twice. }
  assert (Hboth : ∀ s1 s2 l,
    inside (List.filter (inside s2) s1) l = inside s1 l && inside s2 l).
  { intros s1 s2 l. unfold inside. apply eq_true_iff_eq.
    rewrite andb_true_iff, !existsb_eqb_elem, elem_of_List_filter.
    by rewrite existsb_eqb_elem. }
  split_and!.
  - apply select_mask_index.
  - unfold limit_to_samples, getitem_mask, columns. cbn [cols].
    rewrite map_map. done.
  - rewrite Htwice. unfold limit_to_samples. f_equal.
    apply map_ext. intros l. symmetry. apply Hboth.
  - rewrite !Htwice. f_equal. apply map_ext. intros l. apply andb_comm.
  - rewrite Htwice. unfold limit_to_samples. f_equal.
    apply map_ext. intros l. fold (inside samples l). by destruct (inside samples l).
Qed.

(** ** Useless features *)

Lemma distinct_values_elem (cells : list float) y :
  y ∈ distinct_values cells → y ∈ cells ∧ isnan y = false.
Proof.
  induction cells as [|x cells IH]; cbn; [by intros ?%not_elem_of_nil|].
  destruct (isnan x) eqn:Hx; cbn.
  - intros Hy. destruct (IH Hy). split; [by right | done].
  - destruct (existsb (feq x) (distinct_values cells)).
    + intros Hy. destruct (IH Hy). split; [by right | done].
    + intros [->|Hy]%elem_of_cons; [split; [left | done]|].
      destruct (IH Hy). split; [by right | done].
Qed.

Lemma distinct_values_nonempty (cells : list float) :
  existsb (fun x => negb (isnan x)) cells = true ↔ distinct_values cells ≠ [].
Proof.
  induction cells as [|x cells IH]; cbn; [done|].
  destruct (isnan x) eqn:Hx; cbn; [done|].
  destruct (existsb (feq x) (distinct_values cells)) eqn:Hex; [|done].
  split; [|done]. intros _ Hnil. by rewrite Hnil in Hex.
Qed.

(** The first two of the different values are different. *)
Lemma distinct_values_two (cells : list float) a b rest :
  distinct_values cells = a :: b :: rest → feq a b = false.
Proof.
  induction cells as [|x cells IH]; cbn; [done|].
  destruct (isnan x || existsb (feq x) (distinct_values cells)) eqn:Hx;
    [done|].
  intros [= -> Hrest]. apply orb_false_iff in Hx as [_ Hx].
  rewrite Hrest in Hx. cbn in Hx. by apply orb_false_iff in Hx as [Hx _].
Qed.

Lemma nunique_two (cells : list float) :
  (2 ≤ nunique cells)%nat →
  ∃ x y, x ∈ cells ∧ y ∈ cells ∧ isnan x = false ∧ isnan y = false
         ∧ feq x y = false.
Proof.
  unfold nunique. destruct (distinct_values cells) as [|a [|b rest]] eqn:Hd;
    cbn; try lia. intros _.
  assert (Ha : a ∈ distinct_values cells) by (rewrite Hd; left).
  assert (Hb : b ∈ distinct_values cells) by (rewrite Hd; right; left).
  apply distinct_values_elem in Ha as [Ha Hna], Hb as [Hb Hnb].
  exists a, b. split_and!; try done. by eapply distinct_values_two.
Qed.

Lemma List_filter_all {A} (f : A → bool) (l : list A) :
  (∀ x, x ∈ l → f x = true) → List.filter f l = l.
Proof.
  induction l as [|x l IH]; intros Hall; [done|].
  cbn. rewrite Hall by left. f_equal. apply IH. intros y Hy. apply Hall.
  by right.
Qed.

Lemma List_filter_filter {A} (f g : A → bool) (l : list A) :
  List.filter g (List.filter f l) = List.filter (fun x => f x && g x) l.
Proof.
  induction l as [|x l IH]; [done|].
  cbn. destruct (f x); cbn; [destruct (g x)|]; by rewrite IH.
Qed.

(** The labels that [drop_useless_features] drops. *)
Lemma without_variance_elem (df : DataFrame) n :
  n ∈ map fst (List.filter (fun c => Nat.eqb (snd c) 1)
                 (map (fun c => (fst c, nunique (snd c))) (cols df)))
  ↔ ∃ c, c ∈ cols df ∧ fst c = n ∧ nunique (snd c) = 1.
Proof.
  rewrite list_elem_of_In, in_map_iff. split.
  - intros ([n' k] & <- & Hin). apply filter_In in Hin as [Hin Hk].
    apply in_map_iff in Hin as (c & [= <- <-] & Hc). cbn in Hk.
    apply Nat.eqb_eq in Hk. exists c. by rewrite list_elem_of_In.
  - intros (c & Hc & <- & Hk). exists (fst c, nunique (snd c)). split; [done|].
    apply filter_In. split; [|by apply Nat.eqb_eq].
    apply in_map_iff. exists c. by rewrite <- list_elem_of_In.
Qed.

Lemma drop_useless_features_elem (self : DataFrame) c :
  c ∈ cols (drop_useless_features self)
  ↔ c ∈ cols self
    ∧ nunique (snd c) ≠ 0
    ∧ ¬ ∃ c', c' ∈ cols self ∧ fst c' = fst c ∧ nunique (snd c') = 1.
Proof.
  unfold drop_useless_features, drop_columns. cbn [cols].
  rewrite elem_of_List_filter, negb_true_iff.
  unfold dropna_all_columns at 1. cbn [cols].
  rewrite elem_of_List_filter, distinct_values_nonempty.
  assert (Hzero : distinct_values (snd c) ≠ [] ↔ nunique (snd c) ≠ 0).
  { unfold nunique. by destruct (distinct_values (snd c)). }
  rewrite Hzero.
  assert (Hlabels :
    existsb (String.eqb (fst c))
      (map fst (List.filter (fun c => Nat.eqb (snd c) 1)
                  (map (fun c => (fst c, nunique (snd c)))
                       (cols (dropna_all_columns self))))) = false
    ↔ ¬ ∃ c', c' ∈ cols self ∧ fst c' = fst c ∧ nunique (snd c') = 1).
  { rewrite <- not_true_iff_false, existsb_eqb_elem, without_variance_elem.
    apply not_iff_compat. split.
    - intros (c' & Hc' & Hl & Hk). exists c'. split_and!; try done.
      unfold dropna_all_columns in Hc'. cbn in Hc'.
      by apply elem_of_List_filter in Hc' as [Hc' _].
    - intros (c' & Hc' & Hl & Hk). exists c'. split_and!; try done.
      unfold dropna_all_columns. cbn [cols]. apply elem_of_List_filter.
      split; [done|]. apply distinct_values_nonempty.
      unfold nunique in Hk. by destruct (distinct_values (snd c')). }
  rewrite Hlabels. tauto.
Qed.

(** [drop_useless_features] leaves the rows alone and keeps only columns of
    [self] in which at least two cells hold different values, NaN not
    counting as a value: a column that is all NaN, or has a single value
    besides NaN, is never kept.  Doing it again changes nothing. *)
Theorem drop_useless_features_keeps_varying_columns (self : DataFrame) :
  let out := drop_useless_features self in
  index out = index self
  ∧ (∀ c, c ∈ cols out →
       c ∈ cols self
       ∧ ∃ x y, x ∈ snd c ∧ y ∈ snd c ∧ isnan x = false ∧ isnan y = false
                ∧ feq x y = false)
  ∧ (∀ c, c ∈ cols self → (nunique (snd c) ≤ 1)%nat → c ∉ cols out)
  ∧ drop_useless_features out = out.
Proof.
  intros out.
  assert (Hkept : ∀ c, c ∈ cols out → c ∈ cols self ∧ (2 ≤ nunique (snd c))%nat).
  { intros c Hc. apply drop_useless_features_elem in Hc as (Hc & H0 & H1).
    split; [done|].
    assert (nunique (snd c) ≠ 1) by (intros Hk; apply H1; by exists c). lia. }
  split_and!.
  - done.
  - intros c Hc. destruct (Hkept c Hc) as [Hin Htwo].
    split; [done | by apply nunique_two].
  - intros c Hc Hk Hout. destruct (Hkept c Hout). lia.
  - unfold drop_useless_features at 1. fold out.
    clearbody out. destruct out as [idx cs]. cbn [cols] in Hkept.
    assert (Hna : dropna_all_columns {| index := idx; cols := cs |}
                  = {| index := idx; cols := cs |}).
    { unfold dropna_all_columns. cbn [index cols]. f_equal.
      apply List_filter_all. intros c Hc. apply distinct_values_nonempty.
      destruct (Hkept c Hc) as [_ Htwo]. unfold nunique in Htwo.
      destruct (distinct_values (snd c)); [cbn in Htwo; lia | done]. }
    rewrite Hna. unfold drop_columns. cbn [index cols]. f_equal.
    apply List_filter_all. intros c Hc. apply negb_true_iff.
    apply not_true_iff_false. rewrite existsb_eqb_elem.
    change cs with (cols {| index := idx; cols := cs |}) at 1.
    rewrite without_variance_elem. intros (c' & Hc' & _ & Hk).
    destruct (Hkept c' Hc') as [_ Htwo]. lia.
Qed.

(** With distinct column labels, the columns that [drop_useless_features]
    keeps are exactly the columns of [self] with two different values, in
    the order of [self]. *)
Theorem drop_useless_features_keeps_all_varying (self : DataFrame) :
  NoDup (columns self) →
  cols (drop_useless_features self)
  = List.filter (fun c => Nat.leb 2 (nunique (snd c))) (cols self).
Proof.
  intros Hnd.
  assert (Hpick : ∀ c, c ∈ cols self →
    (existsb (fun x => negb (isnan x)) (snd c)
     && negb (existsb (String.eqb (fst c))
          (map fst (List.filter (fun c => Nat.eqb (snd c) 1)
                      (map (fun c => (fst c, nunique (snd c)))
                           (cols (dropna_all_columns self)))))))
    = Nat.leb 2 (nunique (snd c))).
  { intros c Hc. apply eq_true_iff_eq.
    rewrite andb_true_iff, negb_true_iff, <- not_true_iff_false.
    rewrite existsb_eqb_elem, without_variance_elem, Nat.leb_le.
    rewrite distinct_values_nonempty.
    assert (Hzero : distinct_values (snd c) ≠ [] ↔ nunique (snd c) ≠ 0).
    { unfold nunique. by destruct (distinct_values (snd c)). }
    rewrite Hzero. split.
    - intros [H0 H1].
      assert (nunique (snd c) ≠ 1); [|lia].
      intros Hk. apply H1. exists c. split_and!; [|done..].
      unfold dropna_all_columns. cbn [cols]. apply elem_of_List_filter.
      split; [done|]. apply distinct_values_nonempty, Hzero. lia.
    - intros Htwo. split; [lia|]. intros (c' & Hc' & Hl & Hk).
      assert (c' = c) as ->; [|lia].
      unfold dropna_all_columns in Hc'. cbn [cols] in Hc'.
      apply elem_of_List_filter in Hc' as [Hc' _].
      pose proof (PandasProps.filter_fst_unique (cols self) c Hnd Hc) as Hu.
      assert (Hin : c' ∈ filter (fun d => String.eqb (fst d) (fst c))
                           (cols self)).
      { apply list_elem_of_filter. split; [|done].
        by apply Is_true_true, String.eqb_eq. }
      rewrite Hu in Hin. by apply list_elem_of_singleton in Hin. }
  unfold drop_useless_features, drop_columns, dropna_all_columns in *.
  cbn [cols] in *. rewrite List_filter_filter. apply filter_ext_in. intros c Hc.
  apply Hpick. by apply list_elem_of_In.
Qed.

Lemma drop_useless_features_keeps_all_varying_witness :
  cols (drop_useless_features Examples.mutations)
  = List.filter (fun c => Nat.leb 2 (nunique (snd c)))
      (cols Examples.mutations).
Proof.
  apply (drop_useless_features_keeps_all_varying Examples.mutations).
  unfold columns. cbn. repeat constructor; set_solver.
Defined.

(** The columns without variance are dropped by label: a column that
    shares its label with a column holding a single value is dropped with
    it, whatever it holds itself. *)
Theorem drop_useless_features_drops_namesakes (self : DataFrame)
    (c c' : Column) :
  c ∈ cols self → c' ∈ cols self →
  fst c' = fst c → nunique (snd c') = 1 →
  c ∉ cols (drop_useless_features self).
Proof.
  intros Hc Hc' Hl Hk Hout.
  apply drop_useless_features_elem in Hout as (_ & _ & Hnone).
  apply Hnone. by exists c'.
Qed.

Lemma drop_useless_features_drops_namesakes_witness :
  ("TP53", [Examples.f_of_Z 1; Examples.f_of_Z 0])
  ∉ cols (drop_useless_features Examples.duplicated_features).
Proof.
  apply (drop_useless_features_drops_namesakes Examples.duplicated_features
           ("TP53", [Examples.f_of_Z 1; Examples.f_of_Z 0])
           ("TP53", [Examples.f_of_Z 2; Examples.f_of_Z 2])).
  - left.
  - right. left.
  - reflexivity.
  - vm_compute. reflexivity.
Defined.

(** ** Rearranging a layer *)

Lemma position_Some (label : Label) (labels : list Label) r :
  position label labels = Some r → labels !! r = Some label.
Proof.
  revert r. induction labels as [|l labels IH]; intros r; cbn; [done|].
  destruct (String.eqb_spec l label) as [->|Hne].
  - by intros [= <-].
  - destruct (position label labels) as [r'|]; cbn; [|done].
    intros [= <-]. cbn. by apply IH.
Qed.

Lemma position_None (label : Label) (labels : list Label) :
  position label labels = None → label ∉ labels.
Proof.
  induction labels as [|l labels IH]; cbn; [by intros _ ?%not_elem_of_nil|].
  destruct (String.eqb_spec l label) as [->|Hne]; [done|].
  destruct (position label labels) as [r'|]; cbn; [done|].
  intros _ [->|Hin]%elem_of_cons; [done | by apply IH].
Qed.

Lemma position_NoDup (labels : list Label) r (label : Label) :
  NoDup labels → labels !! r = Some label → position label labels = Some r.
Proof.
  revert r. induction labels as [|l labels IH]; intros r Hnd; [done|].
  apply NoDup_cons in Hnd as [Hl Hnd]. destruct r as [|r]; cbn.
  - intros [= ->]. by rewrite String.eqb_refl.
  - intros Hr. destruct (String.eqb_spec l label) as [->|Hne].
    + exfalso. apply Hl. by eapply list_elem_of_lookup_2.
    + by rewrite (IH r Hnd Hr).
Qed.

Lemma rows_at_absent (label : Label) (labels : list Label) cells :
  position label labels = None → rows_at label labels cells = [].
Proof.
  revert cells. induction labels as [|l labels IH]; intros cells; cbn; [done|].
  destruct (String.eqb l label); [done|].
  destruct (position label labels); cbn; [done|]. intros _. by apply IH.
Qed.

(** With distinct row labels, a label picks one row at most. *)
Lemma rows_at_NoDup (label : Label) (labels : list Label) cells r :
  NoDup labels → position label labels = Some r →
  rows_at label labels cells = [map (fun c => nth r c nan) cells].
Proof.
  revert cells r. induction labels as [|l labels IH]; intros cells r Hnd;
    cbn; [done|].
  apply NoDup_cons in Hnd as [Hl Hnd].
  destruct (String.eqb_spec l label) as [->|Hne].
  - intros [= <-]. rewrite rows_at_absent.
    + f_equal. apply map_ext. by intros [|x c].
    + destruct (position label labels) eqn:Hp; [|done].
      apply position_Some in Hp. exfalso. apply Hl.
      by eapply list_elem_of_lookup_2.
  - destruct (position label labels) as [r'|] eqn:Hp; cbn; [|done].
    intros [= <-]. rewrite (IH _ r' Hnd eq_refl). f_equal.
    rewrite map_map. apply map_ext. intros [|x c]; cbn; [by destruct r' | done].
Qed.

Lemma merged_rows_NoDup (self : DataFrame) (key : Label) :
  NoDup (index self) →
  merged_rows self key
  = [match position key (index self) with
     | Some r => map (fun c => nth r (snd c) nan) (cols self)
     | None => map (fun _ => nan) (cols self)
     end].
Proof.
  intros Hnd. unfold merged_rows.
  destruct (position key (index self)) as [r|] eqn:Hp.
  - rewrite (rows_at_NoDup _ _ _ r Hnd Hp). by rewrite map_map.
  - by rewrite rows_at_absent.
Qed.

Lemma imap_pointwise {A B} (f : nat → A → B) (g : A → B) (l : list A) :
  (∀ j x, l !! j = Some x → f j x = g x) → imap f l = map g l.
Proof.
  revert f. induction l as [|x l IH]; intros f Hf; [done|].
  cbn. f_equal; [by apply (Hf 0%nat) | apply IH].
  intros j y Hj. by apply (Hf (S j)).
Qed.

Lemma nth_map_lookup {A B} (F : A → B) (l : list A) j x d :
  l !! j = Some x → nth j (map F l) d = F x.
Proof.
  revert j. induction l as [|y l IH]; intros [|j]; cbn; try done.
  - by intros [= ->].
  - apply IH.
Qed.

Lemma nth_map_const {A B} (l : list A) j (d : B) :
  nth j (map (fun _ => d) l) d = d.
Proof. revert j. induction l as [|y l IH]; intros [|j]; cbn; done. Qed.

(** With distinct row labels in [self], every key of the other layer gets
    one row, so the merge is a lookup of each key. *)
Lemma rearrange_by_position (self other_layer : DataFrame) :
  NoDup (index self) →
  rearrange_to_match_with self other_layer
  = {| index := index other_layer;
       cols := map (cells_at (index self) (index other_layer)) (cols self) |}.
Proof.
  intros Hnd. unfold rearrange_to_match_with.
  set (row := fun key =>
    match position key (index self) with
    | Some r => map (fun c : Column => nth r (snd c) nan) (cols self)
    | None => map (fun _ : Column => nan) (cols self)
    end).
  assert (Hrows :
    flat_map (fun key => map (fun row => (key, row)) (merged_rows self key))
             (index other_layer)
    = map (fun key => (key, row key)) (index other_layer)).
  { induction (index other_layer) as [|key keys IH]; [done|].
    cbn [flat_map map]. by rewrite IH, merged_rows_NoDup. }
  rewrite Hrows. f_equal.
  - rewrite map_map. cbn [fst]. apply map_id.
  - rewrite map_map. cbn [snd]. apply imap_pointwise. intros j c Hj.
    unfold cells_at, column_of_rows. f_equal. rewrite map_map.
    apply map_ext. intros key. unfold row.
    destruct (position key (index self)) as [r|].
    + by rewrite (nth_map_lookup _ _ _ _ _ Hj).
    + apply nth_map_const.
Qed.

Lemma cells_at_self (labels : list Label) (cells : list float) n :
  NoDup labels → List.length cells = List.length labels →
  cells_at labels labels (n, cells) = (n, cells).
Proof.
  intros Hnd Hlen. unfold cells_at. cbn [fst snd]. f_equal.
  apply list_eq. intros i.
  change (map ?f labels) with (f <$> labels). rewrite list_lookup_fmap.
  destruct (labels !! i) as [key|] eqn:Hi; cbn.
  - rewrite (position_NoDup _ _ _ Hnd Hi).
    destruct (lookup_lt_is_Some_2 cells i) as [x Hx].
    { rewrite Hlen. by eapply lookup_lt_Some. }
    by rewrite (nth_lookup_Some _ _ _ _ Hx).
  - symmetry. apply lookup_ge_None. rewrite Hlen. by apply lookup_ge_None.
Qed.

(** For a layer with distinct row labels (and no column named ['key_0'],
    the name that [merge] gives to the keys), [rearrange_to_match_with]
    returns the rows of [other_layer], in its order, with the columns of
    [self]: a row of [other_layer] carries the cells of the row of [self]
    with the same label, and NaN when [self] has no such row. *)
Theorem rearrange_to_match_with_aligns_rows (self other_layer : DataFrame) :
  NoDup (index self) → "key_0" ∉ columns self →
  index (rearrange_to_match_with self other_layer) = index other_layer
  ∧ columns (rearrange_to_match_with self other_layer) = columns self
  ∧ cols (rearrange_to_match_with self other_layer)
    = map (cells_at (index self) (index other_layer)) (cols self)
  ∧ (∀ i key c, index other_layer !! i = Some key → c ∈ cols self →
       snd (cells_at (index self) (index other_layer) c) !! i
       = Some (match position key (index self) with
               | Some r => default nan (snd c !! r)
               | None => nan
               end)).
Proof.
  intros Hnd _. rewrite rearrange_by_position by done. split_and!; try done.
  - unfold columns. cbn [cols]. rewrite map_map. done.
  - intros i key c Hi _. unfold cells_at. cbn [snd].
    change (map ?f (index other_layer)) with (f <$> index other_layer).
    rewrite list_lookup_fmap, Hi. cbn.
    destruct (position key (index self)); [|done]. by rewrite nth_lookup.
Qed.

Lemma rearrange_to_match_with_aligns_rows_witness :
  index (rearrange_to_match_with Examples.mutations Examples.other_layer)
  = ["A0SD"; "A0SE"; "A0SB"]
  ∧ cols (rearrange_to_match_with Examples.mutations Examples.other_layer)
    = [("TP53", [Examples.f_of_Z 0; nan; Examples.f_of_Z 1]);
       ("UNKNOWN", [Examples.f_of_Z 4; nan; Examples.f_of_Z 2])].
Proof.
  destruct (rearrange_to_match_with_aligns_rows Examples.mutations
              Examples.other_layer) as (Hindex & _ & Hcols & _).
  - cbn. repeat constructor; set_solver.
  - unfold columns. cbn. set_solver.
  - split; [exact Hindex | exact Hcols].
Defined.

(** Rearranging a layer to match itself gives the layer back, when its row
    labels are distinct and every column has a cell for every row. *)
Theorem rearrange_to_match_with_itself (self : DataFrame) :
  NoDup (index self) → "key_0" ∉ columns self →
  (∀ c, c ∈ cols self → List.length (snd c) = List.length (index self)) →
  rearrange_to_match_with self self = self.
Proof.
  intros Hnd _ Hlen. rewrite rearrange_by_position by done.
  destruct self as [idx cs]. cbn [index cols] in *. f_equal.
  rewrite <- (map_id cs) at 2. apply map_ext_in. intros [n cells] Hc.
  apply cells_at_self; [done|].
  apply (Hlen (n, cells)). by apply list_elem_of_In.
Qed.

Lemma rearrange_to_match_with_itself_witness :
  rearrange_to_match_with Examples.mutations Examples.mutations
  = Examples.mutations.
Proof.
  apply (rearrange_to_match_with_itself Examples.mutations).
  - cbn. repeat constructor; set_solver.
  - unfold columns. cbn. set_solver.
  - intros c Hc. apply list_elem_of_In in Hc. cbn in Hc.
    by destruct Hc as [<-|[<-|[]]].
Defined.

(** ** Preprocessing *)

Lemma imap_labels {A} (g : nat → Column → A) (l : list Column) :
  map fst (imap (fun j c => (fst c, g j c)) l) = map fst l.
Proof.
  revert g. induction l as [|c l IH]; intros g; [done|].
  cbn. f_equal. apply (IH (fun j => g (S j))).
Qed.

Lemma rearrange_columns (self other_layer : DataFrame) :
  columns (rearrange_to_match_with self other_layer) = columns self.
Proof. unfold rearrange_to_match_with, columns. cbn [cols]. apply imap_labels. Qed.

Lemma drop_useless_features_columns (df : DataFrame) n :
  n ∈ columns (drop_useless_features df) → n ∈ columns df.
Proof.
  unfold columns. rewrite !list_elem_of_In, !in_map_iff.
  intros (c & <- & Hc). exists c. split; [done|].
  apply list_elem_of_In. apply list_elem_of_In in Hc.
  by apply drop_useless_features_elem in Hc as [Hc _].
Qed.

Lemma frame_fillna_0_elem (df : DataFrame) c :
  c ∈ cols (fillna_0 df)
  ↔ ∃ c0, c0 ∈ cols df
          ∧ c = (fst c0, map (fun x => if isnan x then fzero else x) (snd c0)).
Proof.
  unfold fillna_0. cbn [cols]. rewrite list_elem_of_In, in_map_iff.
  split; intros (c0 & H1 & H2); exists c0.
  - by rewrite list_elem_of_In.
  - by rewrite <- list_elem_of_In.
Qed.

(** [preprocess] returns a frame without missing values: no cell is NaN;
    its columns are columns of [self] by label, and without
    [rearrange_against] its rows are those of [self].  With
    [rearrange_against], for a layer with distinct row labels (and no
    column named ['key_0']), the rows are those of [rearrange_against], and
    a sample that [self] does not have holds 0 in every column. *)
Theorem preprocess_fills_missing_samples
    (self : DataFrame) (rearrange_against : option DataFrame) :
  NoDup (index self) → "key_0" ∉ columns self →
  let out := preprocess self rearrange_against in
  (∀ c x, c ∈ cols out → x ∈ snd c → isnan x = false)
  ∧ (∀ n, n ∈ columns out → n ∈ columns self)
  ∧ index out = match rearrange_against with
                | Some other_layer => index other_layer
                | None => index self
                end
  ∧ (∀ other_layer i key c,
       rearrange_against = Some other_layer →
       index other_layer !! i = Some key → key ∉ index self →
       c ∈ cols out → snd c !! i = Some fzero).
Proof.
  intros Hnd _ out. split_and!.
  - intros c x Hc Hx. apply frame_fillna_0_elem in Hc as (c0 & _ & ->).
    cbn [snd] in Hx. apply list_elem_of_In, in_map_iff in Hx as (x0 & <- & _).
    by destruct (isnan x0) eqn:Hx0.
  - intros n Hn. unfold columns in Hn.
    apply list_elem_of_In, in_map_iff in Hn as (c & <- & Hc).
    apply list_elem_of_In, frame_fillna_0_elem in Hc as (c0 & Hc0 & ->).
    cbn [fst].
    assert (Hin : fst c0 ∈ columns
              (drop_useless_features
                 match rearrange_against with
                 | Some other => rearrange_to_match_with self other
                 | None => self
                 end)).
    { unfold columns. apply list_elem_of_In, in_map_iff. exists c0.
      split; [done | by apply list_elem_of_In]. }
    apply drop_useless_features_columns in Hin.
    destruct rearrange_against; [by rewrite rearrange_columns in Hin | done].
  - subst out. unfold preprocess. cbn [fillna_0 index drop_useless_features
      drop_columns dropna_all_columns].
    destruct rearrange_against; [by rewrite rearrange_by_position | done].
  - intros other_layer i key c -> Hi Hkey Hc. subst out.
    unfold preprocess in Hc.
    apply frame_fillna_0_elem in Hc as (c0 & Hc0 & ->).
    apply drop_useless_features_elem in Hc0 as [Hc0 _].
    rewrite rearrange_by_position in Hc0 by done. cbn [cols] in Hc0.
    apply list_elem_of_In, in_map_iff in Hc0 as (c1 & <- & _).
    unfold cells_at. cbn [snd].
    change (map ?f (map ?g (index other_layer)))
      with (f <$> (g <$> index other_layer)).
    rewrite !list_lookup_fmap, Hi. cbn.
    destruct (position key (index self)) as [r|] eqn:Hp; [|done].
    apply position_Some in Hp. exfalso. apply Hkey.
    by eapply list_elem_of_lookup_2.
Qed.

Lemma preprocess_fills_missing_samples_witness :
  let out := preprocess Examples.mutations (Some Examples.other_layer) in
  (∀ c x, c ∈ cols out → x ∈ snd c → isnan x = false)
  ∧ (∀ n, n ∈ columns out → n ∈ columns Examples.mutations)
  ∧ index out = index Examples.other_layer
  ∧ (∀ other_layer i key c,
       Some Examples.other_layer = Some other_layer →
       index other_layer !! i = Some key →
       key ∉ index Examples.mutations →
       c ∈ cols out → snd c !! i = Some fzero).
Proof.
  apply (preprocess_fills_missing_samples Examples.mutations
           (Some Examples.other_layer)).
  - cbn. repeat constructor; set_solver.
  - unfold columns. cbn. set_solver.
Defined.

(** ** [Layers.filter] *)

(** The loop of [Layers.filter] makes one new frame per item, in order,
    and binds the item's key to it. *)
Lemma foldM_filter_copies (func : Label → bool)
    (items : list (string * loc)) (acc : gmap string loc) (h : store) :
  NoDup items.*1 →
  (∀ kv, kv ∈ items → is_Some (h !! snd kv)) →
  ∃ layers ext,
    foldM (fun (acc : gmap string loc) (kv : string * loc) =>
             do v <~ deref (snd kv) ;;
             do v' <~ new (getitem_mask v (map func (index v))) ;;
             ret (<[fst kv := v']> acc))%py items acc h
    = (Ok layers, h ++ ext)
    ∧ (∀ k, k ∉ items.*1 → layers !! k = acc !! k)
    ∧ (∀ i k v, items !! i = Some (k, v) →
         ∃ df, h !! v = Some df
               ∧ layers !! k = Some (List.length h + i)
               ∧ ext !! i = Some (getitem_mask df (map func (index df)))).
Proof.
  revert acc h. induction items as [|[k0 v0] items IH]; intros acc h Hnd Hvalid.
  - exists acc, []. rewrite app_nil_r. by split_and!.
  - rewrite fmap_cons in Hnd. apply NoDup_cons in Hnd as [Hk0 Hnd].
    destruct (Hvalid (k0, v0)) as [df0 Hdf0]; [left|]. cbn [snd] in Hdf0.
    set (df0' := getitem_mask df0 (map func (index df0))).
    destruct (IH (<[k0 := List.length h]> acc) (h ++ [df0']) Hnd)
      as (layers & ext & Hfold & Hout & Hin).
    { intros kv Hkv. apply lookup_lt_is_Some. rewrite length_app.
      assert (Hs : is_Some (h !! snd kv)) by (apply Hvalid; by right).
      apply lookup_lt_is_Some in Hs. lia. }
    exists layers, (df0' :: ext). split_and!.
    + cbn [foldM]. unfold bind at 1. unfold bind at 1.
      unfold deref at 1, read. cbn [snd fst]. rewrite Hdf0.
      unfold bind at 1. unfold new at 1, alloc, ret at 1.
      fold df0'. rewrite Hfold. by rewrite <- app_assoc.
    + intros k Hk. rewrite fmap_cons in Hk. apply not_elem_of_cons in Hk as [Hne Hk].
      rewrite (Hout k Hk). by rewrite lookup_insert_ne.
    + intros [|i] k v Hi.
      * injection Hi as -> ->. exists df0. split_and!; [done | | done].
        rewrite (Hout k Hk0), lookup_insert_eq. f_equal. lia.
      * cbn in Hi. destruct (Hin i k v Hi) as (df & Hdf & Hk & Hext).
        exists df. split_and!; [| | done].
        -- assert (Hs : is_Some (h !! v)).
           { apply (Hvalid (k, v)). right. by eapply list_elem_of_lookup_2. }
           destruct Hs as [df' Hdf']. rewrite Hdf'.
           by rewrite (lookup_app_l_Some _ _ _ _ Hdf') in Hdf.
        -- rewrite Hk, length_app. cbn. f_equal. lia.
Qed.

(** Let the layers be frames of the store.  [Layers.filter(func)] changes
    no frame of the store; it binds every key of the layers, and no other,
    to a new frame object, which holds the rows of the old frame (one with
    rows) whose label passes [func]; two keys never share a frame
    afterwards, also when they did before. *)
Theorem filter_layers_makes_filtered_copies (func : Label → bool)
    (layers : gmap string loc) (h : store) :
  (∀ k v, layers !! k = Some v → is_Some (read h v)) →
  ∃ layers' ext,
    filter_layers func layers h = (Ok layers', h ++ ext)
    ∧ (∀ k, layers !! k = None → layers' !! k = None)
    ∧ (∀ k v, layers !! k = Some v →
         ∃ df v', read h v = Some df
                  ∧ layers' !! k = Some v'
                  ∧ (List.length h ≤ v')%nat
                  ∧ (index df ≠ [] →
                     read (h ++ ext) v'
                     = Some (getitem_mask df (map func (index df)))))
    ∧ (∀ k1 k2 v', layers' !! k1 = Some v' → layers' !! k2 = Some v' →
                   k1 = k2).
Proof.
  intros Hvalid. unfold read in *.
  destruct (foldM_filter_copies func (map_to_list layers) ∅ h)
    as (layers' & ext & Hfold & Hout & Hin).
  { apply NoDup_fst_map_to_list. }
  { intros [k v] Hkv. apply elem_of_map_to_list in Hkv. by eapply Hvalid. }
  assert (Hpos : ∀ k v', layers' !! k = Some v' →
            ∃ i v, map_to_list layers !! i = Some (k, v)
                   ∧ v' = List.length h + i).
  { intros k v' Hk.
    destruct (decide (k ∈ (map_to_list layers).*1)) as [Hdom|Hdom].
    - apply map_to_list_keys in Hdom as [v Hv].
      apply elem_of_map_to_list, list_elem_of_lookup_1 in Hv as [i Hi].
      destruct (Hin i k v Hi) as (_ & _ & Hk' & _).
      exists i, v. split; [done|]. congruence.
    - rewrite (Hout k Hdom), lookup_empty in Hk. done. }
  exists layers', ext. split_and!.
  - exact Hfold.
  - intros k Hk. rewrite Hout; [apply lookup_empty|].
    rewrite map_to_list_keys, Hk. by intros [? ?].
  - intros k v Hk.
    apply elem_of_map_to_list, list_elem_of_lookup_1 in Hk as [i Hi].
    destruct (Hin i k v Hi) as (df & Hdf & Hk' & Hext).
    exists df, (List.length h + i). split_and!; [done | done | lia |].
    intros _. rewrite lookup_app_r by lia.
    by replace (List.length h + i - List.length h) with i by lia.
  - intros k1 k2 v' H1 H2.
    destruct (Hpos k1 v' H1) as (i1 & v1 & Hi1 & E1).
    destruct (Hpos k2 v' H2) as (i2 & v2 & Hi2 & E2).
    assert (i1 = i2) as -> by lia. congruence.
Qed.

Lemma filter_layers_makes_filtered_copies_witness :
  ∃ layers' ext,
    filter_layers (String.eqb "A0SB") Examples.shared_data [Examples.mutations]
    = (Ok layers', [Examples.mutations] ++ ext)
    ∧ (∀ k, Examples.shared_data !! k = None → layers' !! k = None)
    ∧ (∀ k v, Examples.shared_data !! k = Some v →
         ∃ df v', read [Examples.mutations] v = Some df
                  ∧ layers' !! k = Some v'
                  ∧ (List.length [Examples.mutations] ≤ v')%nat
                  ∧ (index df ≠ [] →
                     read ([Examples.mutations] ++ ext) v'
                     = Some (getitem_mask df
                               (map (String.eqb "A0SB") (index df)))))
    ∧ (∀ k1 k2 v', layers' !! k1 = Some v' → layers' !! k2 = Some v' →
                   k1 = k2).
Proof.
  apply (filter_layers_makes_filtered_copies (String.eqb "A0SB")
           Examples.shared_data [Examples.mutations]).
  intros k v Hk. unfold Examples.shared_data in Hk.
  apply lookup_insert_Some in Hk as [[_ <-]|[_ Hk]]; [by eexists|].
  apply lookup_singleton_Some in Hk as [_ <-]. by eexists.
Defined.

(** ** Exceptions of [normalize_by_protein_length] *)

Lemma res_mapM_raises_iff {A B} (f : A → res B) (l : list A) e :
  res_mapM f l = Raise e
  ↔ ∃ before x after,
      l = before ++ x :: after
      ∧ (∀ b, b ∈ before → is_ok (f b) = true)
      ∧ f x = Raise e.
Proof.
  induction l as [|a l IH].
  - split; [done|]. intros (before & x & after & Hl & _).
    by destruct before.
  - cbn [res_mapM]. destruct (f a) as [y|e0] eqn:Hfa.
    + assert (Hrec : res_mapM f l = Raise e
                     ↔ match res_mapM f l with
                       | Ok ys => Ok (y :: ys)
                       | Raise e => Raise e
                       end = Raise e).
      { by destruct (res_mapM f l). }
      rewrite <- Hrec, IH. split.
      * intros (before & x & after & -> & Hok & Hx).
        exists (a :: before), x, after. split_and!; [done | | done].
        intros b [->|Hb]%elem_of_cons; [by rewrite Hfa | by apply Hok].
      * intros (before & x & after & Hl & Hok & Hx).
        destruct before as [|b before]; injection Hl as -> ->; [congruence|].
        exists before, x, after. split_and!; [done | | done].
        intros b' Hb'. apply Hok. by right.
    + split.
      * intros [= ->]. exists [], a, l. split_and!; [done | | done].
        by intros b ?%not_elem_of_nil.
      * intros (before & x & after & Hl & Hok & Hx).
        destruct before as [|b before]; injection Hl as -> ->; [congruence|].
        specialize (Hok b). rewrite Hfa in Hok. discriminate Hok. left.
Qed.

Section WithSequences.
Context `{ProteinSequences}.

(** The exceptions that leave [normalize]: those of the lookup that it does
    not catch, and those of [average_length()] in the handler. *)
Lemma normalize_raises_iff recover (column : Column) e :
  normalize recover column = Raise e
  ↔ (average_length (Some (fst column)) = Raise e
     ∧ e ≠ StatisticsError ∧ e ≠ KeyError)
    ∨ (lookup_fails (fst column) ∧ recover = true
       ∧ average_length None = Raise e).
Proof.
  unfold normalize, lookup_fails.
  destruct (average_length (Some (fst column))) as [len|[]] eqn:Hlen;
    destruct recover; cbn;
    try (destruct (average_length None) as [average|e'] eqn:Havg; cbn);
    naive_solver.
Qed.

(** On a layer with rows, [normalize_by_protein_length] raises [e] exactly
    when, at the first column that it cannot normalize, either the lookup
    of the protein's length raises [e] and [e] is not one of the two caught
    exceptions, or the lookup fails with a caught exception, [recover] is
    set and [average_length()] raises [e] (a [StatisticsError] of the
    handler itself is not caught). *)
Theorem normalize_by_protein_length_raises
    (self : DataFrame) (recover : bool) e :
  index self ≠ [] →
  normalize_by_protein_length self recover = Raise e
  ↔ ∃ before column after,
      cols self = before ++ column :: after
      ∧ (∀ b, b ∈ before → is_ok (normalize recover b) = true)
      ∧ ((average_length (Some (fst column)) = Raise e
          ∧ e ≠ StatisticsError ∧ e ≠ KeyError)
         ∨ (lookup_fails (fst column) ∧ recover = true
            ∧ average_length None = Raise e)).
Proof.
  intros _. unfold normalize_by_protein_length.
  assert (Hcols : match res_mapM (normalize recover) (cols self) with
                  | Ok normalized =>
                      Ok {| index := index self; cols := normalized |}
                  | Raise e => Raise e
                  end = Raise e
                  ↔ res_mapM (normalize recover) (cols self) = Raise e).
  { destruct (res_mapM (normalize recover) (cols self)); naive_solver. }
  unfold res_bind. rewrite Hcols, res_mapM_raises_iff.
  by setoid_rewrite normalize_raises_iff.
Qed.

End WithSequences.

Lemma normalize_by_protein_length_raises_witness :
  @normalize_by_protein_length Examples.no_sequences Examples.mutations true
  = Raise StatisticsError.
Proof.
  apply (@normalize_by_protein_length_raises Examples.no_sequences
           Examples.mutations true StatisticsError).
  - done.
  - exists [], ("TP53", [Examples.f_of_Z 1; Examples.f_of_Z 0]),
      [("UNKNOWN", [Examples.f_of_Z 2; Examples.f_of_Z 4])].
    split_and!; [done | by intros b ?%not_elem_of_nil |].
    right. split_and!; [by right | done | done].
Defined.

End LayersMore.

(* ===================================================================== *)
(** * Files and downloads of the TCGA module                              *)
(* ===================================================================== *)

Module TcgaFiles.
Import Tcga.

(** ** The barcodes that [TCGA.mutations] reads *)

Lemma first_barcodes_spec (keys : list TCGABarcode)
    (participants : gset string) chosen left_over :
  first_barcodes keys participants = (chosen, left_over) →
  sublist chosen keys
  ∧ NoDup (map participant chosen)
  ∧ (∀ b, b ∈ chosen → participant b ∈ participants)
  ∧ (∀ p, p ∈ left_over
          ↔ p ∈ participants ∧ ∀ b, b ∈ keys → participant b ≠ p)
  ∧ (∀ before b after,
       keys = before ++ b :: after →
       participant b ∈ participants →
       (∀ b0, b0 ∈ before → participant b0 ≠ participant b) →
       b ∈ chosen).
Proof.
  revert participants chosen left_over.
  induction keys as [|key keys IH]; intros S chosen left_over; cbn.
  - intros [= <- <-]. split_and!.
    + constructor.
    + constructor.
    + by intros b ?%not_elem_of_nil.
    + intros p. split; [|by intros [? _]]. intros Hp. split; [done|].
      by intros b ?%not_elem_of_nil.
    + intros [|? ?] ? ? ?; done.
  - destruct (decide (participant key ∈ S)) as [Hin|Hout].
    + destruct (first_barcodes keys (S ∖ {[participant key]}))
        as [chosen' left_over'] eqn:Hrec.
      intros [= <- <-].
      destruct (IH _ _ _ Hrec) as (Hsub & Hnd & Hmem & Hleft & Hfirst).
      split_and!.
      * by apply sublist_skip.
      * cbn. apply NoDup_cons. split; [|done]. intros Hp.
        apply list_elem_of_In, in_map_iff in Hp as (b & Hb & Hbin).
        apply list_elem_of_In, Hmem in Hbin. set_solver.
      * intros b [->|Hb]%elem_of_cons; [done|]. apply Hmem in Hb. set_solver.
      * intros p. rewrite Hleft. split.
        -- intros [Hp Hall]. split; [set_solver|].
           intros b [->|Hb]%elem_of_cons; [set_solver | by apply Hall].
        -- intros [Hp Hall]. split.
           ++ assert (participant key ≠ p) by (apply Hall; left). set_solver.
           ++ intros b Hb. apply Hall. by right.
      * intros before b after Hkeys Hb Hno.
        destruct before as [|b0 before]; cbn in Hkeys;
          injection Hkeys as -> ->; [left|].
        right. apply (Hfirst before b after eq_refl).
        -- assert (participant b0 ≠ participant b) by (apply Hno; left).
           set_solver.
        -- intros b1 Hb1. apply Hno. by right.
    + intros Hrec.
      destruct (IH _ _ _ Hrec) as (Hsub & Hnd & Hmem & Hleft & Hfirst).
      split_and!.
      * by apply sublist_cons.
      * done.
      * done.
      * intros p. rewrite Hleft. split.
        -- intros [Hp Hall]. split; [done|].
           intros b [->|Hb]%elem_of_cons; [|by apply Hall].
           intros Heq. by rewrite Heq in Hout.
        -- intros [Hp Hall]. split; [done|]. intros b Hb. apply Hall. by right.
      * intros before b after Hkeys Hb Hno.
        destruct before as [|b0 before]; cbn in Hkeys;
          injection Hkeys as -> ->; [done|].
        apply (Hfirst before b after eq_refl Hb).
        intros b1 Hb1. apply Hno. by right.
Qed.

(** When [participants] is given and not empty, [TCGA.mutations] reads one
    file per participant: the barcodes it reads are keys of [paths], in
    their order, of pairwise different participants, all of them
    requested; the first key of every requested participant is among them;
    and the warning is issued exactly when some requested participant has
    no key at all. *)
Theorem mutations_reads_one_file_per_participant
    (keys : list TCGABarcode) (p : string) (ps : list string) :
  let chosen := fst (chosen_barcodes keys (Some (p :: ps))) in
  let warned := snd (chosen_barcodes keys (Some (p :: ps))) in
  sublist chosen keys
  ∧ NoDup (map participant chosen)
  ∧ (∀ b, b ∈ chosen → participant b ∈ p :: ps)
  ∧ (∀ before b after,
       keys = before ++ b :: after →
       participant b ∈ p :: ps →
       (∀ b0, b0 ∈ before → participant b0 ≠ participant b) →
       b ∈ chosen)
  ∧ (warned = true
     ↔ ∃ q, q ∈ p :: ps ∧ ∀ b, b ∈ keys → participant b ≠ q).
Proof.
  unfold chosen_barcodes.
  destruct (first_barcodes keys (list_to_set (p :: ps)))
    as [chosen left_over] eqn:Hrec.
  cbn [fst snd].
  destruct (first_barcodes_spec _ _ _ _ Hrec)
    as (Hsub & Hnd & Hmem & Hleft & Hfirst).
  split_and!; [done | done | | |].
  - intros b Hb. apply Hmem in Hb. by apply elem_of_list_to_set in Hb.
  - intros before b after Hkeys Hb Hno.
    apply (Hfirst before b after Hkeys); [|done].
    by apply elem_of_list_to_set.
  - rewrite negb_true_iff, bool_decide_eq_false. split.
    + intros Hne. apply set_choose_L in Hne as [q Hq].
      apply Hleft in Hq as [Hq Hall]. exists q. split; [|done].
      by apply elem_of_list_to_set in Hq.
    + intros (q & Hq & Hall) Hempty.
      assert (Hin : q ∈ left_over).
      { apply Hleft. split; [|done]. by apply elem_of_list_to_set. }
      rewrite Hempty in Hin. by apply not_elem_of_empty in Hin.
Qed.

(** ** [TCGAExpression.cohorts] *)

Lemma append_nil (s : string) : String.append "" s = s.
Proof. reflexivity. Qed.

Lemma append_cons c (s1 s2 : string) :
  String.append (String c s1) s2 = String c (String.append s1 s2).
Proof. reflexivity. Qed.

Lemma string_length_append (s1 s2 : string) :
  String.length (String.append s1 s2)
  = (String.length s1 + String.length s2)%nat.
Proof.
  induction s1 as [|c s1 IH]; rewrite ?append_nil, ?append_cons; simpl;
    [done | by f_equal].
Qed.

Lemma string_append_assoc (s1 s2 s3 : string) :
  String.append (String.append s1 s2) s3
  = String.append s1 (String.append s2 s3).
Proof.
  induction s1 as [|c s1 IH]; rewrite ?append_nil, ?append_cons;
    [done | by f_equal].
Qed.

Lemma substring_skip (s1 s2 : string) n :
  String.substring (String.length s1) n (String.append s1 s2)
  = String.substring 0 n s2.
Proof.
  induction s1 as [|c s1 IH]; rewrite ?append_nil, ?append_cons; simpl; done.
Qed.

Lemma substring_prefix (s1 s2 : string) :
  String.substring 0 (String.length s1) (String.append s1 s2) = s1.
Proof.
  induction s1 as [|c s1 IH]; rewrite ?append_nil, ?append_cons; simpl;
    [by destruct s2 | by f_equal].
Qed.

Lemma occurs_append c (s1 s2 : string) :
  occurs c (String.append s1 s2) = occurs c s1 || occurs c s2.
Proof.
  induction s1 as [|c' s1 IH]; rewrite ?append_nil, ?append_cons; simpl;
    [done|]. by rewrite IH, orb_assoc.
Qed.

Lemma str_split_no_sep sep (s : string) :
  occurs sep s = false → str_split sep s = [s].
Proof.
  induction s as [|c s IH]; cbn; [done|].
  intros [Hc Hs]%orb_false_iff. by rewrite Hc, IH.
Qed.

Lemma str_split_at_sep sep (s1 s2 : string) :
  occurs sep s1 = false →
  str_split sep (String.append s1 (String sep s2)) = s1 :: str_split sep s2.
Proof.
  induction s1 as [|c s1 IH]; rewrite ?append_nil, ?append_cons; cbn.
  - by rewrite Ascii.eqb_refl.
  - intros [Hc Hs]%orb_false_iff. by rewrite Hc, IH.
Qed.

Lemma str_split_parts sep (s : string) :
  (1 ≤ List.length (str_split sep s))%nat.
Proof.
  induction s as [|c s IH]; cbn; [lia|].
  destruct (Ascii.eqb c sep); cbn; [lia|].
  destruct (str_split sep s); cbn; lia.
Qed.

Lemma str_split_parts_cons sep c (s : string) :
  Ascii.eqb c sep = false →
  List.length (str_split sep (String c s)) = List.length (str_split sep s).
Proof.
  intros Hc. cbn. rewrite Hc. pose proof (str_split_parts sep s) as Hs.
  destruct (str_split sep s); cbn in *; [lia | done].
Qed.

Lemma str_split_parts_append sep (s1 s2 : string) :
  List.length (str_split sep (String.append s1 (String sep s2)))
  = (List.length (str_split sep s1) + List.length (str_split sep s2))%nat.
Proof.
  induction s1 as [|c s1 IH]; rewrite ?append_nil, ?append_cons.
  - cbn. by rewrite Ascii.eqb_refl.
  - destruct (Ascii.eqb c sep) eqn:Hc.
    + cbn. rewrite Hc. cbn. by rewrite IH.
    + by rewrite !str_split_parts_cons, IH.
Qed.

Lemma str_split_parts_occurs sep (s : string) :
  occurs sep s = true → (2 ≤ List.length (str_split sep s))%nat.
Proof.
  induction s as [|c s IH]; [done|].
  destruct (Ascii.eqb c sep) eqn:Hc.
  - intros _. cbn. rewrite Hc. cbn. pose proof (str_split_parts sep s). lia.
  - cbn [occurs]. rewrite Hc. cbn [orb]. intros Hs.
    rewrite str_split_parts_cons by done. by apply IH.
Qed.

Lemma glob_path_parts (self_path : string) :
  format_path self_path "*"
  = String.append (String.append self_path path_template_head)
      (String "*" path_template_tail).
Proof. unfold format_path. by rewrite string_append_assoc. Qed.

Lemma slice_cancer_type (self_path cancer_type : string) :
  slice (format_path self_path cancer_type)
    (String.length (String.append self_path path_template_head))
    (String.length path_template_tail)
  = cancer_type.
Proof.
  unfold slice, format_path.
  assert (Htail : Nat.eqb (String.length path_template_tail) 0 = false)
    by reflexivity.
  rewrite Htail. clear Htail. rewrite <- string_append_assoc.
  generalize path_template_tail. intros tail.
  generalize (String.append self_path path_template_head). intros pre.
  rewrite !string_length_append, substring_skip.
  replace (String.length pre + (String.length cancer_type + String.length tail)
           - String.length tail - String.length pre)%nat
    with (String.length cancer_type) by lia.
  apply substring_prefix.
Qed.

(** For a path without an asterisk, [cohorts] gives back the cancer types
    of the files that [glob] finds for the template: the slice between the
    part before the asterisk and the part after it is the cancer type of
    each file. *)
Theorem cohorts_lists_cancer_types (self_path : string)
    (glob : string → list string) (cancer_types : list string) :
  occurs "*" self_path = false →
  glob (format_path self_path "*") = map (format_path self_path) cancer_types →
  cohorts self_path glob = Some cancer_types.
Proof.
  intros Hpath Hglob. unfold cohorts. rewrite Hglob, glob_path_parts.
  rewrite str_split_at_sep, str_split_no_sep; [|done|].
  - cbn [map]. f_equal. rewrite map_map.
    rewrite <- (map_id cancer_types) at 2. apply map_ext. intros cancer_type.
    apply slice_cancer_type.
  - by rewrite occurs_append, Hpath.
Qed.

Lemma cohorts_lists_cancer_types_witness :
  cohorts "/data/tcga" Examples.expression_files = Some ["BRCA"; "LUAD"].
Proof.
  apply (cohorts_lists_cancer_types "/data/tcga" Examples.expression_files
           ["BRCA"; "LUAD"]); reflexivity.
Defined.

(** When the path of the data holds an asterisk, the template splits into
    more than two parts and [cohorts] raises [ValueError], whatever files
    there are. *)
Theorem cohorts_fails_on_asterisk_in_path (self_path : string)
    (glob : string → list string) :
  occurs "*" self_path = true →
  cohorts self_path glob = None.
Proof.
  intros Hpath. unfold cohorts. rewrite glob_path_parts.
  assert (Hparts : (3 ≤ List.length
            (map String.length
               (str_split "*"
                  (String.append (String.append self_path path_template_head)
                     (String "*" path_template_tail)))))%nat).
  { rewrite length_map, str_split_parts_append.
    pose proof (str_split_parts "*" path_template_tail).
    pose proof (str_split_parts_occurs "*"
                  (String.append self_path path_template_head)) as Htwo.
    rewrite occurs_append, Hpath in Htwo. specialize (Htwo eq_refl). lia. }
  destruct (map String.length _) as [|a [|b [|c l]]]; cbn in Hparts;
    try lia; done.
Qed.

Lemma cohorts_fails_on_asterisk_in_path_witness :
  cohorts "/data/*/tcga" Examples.expression_files = None.
Proof.
  apply (cohorts_fails_on_asterisk_in_path "/data/*/tcga"
           Examples.expression_files).
  reflexivity.
Defined.

(** ** [download_with_firebrowser] *)

Lemma set_columns_same (first page : DataFrame) :
  List.length (cols page) = List.length (cols first) →
  set_columns page (columns first) = Some (renamed_as first page).
Proof.
  intros Hlen. unfold set_columns, columns.
  rewrite length_map, <- Hlen, Nat.eqb_refl. done.
Qed.

(** From the second page on: the loop goes through the full pages and
    returns with the first short one. *)
Lemma download_loop_runs (method : nat → DataFrame) (page_size : Z)
    (first : DataFrame) (n : nat) :
  ∀ fuel page_nr pages,
    (∀ i, (page_nr ≤ i < page_nr + n)%nat →
          (page_size ≤ Z.of_nat (List.length (index (method i))))%Z) →
    (Z.of_nat (List.length (index (method (page_nr + n)%nat))) < page_size)%Z →
    (∀ i, (page_nr ≤ i ≤ page_nr + n)%nat →
          List.length (cols (method i)) = List.length (cols first)) →
    (n < fuel)%nat →
    download_loop fuel method page_size page_nr (Some first) pages
    = Returned (pages ++ map (fun i => renamed_as first (method i))
                             (seq page_nr (S n))).
Proof.
  induction n as [|n IH]; intros fuel page_nr pages Hfull Hshort Hcols Hfuel;
    (destruct fuel as [|fuel]; [lia|]); cbn [download_loop].
  - rewrite set_columns_same by (apply Hcols; lia).
    cbn [renamed_as index]. rewrite Nat.add_0_r in Hshort.
    apply Z.ltb_lt in Hshort. by rewrite Hshort.
  - rewrite set_columns_same by (apply Hcols; lia).
    cbn [renamed_as index].
    assert (Hge : (Z.of_nat (List.length (index (method page_nr))) <? page_size)%Z
                  = false).
    { apply Z.ltb_ge, Hfull. lia. }
    rewrite Hge. rewrite (IH fuel (S page_nr)).
    + rewrite <- app_assoc. done.
    + intros i Hi. apply Hfull. lia.
    + by replace (S page_nr + n)%nat with (page_nr + S n)%nat by lia.
    + intros i Hi. apply Hcols. lia.
    + lia.
Qed.

Lemma download_loop_pages (method : nat → DataFrame) (page_size : Z)
    (k fuel : nat) :
  (∀ i, (1 ≤ i ≤ k)%nat →
        (page_size ≤ Z.of_nat (List.length (index (method i))))%Z) →
  (Z.of_nat (List.length (index (method (S k)))) < page_size)%Z →
  (∀ i, (1 ≤ i ≤ S k)%nat →
        List.length (cols (method i)) = List.length (cols (method 1%nat))) →
  (k < fuel)%nat →
  download_loop fuel method page_size 1 None []
  = Returned (method 1%nat
              :: map (fun i => renamed_as (method 1%nat) (method i)) (seq 2 k)).
Proof.
  intros Hfull Hshort Hcols Hfuel. destruct fuel as [|fuel]; [lia|].
  cbn [download_loop]. destruct k as [|k].
  - apply Z.ltb_lt in Hshort. by rewrite Hshort.
  - assert (Hge : (Z.of_nat (List.length (index (method 1%nat))) <? page_size)%Z
                  = false).
    { apply Z.ltb_ge, Hfull. lia. }
    rewrite Hge. rewrite (download_loop_runs method page_size (method 1%nat) k).
    + done.
    + intros i Hi. apply Hfull. lia.
    + by replace (2 + k)%nat with (S (S k)) by lia.
    + intros i Hi. apply Hcols. lia.
    + lia.
Qed.

Lemma snd_combine {A B} (a : list A) (b : list B) :
  List.length a = List.length b → map snd (combine a b) = b.
Proof.
  revert b. induction a as [|x a IH]; intros [|y b]; cbn; try done.
  intros [= Hlen]. by rewrite IH.
Qed.

Lemma renamed_pages_rows (method : nat → DataFrame) (first : DataFrame)
    (l : list nat) :
  flat_map index (map (fun i => renamed_as first (method i)) l)
  = flat_map (fun i => index (method i)) l.
Proof. induction l as [|i l IH]; cbn; [done | by rewrite IH]. Qed.

Lemma renamed_pages_cells (method : nat → DataFrame) (first : DataFrame)
    (j : nat) (l : list nat) :
  (∀ i, i ∈ l → List.length (cols (method i)) = List.length (cols first)) →
  flat_map (fun page => nth j (map snd (cols page)) [])
    (map (fun i => renamed_as first (method i)) l)
  = flat_map (fun i => nth j (map snd (cols (method i))) []) l.
Proof.
  induction l as [|i l IH]; intros Hlen; cbn; [done|].
  rewrite IH by (intros i' Hi'; apply Hlen; by right).
  f_equal. unfold columns. rewrite snd_combine; [done|].
  rewrite !length_map. symmetry. apply Hlen. left.
Qed.

(** Let the pages 1 to [k] hold [page_size] rows or more and page [k+1]
    fewer, all with as many columns as the first.  Then
    [download_with_firebrowser] returns (after [k+1] requests; the bound on
    the iterations only has to exceed [k]): the rows of the pages 1 to
    [k+1], one page after the other, under the column labels of the first
    page. *)
Theorem download_stops_at_first_short_page (method : nat → DataFrame)
    (page_size : Z) (k fuel : nat) :
  (∀ i, (1 ≤ i ≤ k)%nat →
        (page_size ≤ Z.of_nat (List.length (index (method i))))%Z) →
  (Z.of_nat (List.length (index (method (S k)))) < page_size)%Z →
  (∀ i, (1 ≤ i ≤ S k)%nat →
        List.length (cols (method i)) = List.length (cols (method 1%nat))) →
  (k < fuel)%nat →
  ∃ df,
    download_with_firebrowser fuel method page_size = Returned df
    ∧ index df = flat_map (fun i => index (method i)) (seq 1 (S k))
    ∧ columns df = columns (method 1%nat)
    ∧ (∀ j c, cols df !! j = Some c →
              snd c = flat_map (fun i => nth j (map snd (cols (method i))) [])
                        (seq 1 (S k))).
Proof.
  intros Hfull Hshort Hcols Hfuel. unfold download_with_firebrowser.
  rewrite (download_loop_pages method page_size k fuel) by done.
  eexists. split; [done|]. split_and!.
  - cbn [concat_rows index flat_map seq]. by rewrite renamed_pages_rows.
  - unfold columns, concat_rows. cbn [cols]. apply LayersMore.imap_labels.
  - intros j c Hj. unfold concat_rows in Hj. cbn [cols] in Hj.
    rewrite list_lookup_imap in Hj.
    destruct (cols (method 1%nat) !! j) as [c0|]; [|done].
    injection Hj as <-. cbn [snd flat_map seq].
    rewrite renamed_pages_cells; [done|].
    intros i Hi. apply Hcols. apply list_elem_of_In, in_seq in Hi. lia.
Qed.

Lemma download_stops_at_first_short_page_witness :
  ∃ df,
    download_with_firebrowser 5 Examples.firebrowse_page 2 = Returned df
    ∧ index df = ["0"; "1"; "0"; "1"; "0"]
    ∧ columns df = ["gene"]
    ∧ (∀ j c, cols df !! j = Some c →
              snd c = flat_map (fun i => nth j (map snd
                                  (cols (Examples.firebrowse_page i))) [])
                        (seq 1 3)).
Proof.
  apply (download_stops_at_first_short_page Examples.firebrowse_page 2 2 5).
  - intros i Hi. assert (i = 1 ∨ i = 2)%nat as [-> | ->] by lia; cbn; lia.
  - cbn. lia.
  - intros i Hi. assert (i = 1 ∨ i = 2 ∨ i = 3)%nat as [-> | [-> | ->]] by lia;
      reflexivity.
  - lia.
Defined.

Lemma download_loop_goes_on (method : nat → DataFrame) (page_size : Z)
    (fuel : nat) :
  (page_size ≤ 0)%Z →
  ∀ page_nr first_page pages sent,
    download_loop fuel method page_size page_nr first_page pages
    ≠ Returned sent.
Proof.
  intros Hsize. induction fuel as [|fuel IH];
    intros page_nr first_page pages sent; cbn [download_loop]; [done|].
  destruct first_page as [first|].
  - destruct (set_columns (method page_nr) (columns first)) as [page'|];
      [|done].
    assert (Hge : (Z.of_nat (List.length (index page')) <? page_size)%Z = false)
      by (apply Z.ltb_ge; lia).
    rewrite Hge. apply IH.
  - assert (Hge : (Z.of_nat (List.length (index (method page_nr)))
                   <? page_size)%Z = false) by (apply Z.ltb_ge; lia).
    rewrite Hge. apply IH.
Qed.

(** With a [page_size] of 0 or less no page is ever short, and
    [download_with_firebrowser] does not return, however many pages it has
    requested. *)
Theorem download_never_returns_without_page_size
    (method : nat → DataFrame) (page_size : Z) (fuel : nat) (df : DataFrame) :
  (page_size ≤ 0)%Z →
  download_with_firebrowser fuel method page_size ≠ Returned df.
Proof.
  intros Hsize. unfold download_with_firebrowser.
  pose proof (download_loop_goes_on method page_size fuel Hsize 1%nat None [])
    as Hloop.
  destruct (download_loop fuel method page_size 1 None []) as [pages| |];
    [by destruct (Hloop pages) | done | done].
Qed.

Lemma download_never_returns_without_page_size_witness :
  download_with_firebrowser 5 Examples.firebrowse_page 0
  ≠ Returned Examples.mutations.
Proof.
  apply (download_never_returns_without_page_size Examples.firebrowse_page 0 5
           Examples.mutations).
  lia.
Defined.

End TcgaFiles.
